(** * Heads-up hold'em simulation core: evaluator, betting engine, equity,
      lookup tables.

    A shallow embedding of [src/fast_evaluator.py], [src/match_engine.py],
    [src/strategies/equity_calculator.py], [src/strategies/gtob_table.py]
    and the table loader of [src/strategies/RMBALL.py], with the properties
    the specification states about them.

    Conventions.
    - Python [int] is [Z]; [%] and [//] with a positive divisor are
      [Z.modulo] and [Z.div]; [|], [&], [<<] are [Z.lor], [Z.land],
      [Z.shiftl].
    - A Python list is a [list]; indexing goes through [py_get], which
      wraps negative indices and raises [IndexError] out of range.
    - A function that can raise returns a [result].
    - Chip amounts are Python floats; they are modelled as exact rationals
      ([Q], compared with [==]).  With the default blinds (0.5 and 1.0) and
      stack (200.0) every amount the engine computes is a multiple of 0.25
      below 2^53, on which binary floating point is exact. *)

From Stdlib Require Import ZArith QArith Qabs Bool Lia Lqa String Ascii.
From stdpp Require Import base decidable option numbers sorting gmap list.

Local Open Scope Z_scope.

(** ** Exceptions and results *)

Inductive exn : Type :=
  | IndexError
  | KeyError
  | ValueError
  | ZeroDivisionError
  | AssertionError
  | FileNotFoundError
  | StructError
  | OutOfFuel.  (* not a Python exception: a loop of the model ran out of fuel *)

Inductive result (A : Type) : Type :=
  | Ok (a : A)
  | Raise (e : exn).
Arguments Ok {A} a.
Arguments Raise {A} e.

Definition rbind {A B} (m : result A) (f : A -> result B) : result B :=
  match m with
  | Ok a => f a
  | Raise e => Raise e
  end.

Notation "'do' x <- m ; k" := (rbind m (fun x => k))
  (at level 10, x name, m at level 100, k at level 200).

Definition is_ok {A} (m : result A) : bool :=
  match m with Ok _ => true | Raise _ => false end.

(** ** Python list indexing *)

(** [l[i]] accepts [-len(l) <= i < len(l)]. *)
Definition py_index {A} (l : list A) (i : Z) : result nat :=
  let n := Z.of_nat (length l) in
  if (0 <=? i) && (i <? n) then Ok (Z.to_nat i)
  else if (- n <=? i) && (i <? 0) then Ok (Z.to_nat (n + i))
  else Raise IndexError.

Definition py_get {A} (l : list A) (i : Z) : result A :=
  do k <- py_index l i;
  match l !! k with
  | Some x => Ok x
  | None => Raise IndexError
  end.

(** [l[i] += 1], returning the new list and the new value of the cell. *)
Definition py_incr (l : list Z) (i : Z) : result (list Z * Z) :=
  do k <- py_index l i;
  match l !! k with
  | Some x => Ok (<[k := x + 1]> l, x + 1)
  | None => Raise IndexError
  end.

(** ** Card strings, [match_engine.py] *)

Module Codec.

Definition RANK_MAP : list (ascii * Z) :=
  [("2", 0); ("3", 1); ("4", 2); ("5", 3); ("6", 4); ("7", 5); ("8", 6);
   ("9", 7); ("T", 8); ("J", 9); ("Q", 10); ("K", 11); ("A", 12)]%char.

Definition SUIT_MAP : list (ascii * Z) :=
  [("s", 0); ("h", 1); ("d", 2); ("c", 3)]%char.

Definition INT_TO_RANK : list ascii :=
  ["2"; "3"; "4"; "5"; "6"; "7"; "8"; "9"; "T"; "J"; "Q"; "K"; "A"]%char.

Definition INT_TO_SUIT : list ascii := ["s"; "h"; "d"; "c"]%char.

(** [d[k]] on a dict: [KeyError] when the key is absent. *)
Fixpoint dict_get (d : list (ascii * Z)) (k : ascii) : result Z :=
  match d with
  | [] => Raise KeyError
  | (k', v) :: rest => if Ascii.eqb k k' then Ok v else dict_get rest k
  end.

(** [s[i]] on a string, for [i >= 0]. *)
Definition str_get (s : string) (i : nat) : result ascii :=
  match String.get i s with
  | Some c => Ok c
  | None => Raise IndexError
  end.

(** [RANK_MAP[card_str[0]] + SUIT_MAP[card_str[1]] * 13] *)
Definition card_to_int (card_str : string) : result Z :=
  do c0 <- str_get card_str 0;
  do r <- dict_get RANK_MAP c0;
  do c1 <- str_get card_str 1;
  do s <- dict_get SUIT_MAP c1;
  Ok (r + s * 13).

(** [INT_TO_RANK[card_int % 13] + INT_TO_SUIT[card_int // 13]] *)
Definition int_to_card (card_int : Z) : result string :=
  do r <- py_get INT_TO_RANK (card_int mod 13);
  do s <- py_get INT_TO_SUIT (card_int / 13);
  Ok (String r (String s EmptyString)).

(** [[card_to_int(c) for c in strs]] *)
Fixpoint cards_of (strs : list string) : result (list Z) :=
  match strs with
  | [] => Ok []
  | c :: rest =>
      do x <- card_to_int c;
      do xs <- cards_of rest;
      Ok (x :: xs)
  end.

End Codec.

(** ** The evaluator, [fast_evaluator.py] *)

Module Evaluator.

Definition rank_of (c : Z) : Z := c mod 13.
Definition suit_of (c : Z) : Z := c / 13.

(** [range(12, 3, -1)] and [range(12, -1, -1)]. *)
Definition straight_highs : list Z := [12; 11; 10; 9; 8; 7; 6; 5; 4].
Definition ranks_high_to_low : list Z :=
  [12; 11; 10; 9; 8; 7; 6; 5; 4; 3; 2; 1; 0].

(** [s_mask = 0; for j in range(5): s_mask |= (1 << (i - j))] *)
Definition s_mask (i : Z) : Z :=
  fold_left (fun m j => Z.lor m (Z.shiftl 1 (i - j))) [0; 1; 2; 3; 4] 0.

Definition WHEEL_MASK : Z :=
  Z.lor (Z.lor (Z.lor (Z.lor (Z.shiftl 1 12) (Z.shiftl 1 0)) (Z.shiftl 1 1))
               (Z.shiftl 1 2)) (Z.shiftl 1 3).

(** [mask = 0; for r in rs: mask |= (1 << r)] *)
Definition rank_mask (rs : list Z) : Z :=
  fold_left (fun m r => Z.lor m (Z.shiftl 1 r)) rs 0.

(** The loop over the suits: the first suit whose running count reaches
    five, [-1] when the loop runs out. *)
Fixpoint find_flush (suits : list Z) (suit_counts : list Z) : result Z :=
  match suits with
  | [] => Ok (-1)
  | s :: rest =>
      do cn <- py_incr suit_counts s;
      if 5 <=? snd cn then Ok s else find_flush rest (fst cn)
  end.

(** [for i in range(12, 3, -1): ... if (mask & s_mask) == s_mask: return i],
    then the wheel test. [None] when neither matches. *)
Fixpoint scan_windows (mask : Z) (highs : list Z) : option Z :=
  match highs with
  | [] => None
  | i :: rest =>
      if Z.land mask (s_mask i) =? s_mask i then Some i
      else scan_windows mask rest
  end.

Definition straight_high (mask : Z) : option Z :=
  match scan_windows mask straight_highs with
  | Some i => Some i
  | None => if Z.land mask WHEEL_MASK =? WHEEL_MASK then Some 3 else None
  end.

(** [flush_ranks.sort(reverse=True)]: a merge sort under "comes before
    when greater or equal". *)
Definition desc : relation Z := fun x y => y <= x.

#[global] Instance desc_dec : RelDecision desc := fun x y => decide (y <= x).

Definition sort_desc (l : list Z) : list Z := merge_sort desc l.

(** [score = 5 << 20; for i in range(5): score |= flush_ranks[i] << (16 - 4*i)] *)
Fixpoint pack_flush (flush_ranks : list Z) (idx : list Z) (score : Z) : result Z :=
  match idx with
  | [] => Ok score
  | i :: rest =>
      do r <- py_get flush_ranks i;
      pack_flush flush_ranks rest (Z.lor score (Z.shiftl r (16 - 4 * i)))
  end.

Definition flush_branch (unsorted_flush_ranks : list Z) : result Z :=
  let flush_ranks := sort_desc unsorted_flush_ranks in
  let mask := rank_mask flush_ranks in
  match straight_high mask with
  | Some i => Ok (Z.lor (Z.shiftl 8 20) (Z.shiftl i 16))
  | None => pack_flush flush_ranks [0; 1; 2; 3; 4] (Z.shiftl 5 20)
  end.

(** [rank_counts = [0] * 13; for r in ranks: rank_counts[r] += 1] *)
Fixpoint count_ranks (ranks : list Z) (rank_counts : list Z) : result (list Z) :=
  match ranks with
  | [] => Ok rank_counts
  | r :: rest =>
      do cn <- py_incr rank_counts r;
      count_ranks rest (fst cn)
  end.

(** The four lists built by the loop over [range(12, -1, -1)]. *)
Record groups : Type := Groups {
  quads : list Z;
  trips : list Z;
  pairs : list Z;
  singles : list Z
}.

(** [for r in range(12, -1, -1): c = rank_counts[r];
     if c == 4: quads.append(r) elif c == 3: trips.append(r)
     elif c == 2: pairs.append(r) elif c == 1: singles.append(r)] *)
Fixpoint classify (rank_counts : list Z) (rs : list Z) (g : groups) : result groups :=
  match rs with
  | [] => Ok g
  | r :: rest =>
      do c <- py_get rank_counts r;
      classify rank_counts rest
        (if c =? 4 then Groups (quads g ++ [r]) (trips g) (pairs g) (singles g)
         else if c =? 3 then Groups (quads g) (trips g ++ [r]) (pairs g) (singles g)
         else if c =? 2 then Groups (quads g) (trips g) (pairs g ++ [r]) (singles g)
         else if c =? 1 then Groups (quads g) (trips g) (pairs g) (singles g ++ [r])
         else g)
  end.

(** [kicker = 0; for r in range(12, -1, -1):
     if <keep r> and rank_counts[r] > 0: kicker = r; break] *)
Fixpoint first_kicker (rank_counts : list Z) (keep : Z -> bool) (rs : list Z)
    : result Z :=
  match rs with
  | [] => Ok 0
  | r :: rest =>
      if keep r then
        do c <- py_get rank_counts r;
        if 0 <? c then Ok r else first_kicker rank_counts keep rest
      else first_kicker rank_counts keep rest
  end.

(** [kickers = []; for r in range(12, -1, -1):
     if <keep r> and rank_counts[r] > 0:
       kickers.append(r); if len(kickers) == n: break] *)
Fixpoint collect_kickers (rank_counts : list Z) (keep : Z -> bool) (n : nat)
    (rs : list Z) (kickers : list Z) : result (list Z) :=
  match rs with
  | [] => Ok kickers
  | r :: rest =>
      if keep r then
        do c <- py_get rank_counts r;
        if 0 <? c then
          let kickers' := kickers ++ [r] in
          if (length kickers' =? n)%nat then Ok kickers'
          else collect_kickers rank_counts keep n rest kickers'
        else collect_kickers rank_counts keep n rest kickers
      else collect_kickers rank_counts keep n rest kickers
  end.

(** [for i, k in enumerate(kickers): score |= (k << (16 - 4*i))] *)
Fixpoint pack_high (kickers : list Z) (i : Z) (score : Z) : Z :=
  match kickers with
  | [] => score
  | k :: rest => pack_high rest (i + 1) (Z.lor score (Z.shiftl k (16 - 4 * i)))
  end.

(** Python truth value of a list. *)
Definition truthy {A} (l : list A) : bool :=
  match l with [] => false | _ :: _ => true end.

Definition len {A} (l : list A) : Z := Z.of_nat (length l).

(** Section 3 of [evaluate_hand]: quads, full house, trips, two pair,
    pair, high card. *)
Definition paired_branch (rank_counts : list Z) : result Z :=
  do g <- classify rank_counts ranks_high_to_low (Groups [] [] [] []);
  let quads := quads g in
  let trips := trips g in
  let pairs := pairs g in
  if truthy quads then
    do q <- py_get quads 0;
    do kicker <- first_kicker rank_counts (fun r => negb (r =? q)) ranks_high_to_low;
    Ok (Z.lor (Z.lor (Z.shiftl 7 20) (Z.shiftl q 16)) (Z.shiftl kicker 12))
  else if truthy trips && ((2 <=? len trips) || truthy pairs) then
    do high_trip <- py_get trips 0;
    do high_pair0 <-
      (if 2 <=? len trips then py_get trips 1
       else if truthy pairs then py_get pairs 0
       else Ok 0);
    do high_pair <-
      (if truthy pairs && (2 <=? len trips) then
         do p0 <- py_get pairs 0;
         do t1 <- py_get trips 1;
         if t1 <? p0 then Ok p0 else Ok high_pair0
       else Ok high_pair0);
    Ok (Z.lor (Z.lor (Z.shiftl 6 20) (Z.shiftl high_trip 16)) (Z.shiftl high_pair 12))
  else if len trips =? 1 then
    do t <- py_get trips 0;
    do kickers <- collect_kickers rank_counts (fun r => negb (r =? t)) 2
                    ranks_high_to_low [];
    do k0 <- py_get kickers 0;
    do k1 <- py_get kickers 1;
    Ok (Z.lor (Z.lor (Z.lor (Z.shiftl 3 20) (Z.shiftl t 16)) (Z.shiftl k0 12))
              (Z.shiftl k1 8))
  else if 2 <=? len pairs then
    do p1 <- py_get pairs 0;
    do p2 <- py_get pairs 1;
    do kicker <- first_kicker rank_counts
                   (fun r => negb (r =? p1) && negb (r =? p2)) ranks_high_to_low;
    Ok (Z.lor (Z.lor (Z.lor (Z.shiftl 2 20) (Z.shiftl p1 16)) (Z.shiftl p2 12))
              (Z.shiftl kicker 8))
  else if len pairs =? 1 then
    do p1 <- py_get pairs 0;
    do kickers <- collect_kickers rank_counts (fun r => negb (r =? p1)) 3
                    ranks_high_to_low [];
    do k0 <- py_get kickers 0;
    do k1 <- py_get kickers 1;
    do k2 <- py_get kickers 2;
    Ok (Z.lor (Z.lor (Z.lor (Z.lor (Z.shiftl 1 20) (Z.shiftl p1 16))
                            (Z.shiftl k0 12)) (Z.shiftl k1 8)) (Z.shiftl k2 4))
  else
    do kickers <- collect_kickers rank_counts (fun _ => true) 5
                    ranks_high_to_low [];
    Ok (pack_high kickers 0 0).

(** Everything after the flush test: straight, then the paired hands. *)
Definition nonflush_branch (ranks : list Z) : result Z :=
  let mask := rank_mask ranks in
  match straight_high mask with
  | Some i => Ok (Z.lor (Z.shiftl 4 20) (Z.shiftl i 16))
  | None =>
      do rank_counts <- count_ranks ranks (repeat 0 13);
      paired_branch rank_counts
  end.

Definition evaluate_hand (cards : list Z) : result Z :=
  let ranks := map rank_of cards in
  let suits := map suit_of cards in
  do flush_suit <- find_flush suits [0; 0; 0; 0];
  if negb (flush_suit =? -1) then
    flush_branch
      (map fst (filter (fun rs => snd rs = flush_suit) (zip ranks suits)))
  else nonflush_branch ranks.

End Evaluator.

(** ** The standard ranking of poker hands

    The reference the evaluator is compared with, written from the rules
    of the game and not from the evaluator: a five-card hand has a category
    and a list of tie-breaking ranks; a seven-card hand is worth the best
    five-card hand that can be chosen from it. *)

Module Poker.
Import Evaluator.

(** A hand value: category, then the tie-breaking ranks, most significant
    first.  Values are compared lexicographically. *)
Definition value : Type := Z * list Z.

Fixpoint lex_ltb (a b : list Z) : bool :=
  match a, b with
  | [], [] => false
  | [], _ :: _ => true
  | _ :: _, [] => false
  | x :: a', y :: b' => (x <? y) || ((x =? y) && lex_ltb a' b')
  end.

Definition value_ltb (v w : value) : bool :=
  (fst v <? fst w) || ((fst v =? fst w) && lex_ltb (snd v) (snd w)).

Definition vmax (v w : value) : value := if value_ltb v w then w else v.

Definition best (vs : list value) : value := fold_right vmax (0, []) vs.

(** How many of the ranks are [r]. *)
Definition mult (r : Z) (ranks : list Z) : nat :=
  length (filter (fun x => x = r) ranks).

(** No rank is held five times or more. *)
Definition at_most_four (rs : list Z) : bool :=
  forallb (fun r => (mult r rs <=? 4)%nat) rs.

(** The ranks held exactly [k] times, high to low. *)
Definition with_mult (k : nat) (ranks : list Z) : list Z :=
  filter (fun r => mult r ranks = k) ranks_high_to_low.

(** Five ranks in descending order form a straight when they are
    consecutive; ace, five, four, three, two is the five-high straight. *)
Definition straight5 (sorted : list Z) : option Z :=
  match sorted with
  | [a; b; c; d; e] =>
      if bool_decide (b = a - 1 /\ c = a - 2 /\ d = a - 3 /\ e = a - 4)
      then Some a
      else if bool_decide (sorted = [12; 3; 2; 1; 0]) then Some 3
      else None
  | _ => None
  end.

(** The value of five cards, given their ranks and whether they share a
    suit. *)
Definition value5 (ranks : list Z) (flush : bool) : value :=
  let sorted := sort_desc ranks in
  let quads := with_mult 4 ranks in
  let trips := with_mult 3 ranks in
  let pairs := with_mult 2 ranks in
  let singles := with_mult 1 ranks in
  match straight5 sorted, flush with
  | Some h, true => (8, [h])
  | st, _ =>
    if bool_decide (quads <> []) then (7, quads ++ singles)
    else if bool_decide (trips <> [] /\ pairs <> []) then (6, trips ++ pairs)
    else if flush then (5, sorted)
    else match st with
    | Some h => (4, [h])
    | None =>
      if bool_decide (trips <> []) then (3, trips ++ singles)
      else if bool_decide (length pairs = 2%nat) then (2, pairs ++ singles)
      else if bool_decide (length pairs = 1%nat) then (1, pairs ++ singles)
      else (0, sorted)
    end
  end.

(** All cards of one suit. *)
Definition same_suit (suits : list Z) : bool :=
  match suits with
  | [] => true
  | s :: rest => forallb (fun t => t =? s) rest
  end.

Definition hand5_value (five : list Z) : value :=
  value5 (map rank_of five) (same_suit (map suit_of five)).

(** The sub-lists of [k] elements, the order of [l] kept. *)
Fixpoint choose {A} (k : nat) (l : list A) : list (list A) :=
  match k, l with
  | O, _ => [[]]
  | S _, [] => []
  | S k', x :: l' => map (cons x) (choose k' l') ++ choose k l'
  end.

(** The standard value of a hand of seven cards (of five or more). *)
Definition standard_value (cards : list Z) : value :=
  best (map hand5_value (choose 5 cards)).

Definition stronger (a b : list Z) : Prop :=
  value_ltb (standard_value b) (standard_value a) = true.

Definition tied (a b : list Z) : Prop :=
  standard_value a = standard_value b.

(** A well-formed evaluator input: seven distinct ids in [0, 52). *)
Definition valid_hand (cards : list Z) : Prop :=
  length cards = 7%nat /\ NoDup cards /\ Forall (fun c => 0 <= c < 52) cards.

(** The integer a value corresponds to: the category above bit 20, the
    tie-breaking ranks in four-bit fields from bit 16 downwards. *)
Fixpoint pack (ts : list Z) (shift : Z) : Z :=
  match ts with
  | [] => 0
  | t :: rest => t * 2 ^ shift + pack rest (shift - 4)
  end.

Definition encode (v : value) : Z := fst v * 2 ^ 20 + pack (snd v) 16.

(** How many tie-breaking ranks a category carries. *)
Definition arity (c : Z) : nat :=
  if c =? 8 then 1 else if c =? 7 then 2 else if c =? 6 then 2
  else if c =? 5 then 5 else if c =? 4 then 1 else if c =? 3 then 3
  else if c =? 2 then 3 else if c =? 1 then 4 else 5.

Definition wf_value (v : value) : bool :=
  (0 <=? fst v) && (fst v <=? 8) && (length (snd v) =? arity (fst v))%nat
  && forallb (fun t => (0 <=? t) && (t <=? 12)) (snd v).

(** *** Patterns of a hand, on its cards

    Stated on the ranks and suits the hand holds, without reference to
    any evaluation. *)

(** Every rank of [need] is among [rs]. *)
Definition holds (rs need : list Z) : bool :=
  forallb (fun r => existsb (Z.eqb r) rs) need.

(** The five ranks of the straight whose high card is [i]. *)
Definition window (i : Z) : list Z := [i; i - 1; i - 2; i - 3; i - 4].

(** Ace, two, three, four, five. *)
Definition wheel_ranks : list Z := [12; 0; 1; 2; 3].

(** A straight that is six-high or better. *)
Definition higher_straight (rs : list Z) : bool :=
  existsb (fun i => holds rs (window i)) straight_highs.

(** A straight that is seven-high or better. *)
Definition above_six_high (rs : list Z) : bool :=
  existsb (fun i => holds rs (window i)) [12; 11; 10; 9; 8; 7; 6; 5].

Definition has_quads (rs : list Z) : bool :=
  existsb (fun r => (4 <=? mult r rs)%nat) ranks_high_to_low.

(** Three of one rank and two of another. *)
Definition has_full_house (rs : list Z) : bool :=
  existsb (fun r =>
             if (3 <=? mult r rs)%nat
             then existsb (fun q => if q =? r then false else (2 <=? mult q rs)%nat)
                          ranks_high_to_low
             else false)
          ranks_high_to_low.

Definition count_suit (s : Z) (suits : list Z) : nat :=
  length (filter (fun t => t = s) suits).

(** Five cards or more of one suit. *)
Definition has_flush (cards : list Z) : bool :=
  existsb (fun s => (5 <=? count_suit s (map suit_of cards))%nat) [0; 1; 2; 3].

(** The ranks of the cards of suit [s]. *)
Definition suited_ranks (s : Z) (cards : list Z) : list Z :=
  map rank_of (filter (fun c => suit_of c = s) cards).

(** *** Classes of hands *)

Definition ranks_of (cards : list Z) : list Z := map rank_of cards.

(** Ace to five, no flush, no better straight. *)
Definition wheel_hand (cards : list Z) : Prop :=
  has_flush cards = false /\ holds (ranks_of cards) wheel_ranks = true
  /\ higher_straight (ranks_of cards) = false.

(** Two to six, no flush, no better straight. *)
Definition six_high_hand (cards : list Z) : Prop :=
  has_flush cards = false /\ holds (ranks_of cards) (window 4) = true
  /\ above_six_high (ranks_of cards) = false.

Definition has_straight (rs : list Z) : bool :=
  holds rs wheel_ranks || higher_straight rs.

Definition nonstraight_nonflush (cards : list Z) : Prop :=
  has_flush cards = false /\ has_straight (ranks_of cards) = false.

(** Neither straight nor flush nor four of a kind nor full house. *)
Definition plain_hand (cards : list Z) : Prop :=
  nonstraight_nonflush cards /\ has_quads (ranks_of cards) = false
  /\ has_full_house (ranks_of cards) = false.

(** Ace to five in one suit, and no better straight in that suit. *)
Definition wheel_flush_hand (cards : list Z) : Prop :=
  exists s, holds (suited_ranks s cards) wheel_ranks = true
            /\ higher_straight (suited_ranks s cards) = false.

(** The scores the evaluator gives to a five-high straight, a six-high
    straight and a five-high straight flush. *)
Definition wheel_score : Z := Z.lor (Z.shiftl 4 20) (Z.shiftl 3 16).
Definition six_high_score : Z := Z.lor (Z.shiftl 4 20) (Z.shiftl 4 16).
Definition wheel_flush_score : Z := Z.lor (Z.shiftl 8 20) (Z.shiftl 3 16).

End Poker.

(** ** Canonical hands

    Whatever the evaluator and the standard ranking compute depends on a
    hand only through the ranks of the cards of the flush suit (when there
    is one) and the ranks of the other cards.  A canonical hand is a pair
    of descending rank lists [(F, O)]; there are few enough of them for a
    property to be checked on each. *)

Module Canon.
Import Evaluator Poker.

(** An abstract card: its rank, and whether it is of the flush suit. *)
Definition acard : Type := (Z * bool)%type.

Definition adesc : relation acard := fun a b => fst b <= fst a.

#[global] Instance adesc_dec : RelDecision adesc :=
  fun a b => decide (fst b <= fst a).

Definition tag (b : bool) (rs : list Z) : list acard := map (fun r => (r, b)) rs.

(** The cards of a canonical hand, in descending order of rank. *)
Definition hand_of (F O : list Z) : list acard :=
  list_merge adesc (tag true F) (tag false O).

(** [value5] on five ranks already in descending order. *)
Definition fast5 (s : list Z) (flush : bool) : value :=
  match s with
  | [a; b; c; d; e] =>
    let st :=
      if (b =? a - 1) && (c =? a - 2) && (d =? a - 3) && (e =? a - 4)
      then Some a
      else if (a =? 12) && (b =? 3) && (c =? 2) && (d =? 1) && (e =? 0)
      then Some 3 else None in
    match st, flush with
    | Some h, true => (8, [h])
    | _, _ =>
      match a =? b, b =? c, c =? d, d =? e with
      | true, true, true, false => (7, [a; e])
      | false, true, true, true => (7, [b; a])
      | true, true, false, true => (6, [a; d])
      | true, false, true, true => (6, [c; a])
      | ab, bc, cd, de =>
        if flush then (5, s)
        else match st with
        | Some h => (4, [h])
        | None =>
          match ab, bc, cd, de with
          | true, true, false, false => (3, [a; d; e])
          | false, true, true, false => (3, [b; a; e])
          | false, false, true, true => (3, [c; a; b])
          | true, false, true, false => (2, [a; c; e])
          | true, false, false, true => (2, [a; d; c])
          | false, true, false, true => (2, [b; d; a])
          | true, false, false, false => (1, [a; c; d; e])
          | false, true, false, false => (1, [b; a; d; e])
          | false, false, true, false => (1, [c; a; b; e])
          | false, false, false, true => (1, [d; a; b; c])
          | _, _, _, _ => (0, s)
          end
        end
      end
    end
  | _ => value5 s flush
  end.

Definition avalue5 (five : list acard) : value :=
  value5 (map fst five) (forallb snd five).

Definition afast5 (five : list acard) : value :=
  fast5 (map fst five) (forallb snd five).

(** The standard value, on abstract cards. *)
Definition best_abs (la : list acard) : value :=
  best (map avalue5 (choose 5 la)).

Definition best_fast (la : list acard) : value :=
  best (map afast5 (choose 5 la)).

(** What [evaluate_hand] does once the flush suit is known. *)
Definition eval_abs (la : list acard) : result Z :=
  if existsb snd la
  then flush_branch (map fst (filter (fun a => snd a = true) la))
  else nonflush_branch (map fst la).

Definition eval_canon (F O : list Z) : result Z :=
  match F with
  | [] => nonflush_branch O
  | _ :: _ => flush_branch F
  end.

(** *** Enumeration *)

Fixpoint zrange (lo : Z) (n : nat) : list Z :=
  match n with
  | O => []
  | S n' => lo :: zrange (lo + 1) n'
  end.

(** Every descending list of [n] ranks in [0, hi] (strictly descending
    when [strict]) satisfies [f]. *)
Fixpoint all_lists (strict : bool) (n : nat) (hi : Z) (f : list Z -> bool) : bool :=
  match n with
  | O => f []
  | S n' =>
      forallb (fun x => all_lists strict n' (if strict then x - 1 else x)
                          (fun l => f (x :: l)))
              (zrange 0 (Z.to_nat (hi + 1)))
  end.

(** The lists [all_lists] goes through. *)
Fixpoint dsc (strict : bool) (hi : Z) (l : list Z) : Prop :=
  match l with
  | [] => True
  | x :: l' => 0 <= x <= hi /\ dsc strict (if strict then x - 1 else x) l'
  end.

(** *** The properties checked on every canonical hand *)

Definition check_fast (s : list Z) : bool :=
  bool_decide (fast5 s true = value5 s true)
  && bool_decide (fast5 s false = value5 s false).

(** The evaluator returns the encoding of the best five-card value. *)
Definition check_value (F O : list Z) (s : Z) : bool :=
  let v := best_fast (hand_of F O) in wf_value v && (s =? encode v).

(** Without a flush: the wheel is the five-high straight, the six-high
    straight is the next one, and a hand with no straight, no four of a
    kind and no full house scores below every straight. *)
Definition check_nonflush (O : list Z) (s : Z) : bool :=
  (if holds O wheel_ranks
   then if higher_straight O then true else s =? 4 * 2 ^ 20 + 3 * 2 ^ 16
   else true)
  && (if holds O (window 4)
      then if above_six_high O then true else s =? 4 * 2 ^ 20 + 4 * 2 ^ 16
      else true)
  && (if holds O wheel_ranks then true
      else if higher_straight O then true
      else if has_quads O then true
      else if has_full_house O then true
      else s <? 4 * 2 ^ 20).

(** In the flush suit the wheel is the five-high straight flush. *)
Definition check_flush (F : list Z) (s : Z) : bool :=
  if holds F wheel_ranks
  then if higher_straight F then true else s =? 8 * 2 ^ 20 + 3 * 2 ^ 16
  else true.

Definition check_hand (F : list Z) : list Z -> bool :=
  match F with
  | [] => fun O =>
      match nonflush_branch O with
      | Ok s => check_value F O s && check_nonflush O s
      | Raise _ => false
      end
  | _ :: _ =>
      match flush_branch F with
      | Ok s =>
          if check_flush F s then fun O => check_value F O s
          else fun _ => false
      | Raise _ => fun _ => false
      end
  end.

(** The canonical hands come in four families: no flush suit and seven
    other ranks, or five, six or seven distinct ranks in the flush suit and
    the rest outside.  Each family is gone through by [all_lists]. *)
Definition family0 (O : list Z) : bool := negb (at_most_four O) || check_hand [] O.
Definition family5 (F : list Z) : bool := all_lists false 2 12 (check_hand F).
Definition family6 (F : list Z) : bool := all_lists false 1 12 (check_hand F).
Definition family7 (F : list Z) : bool := check_hand F [].

(** The canonical hand of a list of abstract cards. *)
Definition flagged (la : list acard) : list Z :=
  map fst (filter (fun a => snd a = true) la).

Definition unflagged (la : list acard) : list Z :=
  map fst (filter (fun a => ~ snd a = true) la).

Definition canonF (la : list acard) : list Z := sort_desc (flagged la).
Definition canonO (la : list acard) : list Z := sort_desc (unflagged la).

(** *** Suits *)

(** Every list of [n] suits taken from [0..3] satisfies [f]. *)
Fixpoint all_seqs (n : nat) (f : list Z -> bool) : bool :=
  match n with
  | O => f []
  | S n' => forallb (fun x => all_seqs n' (fun l => f (x :: l))) [0; 1; 2; 3]
  end.

(** What the flush loop finds on seven suits: the suit held five times or
    more, which is then the only one, and the only one five cards can
    share. *)
Definition check_suits (suits : list Z) : bool :=
  match find_flush suits [0; 0; 0; 0] with
  | Ok fs =>
      forallb (fun sub => Bool.eqb (same_suit sub) (forallb (fun t => t =? fs) sub))
              (choose 5 suits)
      && Bool.eqb (negb (fs =? -1)) (existsb (fun t => t =? fs) suits)
      && ((count_suit fs suits =? 0)%nat || (5 <=? count_suit fs suits)%nat)
      && forallb (fun s => negb (5 <=? count_suit s suits)%nat || (s =? fs))
                 [0; 1; 2; 3]
  | Raise _ => false
  end.

(** The abstract card of a card, the flush suit being [fs]. *)
Definition abs_of (fs : Z) (c : Z) : acard := (rank_of c, suit_of c =? fs).

End Canon.

(** ** The match engine, [match_engine.py] *)

Module Engine.
Import Codec Evaluator.

Local Open Scope Q_scope.

(** [GameConfig] *)
Record GameConfig : Type := {
  small_blind : Q;
  big_blind : Q;
  starting_stack : Q
}.

Definition default_config : GameConfig :=
  {| small_blind := 1 # 2; big_blind := 1; starting_stack := 200 |}.

(** A two-element list indexed by a player index, which is 0 or 1. *)
Definition get2 {A} (a : A * A) (i : Z) : A :=
  if (i =? 0)%Z then fst a else snd a.

Definition set2 {A} (a : A * A) (i : Z) (x : A) : A * A :=
  if (i =? 0)%Z then (x, snd a) else (fst a, x).

(** [FastState] *)
Record FastState : Type := mkState {
  stacks : Q * Q;
  pot : Q;
  street : Z;
  board : list Z;
  hole_cards : list Z * list Z;
  active_player : Z;
  bets : Q * Q;
  folded : bool;
  hand_complete : bool
}.

(** [FastState.__init__] *)
Definition init_state (starting_stack : Q) : FastState :=
  mkState (starting_stack, starting_stack) 0 0 [] ([], []) 0 (0, 0) false false.

(** [FastState.reset]; the hole cards are left as they are. *)
Definition reset (st : FastState) (sb bb : Q) (btn_idx : Z) (starting_stack : Q)
    : FastState :=
  if (btn_idx =? 0)%Z then
    mkState (starting_stack - sb, starting_stack - bb) (sb + bb) 0 []
            (hole_cards st) 0 (sb, bb) false false
  else
    mkState (starting_stack - bb, starting_stack - sb) (sb + bb) 0 []
            (hole_cards st) 1 (bb, sb) false false.

(** *** Sampling an action *)

(** What a strategy returns: a dict from action names to weights, in
    insertion order. *)
Definition dist : Type := list (string * Q).

(** [max(probs, key=probs.get)]: the first key of greatest weight. *)
Fixpoint max_key (items : dist) (best : string) (best_w : Q) : string :=
  match items with
  | [] => best
  | (a, p) :: rest =>
      if Qle_bool p best_w then max_key rest best best_w
      else max_key rest a p
  end.

Definition argmax (probs : dist) : string :=
  match probs with
  | [] => EmptyString
  | (a, p) :: rest => max_key rest a p
  end.

(** [for a, p in probs.items(): cum += p; if r <= cum: selected = a; break] *)
Fixpoint sample_loop (items : dist) (r cum : Q) (selected : string) : string :=
  match items with
  | [] => selected
  | (a, p) :: rest =>
      if Qle_bool r (cum + p) then a
      else sample_loop rest r (cum + p) selected
  end.

(** Lines 253-267 of [_run_street]: the fallback for an empty dict, then
    the sampling. *)
Definition select_action (probs : dist) (r : Q) : string :=
  let probs := match probs with [] => [("call"%string, 1)] | _ => probs end in
  sample_loop probs r 0 (argmax probs).

(** *** Applying an action *)

Definition opp (p_idx : Z) : Z := (1 - p_idx)%Z.

Definition to_call_of (st : FastState) (p_idx : Z) : Q :=
  get2 (bets st) (opp p_idx) - get2 (bets st) p_idx.

(** [action == 'fold'] *)
Definition apply_fold (st : FastState) (p_idx : Z) : FastState :=
  mkState (set2 (stacks st) (opp p_idx) (get2 (stacks st) (opp p_idx) + pot st))
          (pot st) (street st) (board st) (hole_cards st) (active_player st)
          (bets st) true true.

(** The refund of the excess to the opponent, then the commitment of
    [actual_call] by the player: the code shared by an all-in call and by
    a raise that cannot cover the call. *)
Definition partial_call (st : FastState) (p_idx : Z) (to_call actual_call : Q)
    : FastState :=
  let excess := to_call - actual_call in
  let bets1 := set2 (bets st) (opp p_idx) (get2 (bets st) (opp p_idx) - excess) in
  let stacks1 := set2 (stacks st) (opp p_idx) (get2 (stacks st) (opp p_idx) + excess) in
  let pot1 := pot st - excess in
  mkState (set2 stacks1 p_idx (get2 stacks1 p_idx - actual_call))
          (pot1 + actual_call) (street st) (board st) (hole_cards st)
          (active_player st)
          (set2 bets1 p_idx (get2 bets1 p_idx + actual_call))
          (folded st) (hand_complete st).

(** The player commits [amount]. *)
Definition commit (st : FastState) (p_idx : Z) (amount : Q) : FastState :=
  mkState (set2 (stacks st) p_idx (get2 (stacks st) p_idx - amount))
          (pot st + amount) (street st) (board st) (hole_cards st)
          (active_player st)
          (set2 (bets st) p_idx (get2 (bets st) p_idx + amount))
          (folded st) (hand_complete st).

(** [action == 'call'] *)
Definition apply_call (st : FastState) (p_idx : Z) : FastState :=
  let to_call := to_call_of st p_idx in
  if Qeq_bool to_call 0 then st
  else if negb (Qle_bool to_call (get2 (stacks st) p_idx))
  then partial_call st p_idx to_call (get2 (stacks st) p_idx)
  else commit st p_idx to_call.

(** [action == 'raise']; the boolean tells whether [last_aggressor] is set. *)
Definition apply_raise (st : FastState) (p_idx : Z) : FastState * bool :=
  let to_call := to_call_of st p_idx in
  let amount0 := to_call + pot st in
  let amount :=
    if negb (Qle_bool amount0 (get2 (stacks st) p_idx))
    then get2 (stacks st) p_idx else amount0 in
  if Qle_bool amount to_call
  then (partial_call st p_idx to_call amount, false)
  else (commit st p_idx amount, true).

Definition set_active (st : FastState) (p : Z) : FastState :=
  mkState (stacks st) (pot st) (street st) (board st) (hole_cards st) p
          (bets st) (folded st) (hand_complete st).

(** *** The betting round *)

(** What a strategy is shown: [InfoSet] and [StateFeatures]. *)
Record observation : Type := {
  obs_hole_cards : list string;
  obs_community_cards : list string;
  obs_position : string;
  obs_pot_size : Q;
  obs_stack_size : Q;
  obs_street : string;
  obs_to_call : Q;
  obs_valid_actions : list string
}.

(** A strategy object: what [get_action] returns at its [n]-th call of the
    hand for an observation.  The call number stands for whatever state or
    randomness the object has of its own. *)
Definition strategy : Type := nat -> observation -> dist.

(** [[int_to_card(c) for c in cards]] *)
Fixpoint strs_of (cards : list Z) : result (list string) :=
  match cards with
  | [] => Ok []
  | c :: rest =>
      do x <- int_to_card c;
      do xs <- strs_of rest;
      Ok (x :: xs)
  end.

Definition observe (st : FastState) (p_idx btn_idx : Z) : result observation :=
  do hole_str <- strs_of (get2 (hole_cards st) p_idx);
  do board_str <- strs_of (board st);
  Ok {| obs_hole_cards := hole_str;
        obs_community_cards := board_str;
        obs_position := if (p_idx =? btn_idx)%Z then "BTN"%string else "BB"%string;
        obs_pot_size := pot st;
        obs_stack_size := get2 (stacks st) p_idx;
        obs_street := if (street st =? 0)%Z then "preflop"%string else "flop"%string;
        obs_to_call := to_call_of st p_idx;
        obs_valid_actions := ["fold"; "call"; "raise"]%string |}.

Section Play.

(** The two strategy objects, and the values [random.random()] returns at
    the successive decisions of the hand. *)
Variable players : strategy * strategy.
Variable rnd : nat -> Q.

(** [_run_street]: [first] is [first_action], [n] counts the decisions of
    the hand so far.  Returns the state and the count. *)
Fixpoint run_street (fuel : nat) (st : FastState) (btn_idx : Z) (first : bool)
    (n : nat) : result (FastState * nat) :=
  match fuel with
  | O => Raise OutOfFuel
  | S fuel' =>
    if negb first && Qeq_bool (fst (bets st)) (snd (bets st)) then Ok (st, n)
    else
      let p_idx := active_player st in
      do obs <- observe st p_idx btn_idx;
      let probs := get2 players p_idx n obs in
      let action := select_action probs (rnd n) in
      if String.eqb action "fold" then Ok (apply_fold st p_idx, S n)
      else
        let st1 :=
          if String.eqb action "call" then apply_call st p_idx
          else if String.eqb action "raise" then fst (apply_raise st p_idx)
          else st in
        let st2 := set_active st1 (opp p_idx) in
        if negb (Qle_bool (pot st2) 400) then Ok (st2, S n)
        else run_street fuel' st2 btn_idx false (S n)
  end.

(** The showdown of [play_hand]. *)
Definition showdown (st : FastState) : result FastState :=
  do score0 <- evaluate_hand (fst (hole_cards st) ++ board st);
  do score1 <- evaluate_hand (snd (hole_cards st) ++ board st);
  let stacks' :=
    if (score1 <? score0)%Z then (fst (stacks st) + pot st, snd (stacks st))
    else if (score0 <? score1)%Z then (fst (stacks st), snd (stacks st) + pot st)
    else (fst (stacks st) + pot st / 2, snd (stacks st) + pot st / 2) in
  Ok (mkState stacks' (pot st) (street st) (board st) (hole_cards st)
              (active_player st) (bets st) (folded st) true).

(** [self.deck[a:b]] *)
Definition slice (deck : list Z) (a b : nat) : list Z := take (b - a) (drop a deck).

(** The end of an iteration of the loop of [play_hand]: the street goes
    up, the wagers are cleared, cards are dealt, the player out of position
    is to act. *)
Definition advance_street (st : FastState) (deck : list Z) (deck_idx : nat)
    (btn_idx : Z) : result (FastState * nat) :=
  let street' := (street st + 1)%Z in
  do dealt <-
    (if (street' =? 1)%Z then Ok (board st ++ slice deck deck_idx (deck_idx + 3), (deck_idx + 3)%nat)
     else if (street' =? 2)%Z then
       do c <- py_get deck (Z.of_nat deck_idx); Ok (board st ++ [c], (deck_idx + 1)%nat)
     else if (street' =? 3)%Z then
       do c <- py_get deck (Z.of_nat deck_idx); Ok (board st ++ [c], (deck_idx + 1)%nat)
     else Ok (board st, deck_idx));
  Ok (mkState (stacks st) (pot st) street' (fst dealt) (hole_cards st)
              (if (btn_idx =? 0)%Z then 1%Z else 0%Z) (0, 0)
              (folded st) (hand_complete st),
      snd dealt).

(** The loop of [play_hand]. *)
Fixpoint hand_loop (fuel : nat) (st : FastState) (deck : list Z) (deck_idx : nat)
    (btn_idx : Z) (n : nat) : result FastState :=
  match fuel with
  | O => Raise OutOfFuel
  | S fuel' =>
    if hand_complete st then Ok st
    else
      do sn <- run_street fuel' st btn_idx true n;
      let st1 := fst sn in
      if hand_complete st1 then Ok st1
      else if (street st1 =? 3)%Z then showdown st1
      else
        do sd <- advance_street st1 deck deck_idx btn_idx;
        hand_loop fuel' (fst sd) deck (snd sd) btn_idx (snd sn)
  end.

End Play.

(** *** Shuffling and dealing *)

(** [x[i], x[j] = x[j], x[i]] *)
Definition swap (x : list Z) (i j : nat) : list Z :=
  match x !! i, x !! j with
  | Some a, Some b => <[j := a]> (<[i := b]> x)
  | _, _ => x
  end.

(** [random.shuffle(x)] after [random.seed(seed)]:
    [for i in reversed(range(1, len(x))): j = randbelow(i + 1); swap].
    [draws] gives the successive values of [randbelow]. *)
Fixpoint shuffle_from (draws : nat -> nat) (k : nat) (i : nat) (x : list Z) : list Z :=
  match i with
  | O => x
  | S i' => shuffle_from draws (S k) i' (swap x i (draws k))
  end.

Definition shuffle (draws : nat -> nat) (x : list Z) : list Z :=
  shuffle_from draws 0 (length x - 1) x.

(** [FastPokerEngine] *)
Record engine : Type := mkEngine {
  state : FastState;
  deck : list Z;
  game_config : GameConfig;
  base_seed : Z
}.

(** [FastPokerEngine.__init__] *)
Definition new_engine (config : GameConfig) : engine :=
  mkEngine (init_state (starting_stack config)) (seqZ 0 52) config 42.

Section PlayHand.

(** The generator: for a seed, the values [randbelow] returns during the
    shuffle that follows [random.seed(seed)]. *)
Variable randbelow : Z -> nat -> nat.

(** [play_hand]: reset, seed, shuffle the engine's deck in place, deal
    the hole cards, run the loop.  The engine is returned with its state
    and deck as the call leaves them. *)
Definition play_hand (fuel : nat) (e : engine) (players : strategy * strategy)
    (rnd : nat -> Q) (hand_id btn_idx : Z) : result engine :=
  let cfg := game_config e in
  let st0 := reset (state e) (small_blind cfg) (big_blind cfg) btn_idx
                   (starting_stack cfg) in
  let deck' := shuffle (randbelow (base_seed e + hand_id)%Z) (deck e) in
  do c0 <- py_get deck' 0%Z;
  do c1 <- py_get deck' 1%Z;
  do c2 <- py_get deck' 2%Z;
  do c3 <- py_get deck' 3%Z;
  let st1 := mkState (stacks st0) (pot st0) (street st0) (board st0)
                     ([c0; c1], [c2; c3]) (active_player st0) (bets st0)
                     (folded st0) (hand_complete st0) in
  do st2 <- hand_loop players rnd fuel st1 deck' 4 btn_idx 0;
  Ok (mkEngine st2 deck' cfg (base_seed e)).

End PlayHand.

End Engine.

(** ** Sampling as the specification words it *)

Module SamplingSpec.
Import Engine.
Local Open Scope Q_scope.

(** The sum of the weights of a dict. *)
Definition total_weight (probs : dist) : Q :=
  fold_right (fun ap acc => snd ap + acc) 0 probs.

(** The weights divided by their sum. *)
Definition normalized (probs : dist) : dist :=
  map (fun ap => (fst ap, snd ap / total_weight probs)) probs.

(** Normalise, then sample; an empty or all-zero dict is a call. *)
Definition spec_select (probs : dist) (r : Q) : string :=
  match probs with
  | [] => "call"%string
  | _ :: _ =>
      if Qeq_bool (total_weight probs) 0 then "call"%string
      else sample_loop (normalized probs) r 0 "call"%string
  end.




(** Example dicts: all weights zero, and weights that do not sum to one. *)
Definition zero_weights : dist :=
  [("fold"%string, 0); ("call"%string, 0); ("raise"%string, 0)].

Definition raw_weights : dist :=
  [("fold"%string, 2); ("call"%string, 2); ("raise"%string, 6)].


End SamplingSpec.


(** ** Chip accounting *)

Module Chips.
Import Engine.
Local Open Scope Q_scope.


(** A player index. *)
Definition player_ok (p : Z) : Prop := p = 0%Z \/ p = 1%Z.




(** A state in which player 0, with 10 chips left, faces a wager of 50. *)
Definition short_stack_state : FastState :=
  mkState (10, 150) 240 0 [] ([], []) 0 (0, 50) false false.

(** Strategies that always answer with one action. *)
Definition always (a : string) : strategy := fun _ _ => [(a, 1)].

(** The effect of an action other than a fold in [_run_street]: a call, a
    raise, or nothing for any other string. *)
Definition act (st : FastState) (p_idx : Z) (action : string) : FastState :=
  if String.eqb action "call" then apply_call st p_idx
  else if String.eqb action "raise" then fst (apply_raise st p_idx)
  else st.



End Chips.


(** ** Dealing *)

Module Dealing.
Import Engine Chips.
Local Open Scope Z_scope.

(** The values [randbelow(i + 1)] returns for i = 51, ..., 1 in
    [random.shuffle] of a list of 52 after [random.seed(42)] and after
    [random.seed(43)], in CPython 3.11. *)
Definition draws_42 : list nat :=
  [40; 7; 1; 47; 17; 15; 14; 8; 6; 34; 5; 37; 27; 2; 1; 5; 13; 14; 32; 1;
   12; 22; 20; 22; 17; 13; 7; 14; 18; 8; 0; 5; 13; 10; 8; 4; 6; 12; 5; 1;
   1; 6; 1; 5; 5; 4; 2; 0; 3; 2; 0]%nat.

Definition draws_43 : list nat :=
  [2; 18; 44; 48; 9; 29; 23; 42; 6; 29; 38; 31; 38; 1; 32; 27; 23; 27; 25;
   11; 3; 27; 3; 26; 3; 12; 4; 3; 5; 16; 15; 4; 12; 16; 8; 5; 12; 1; 0; 9;
   0; 2; 0; 2; 4; 2; 0; 4; 0; 2; 0]%nat.

(** A generator that knows these two seeds. *)
Definition recorded (seed : Z) (k : nat) : nat :=
  if seed =? 42 then default 0%nat (draws_42 !! k)
  else if seed =? 43 then default 0%nat (draws_43 !! k)
  else 0%nat.

(** Two strategies that always call, every random number one half, and a
    newly constructed engine with the default configuration. *)
Definition callers : strategy * strategy := (always "call", always "call").

Definition half : nat -> Q := fun _ => (1 # 2)%Q.

Definition fresh : engine := new_engine default_config.

(** Hand 0 on the new engine; hand 0 again on the engine it leaves; and
    hand 0 again after hand 0 and hand 1. *)
Definition first_deal : result engine :=
  play_hand recorded 16 fresh callers half 0 0.

Definition replay : result engine :=
  do e <- first_deal;
  play_hand recorded 16 e callers half 0 0.

Definition replay_after_one : result engine :=
  do e <- first_deal;
  do e' <- play_hand recorded 16 e callers half 1 1;
  play_hand recorded 16 e' callers half 0 0.

(** A step keeps the cards a state holds. *)
Definition cards_kept (st st' : FastState) : Prop :=
  board st' = board st /\ hole_cards st' = hole_cards st.

(** The cards of a finished hand: both hole cards and the board. *)
Definition deal_of (e : engine) : (list Z * list Z) * list Z :=
  (hole_cards (state e), board (state e)).

Definition deal_of_run (r : result engine) : option ((list Z * list Z) * list Z) :=
  match r with Ok e => Some (deal_of e) | Raise _ => None end.

Definition first_deal_result : engine :=
  Eval vm_compute in
    match first_deal with Ok e => e | Raise _ => fresh end.

Definition replay_result : engine :=
  Eval vm_compute in
    match replay with Ok e => e | Raise _ => fresh end.

(** A second new engine, on which the button folds hand 0 at once. *)
Definition folded_deal : result engine :=
  play_hand recorded 16 fresh (always "fold", always "fold") half 0 1.

Definition folded_deal_result : engine :=
  Eval vm_compute in
    match folded_deal with Ok e => e | Raise _ => fresh end.

End Dealing.


(** ** The equity estimator, [strategies/equity_calculator.py] *)

Module Equity.
Import Codec Evaluator.
Local Open Scope Z_scope.

Definition ranks : list ascii :=
  ["2"; "3"; "4"; "5"; "6"; "7"; "8"; "9"; "T"; "J"; "Q"; "K"; "A"]%char.

(** [ranks.index(c)]: [ValueError] when [c] does not occur. *)
Fixpoint index_from (l : list ascii) (c : ascii) (i : Z) : result Z :=
  match l with
  | [] => Raise ValueError
  | x :: rest => if Ascii.eqb c x then Ok i else index_from rest c (i + 1)
  end.

(** [card_str_to_int] *)
Definition card_str_to_int (card_str : string) : result Z :=
  do r_char <- str_get card_str 0;
  do s_char <- str_get card_str 1;
  do rank <- index_from ranks r_char 0;
  do suit <-
    (if Ascii.eqb s_char "s" then Ok 0
     else if Ascii.eqb s_char "h" then Ok 1
     else if Ascii.eqb s_char "d" then Ok 2
     else if Ascii.eqb s_char "c" then Ok 3
     else Raise ValueError);
  Ok (suit * 13 + rank).

(** A list of cards as a caller passes it: integers or strings. *)
Inductive pycards : Type :=
  | IntCards (l : list Z)
  | StrCards (l : list string).

(** [[card_str_to_int(c) for c in cards]] *)
Fixpoint ints_of_strs (cards : list string) : result (list Z) :=
  match cards with
  | [] => Ok []
  | c :: rest =>
      do x <- card_str_to_int c;
      do xs <- ints_of_strs rest;
      Ok (x :: xs)
  end.

(** The conversion at the head of [calculate_equity]. *)
Definition as_ints (cards : pycards) : result (list Z) :=
  match cards with
  | IntCards l => Ok l
  | StrCards l => ints_of_strs l
  end.

(** [self.full_deck] *)
Definition full_deck : list Z := seqZ 0 52.

(** [[c for c in self.full_deck if c not in visible]] with
    [visible = set(hole_cards + board)]. *)
Definition available (hole_cards board : list Z) : list Z :=
  filter (fun c => c ∉ hole_cards ++ board) full_deck.

(** The elements of the population at the chosen positions, in the order
    chosen. *)
Fixpoint pick (population : list Z) (positions : list nat) : result (list Z) :=
  match positions with
  | [] => Ok []
  | i :: rest =>
      match population !! i with
      | Some c => do cs <- pick population rest; Ok (c :: cs)
      | None => Raise IndexError
      end
  end.

(** [random.sample(population, k)]: [ValueError] when [k] is negative or
    larger than the population; otherwise the elements at [k] distinct
    positions, which the generator chooses. *)
Definition random_sample (population : list Z) (k : Z) (positions : list nat)
    : result (list Z) :=
  if (k <? 0) || (Z.of_nat (length population) <? k) then Raise ValueError
  else pick population positions.

(** What the generator may choose for a sample of [k] out of [n]. *)
Definition valid_choice (n : nat) (k : Z) (positions : list nat) : Prop :=
  Z.of_nat (length positions) = k /\ NoDup positions /\
  Forall (fun i => (i < n)%nat) positions.

Section Estimate.

(** The positions the generator chooses at each iteration. *)
Variable choices : nat -> list nat.

Variables hole_cards board : list Z.

(** The two scores of iteration [t]. *)
Definition scores (t : nat) : result (Z * Z) :=
  let sample_size := 2 + (5 - Z.of_nat (length board)) in
  do drawn <- random_sample (available hole_cards board) sample_size (choices t);
  let opp_cards := take 2 drawn in
  let runout := drop 2 drawn in
  let full_board := board ++ runout in
  do my_score <- evaluate_hand (hole_cards ++ full_board);
  do opp_score <- evaluate_hand (opp_cards ++ full_board);
  Ok (my_score, opp_score).

(** The loop [for _ in range(iterations)], from iteration [t] on, [n]
    iterations to go. *)
Fixpoint trials (t n : nat) (wins splits : Z) : result (Z * Z) :=
  match n with
  | O => Ok (wins, splits)
  | S n' =>
      do s <- scores t;
      if snd s <? fst s then trials (S t) n' (wins + 1) splits
      else if fst s =? snd s then trials (S t) n' wins (splits + 1)
      else trials (S t) n' wins splits
  end.

(** The number of iterations among [t], ..., [t + n - 1] whose scores
    satisfy [p]. *)
Definition tally (p : Z -> Z -> bool) (t n : nat) : Z :=
  Z.of_nat (length (List.filter (fun t => match scores t with
                                          | Ok s => p (fst s) (snd s)
                                          | Raise _ => false
                                          end) (seq t n))).

End Estimate.

(** An iteration is won when the hero's score is the greater, split when
    the scores are equal. *)
Definition is_win (my_score opp_score : Z) : bool := opp_score <? my_score.

Definition is_split (my_score opp_score : Z) : bool := my_score =? opp_score.

(** [(wins + splits / 2.0) / iterations] *)
Definition equity_of (wins splits iterations : Z) : Q :=
  ((inject_Z wins + inject_Z splits / 2) / inject_Z iterations)%Q.

(** [calculate_equity] *)
Definition calculate_equity (choices : nat -> list nat)
    (hole_cards board : pycards) (iterations : Z) : result Q :=
  do hole_cards <- as_ints hole_cards;
  do board <- as_ints board;
  do ws <- trials choices hole_cards board 0 (Z.to_nat iterations) 0 0;
  if iterations =? 0 then Raise ZeroDivisionError
  else Ok (equity_of (fst ws) (snd ws) iterations).

(** Two aces against a random hand before the flop, two iterations. *)
Definition aces : pycards := StrCards ["As"; "Ah"]%string.

Definition two_choices (t : nat) : list nat :=
  match t with
  | O => [0; 1; 2; 3; 4; 5; 6]%nat
  | _ => [49; 40; 30; 20; 10; 5; 0]%nat
  end.

End Equity.


(** ** Card strings and card ids *)

Module CodecChecks.
Import Codec.
Local Open Scope Z_scope.

(** The first two characters of a string. *)
Definition two_chars (s : string) : string :=
  match s with
  | String a (String b _) => String a (String b EmptyString)
  | _ => s
  end.

(** [card_to_int(int_to_card(c))] is [c] modulo 52. *)
Definition round_trip_ok (c : Z) : bool :=
  match int_to_card c with
  | Ok s => match card_to_int s with
            | Ok c' => c' =? c mod 52
            | Raise _ => false
            end
  | Raise _ => false
  end.

End CodecChecks.


(** ** The lookup tables, [strategies/gtob_table.py] and [strategies/RMBALL.py] *)

Module Tables.
Import Engine.
Local Open Scope Z_scope.

Definition bytes : Type := list Byte.byte.

(** An unsigned byte, and little-endian unsigned integers of two and four
    bytes: the codes [B], [H] and [I] of [struct] with [<]. *)
Definition u8 (b : Byte.byte) : Z := Z.of_N (Byte.to_N b).

Definition u16 (b0 b1 : Byte.byte) : Z := u8 b0 + 256 * u8 b1.

Definition u32 (b0 b1 b2 b3 : Byte.byte) : Z :=
  u8 b0 + 256 * u8 b1 + 65536 * u8 b2 + 16777216 * u8 b3.

(** [b"GTOB"] *)
Definition GTOB : bytes := [Byte.x47; Byte.x54; Byte.x4f; Byte.x42].

Fixpoint bytes_eqb (a b : bytes) : bool :=
  match a, b with
  | [], [] => true
  | x :: a', y :: b' => Byte.eqb x y && bytes_eqb a' b'
  | _, _ => false
  end.

(** [f.read(n)]: the bytes read, at most [n], and the rest of the file. *)
Definition read (n : nat) (f : bytes) : bytes * bytes := (take n f, drop n f).

(** A file: its content, or [None] when there is no file at the path. *)
Definition file : Type := option bytes.

(** A table: hand ids to weights of the three actions. *)
Definition table : Type := gmap Z dist.

(** [{"fold": f, "call": c, "raise": r}] *)
Definition weights (f c r : Q) : dist :=
  [("fold"%string, f); ("call"%string, c); ("raise"%string, r)].

(** *** [GTOBTable] *)

(** [struct.unpack("<4sHIH", data)] *)
Definition unpack_4sHIH (data : bytes) : result (bytes * Z * Z * Z) :=
  match data with
  | [m0; m1; m2; m3; v0; v1; c0; c1; c2; c3; r0; r1] =>
      Ok ([m0; m1; m2; m3], u16 v0 v1, u32 c0 c1 c2 c3, u16 r0 r1)
  | _ => Raise StructError
  end.

(** [struct.unpack("<HBBB", data)] *)
Definition unpack_HBBB (data : bytes) : result (Z * Z * Z * Z) :=
  match data with
  | [h0; h1; qf; qc; qr] => Ok (u16 h0 h1, u8 qf, u8 qc, u8 qr)
  | _ => Raise StructError
  end.

(** The loop of [GTOBTable._load], [n] iterations to go. *)
Fixpoint gtob_records (n : nat) (f : bytes) (lut : table) : result table :=
  match n with
  | O => Ok lut
  | S n' =>
      let data := fst (read 5 f) in
      let f' := snd (read 5 f) in
      if (length data <? 5)%nat then Ok lut
      else
        do r <- unpack_HBBB data;
        let '(hid, qf, qc, qr) := r in
        let total := qf + qc + qr in
        if total =? 0 then gtob_records n' f' lut
        else gtob_records n' f'
               (<[hid := weights (inject_Z qf / 255) (inject_Z qc / 255)
                                 (inject_Z qr / 255)]> lut)
  end.

(** [GTOBTable.__init__] with [_load]: the table, or the exception that
    leaves the constructor. *)
Definition GTOBTable_load (path : file) : result table :=
  match path with
  | None => Raise FileNotFoundError
  | Some f =>
      let data := fst (read 12 f) in
      let f' := snd (read 12 f) in
      do h <- unpack_4sHIH data;
      let '(magic, version, count, _) := h in
      if negb (bytes_eqb magic GTOB) then Raise AssertionError
      else gtob_records (Z.to_nat count) f' ∅
  end.

(** [GTOBTable.get], [__contains__] and [__len__] *)
Definition GTOBTable_get (lut : table) (hid : Z) (default : option dist)
    : option dist :=
  match lut !! hid with
  | Some d => Some d
  | None => default
  end.

Definition GTOBTable_contains (lut : table) (hid : Z) : bool :=
  bool_decide (is_Some (lut !! hid)).

Definition GTOBTable_len (lut : table) : nat := size lut.

(** *** [RobustMashupStrategy._load_gtob_preflop_v1] *)

(** [struct.unpack("<H", data)[0]] *)
Definition unpack_H (data : bytes) : result Z :=
  match data with
  | [a; b] => Ok (u16 a b)
  | _ => Raise StructError
  end.

(** [struct.unpack("<HHHH", data)] *)
Definition unpack_HHHH (data : bytes) : result (Z * Z * Z * Z) :=
  match data with
  | [a0; a1; b0; b1; c0; c1; d0; d1] =>
      Ok (u16 a0 a1, u16 b0 b1, u16 c0 c1, u16 d0 d1)
  | _ => Raise StructError
  end.

(** The loop of the loader, [n] iterations to go. *)
Fixpoint preflop_records (n : nat) (f : bytes) (lut : table) : result table :=
  match n with
  | O => Ok lut
  | S n' =>
      let data := fst (read 8 f) in
      let f' := snd (read 8 f) in
      do r <- unpack_HHHH data;
      let '(hid, pf, pc, pr) := r in
      let total := pf + pc + pr in
      if 0 <? total
      then preflop_records n' f'
             (<[hid := weights (inject_Z pf / inject_Z total)
                               (inject_Z pc / inject_Z total)
                               (inject_Z pr / inject_Z total)]> lut)
      else preflop_records n' f' (<[hid := weights 1 0 0]> lut)
  end.

(** The body of the [try]. *)
Definition preflop_try (path : file) : result table :=
  match path with
  | None => Raise FileNotFoundError
  | Some f =>
      let magic := fst (read 4 f) in
      let f1 := snd (read 4 f) in
      if negb (bytes_eqb magic GTOB) then Ok ∅
      else
        do _version <- unpack_H (fst (read 2 f1));
        let f2 := snd (read 2 f1) in
        let _type := fst (read 1 f2) in
        let f3 := snd (read 1 f2) in
        do count <- unpack_H (fst (read 2 f3));
        let f4 := snd (read 2 f3) in
        preflop_records (Z.to_nat count) f4 ∅
  end.

(** [_load_gtob_preflop_v1]: [except Exception: return {}]. *)
Definition load_gtob_preflop_v1 (path : file) : table :=
  match preflop_try path with
  | Ok lut => lut
  | Raise _ => ∅
  end.

End Tables.


(** ** What a table file holds *)

Module TableSpec.
Import Engine Tables.
Local Open Scope Z_scope.

(** The complete five-byte and eight-byte records of a byte string; an
    incomplete last one is left out. *)
Fixpoint chunks5 (f : bytes) : list bytes :=
  match f with
  | a :: b :: c :: d :: e :: rest => [a; b; c; d; e] :: chunks5 rest
  | _ => []
  end.


(** A record: a hand id and three counts. *)
Definition row : Type := Z * Z * Z * Z.

Definition row_id (r : row) : Z := fst (fst (fst r)).

Definition row_total (r : row) : Z := snd (fst (fst r)) + snd (fst r) + snd r.

Definition gtob_row (data : bytes) : row :=
  match data with
  | [h0; h1; qf; qc; qr] => (u16 h0 h1, u8 qf, u8 qc, u8 qr)
  | _ => (0, 0, 0, 0)
  end.


(** The count field of the two headers: four bytes at offset 6, and two
    bytes at offset 7. *)
Definition gtob_count (f : bytes) : Z :=
  match drop 6 f with
  | c0 :: c1 :: c2 :: c3 :: _ => u32 c0 c1 c2 c3
  | _ => 0
  end.

Definition preflop_count (f : bytes) : Z :=
  match drop 7 f with
  | c0 :: c1 :: _ => u16 c0 c1
  | _ => 0
  end.

(** The records [GTOBTable._load] gets to see, and those of the other
    loader. *)
Definition gtob_rows (f : bytes) : list row :=
  take (Z.to_nat (gtob_count f)) (map gtob_row (chunks5 (drop 12 f))).


(** The weights a record of each format stands for. *)
Definition gtob_weights (r : row) : dist :=
  let '(_, qf, qc, qr) := r in
  weights (inject_Z qf / 255) (inject_Z qc / 255) (inject_Z qr / 255).


(** The last record of a list that satisfies [p]. *)
Definition last_with (p : row -> bool) (rows : list row) : option row :=
  head (List.filter p (rev rows)).

(** A dict of three weights that are probabilities. *)
Definition weights_sum (d : dist) : Q :=
  fold_right (fun ap acc => (snd ap + acc)%Q) 0%Q d.

Definition in_unit (d : dist) : Prop :=
  Forall (fun ap => (0 <= snd ap /\ snd ap <= 1)%Q) d.

(** Example files: a header and two records, the second cut short, in the
    format of [GTOBTable]; and a header and one record in the format of the
    other loader. *)
Definition gtob_example : bytes :=
  GTOB ++ [Byte.x01; Byte.x00; Byte.x02; Byte.x00; Byte.x00; Byte.x00;
           Byte.x00; Byte.x00]
       ++ [Byte.x07; Byte.x00; Byte.x33; Byte.x66; Byte.x66]
       ++ [Byte.x08; Byte.x00; Byte.xff].


(** The table after one more record, in each format, and the table of a
    list of records. *)
Definition gtob_step (lut : table) (r : row) : table :=
  if row_total r =? 0 then lut else <[row_id r := gtob_weights r]> lut.


Definition gtob_table (rows : list row) : table := fold_left gtob_step rows ∅.



Definition kept_with_id (hid : Z) (r : row) : bool :=
  (row_id r =? hid) && negb (row_total r =? 0).

End TableSpec.


(** ** Sound states *)

Module Bounds.
Import Engine Chips.
Local Open Scope Q_scope.



(** The action selected is none of the three the engine knows. *)
Definition unknown (a : string) : Prop :=
  a <> "fold"%string /\ a <> "call"%string /\ a <> "raise"%string.

End Bounds.


(* ===================================================================== *)
(** * Properties *)
(* ===================================================================== *)

(** ** Lists: permutations, sub-lists, folds *)

Lemma map_fmap {A B} (f : A -> B) (l : list A) : map f l = f <$> l.
Proof. reflexivity. Qed.

Section ListFacts.
Context {A : Type}.

Lemma existsb_Permutation (p : A -> bool) (l l' : list A) :
  l ≡ₚ l' -> existsb p l = existsb p l'.
Proof.
  induction 1 as [|x l l' _ IH|x y l|l l' l'' _ IH1 _ IH2]; simpl.
  - reflexivity.
  - now rewrite IH.
  - destruct (p x), (p y); reflexivity.
  - congruence.
Qed.

Lemma forallb_Permutation (p : A -> bool) (l l' : list A) :
  l ≡ₚ l' -> forallb p l = forallb p l'.
Proof.
  induction 1 as [|x l l' _ IH|x y l|l l' l'' _ IH1 _ IH2]; simpl.
  - reflexivity.
  - now rewrite IH.
  - destruct (p x), (p y); reflexivity.
  - congruence.
Qed.

Lemma existsb_elem_of (p : A -> bool) (l : list A) :
  existsb p l = true <-> exists x, x ∈ l /\ p x = true.
Proof.
  rewrite existsb_exists. split; intros (x & H1 & H2); exists x; split; auto;
    now apply list_elem_of_In.
Qed.

Lemma forallb_elem_of (p : A -> bool) (l : list A) :
  forallb p l = true <-> forall x, x ∈ l -> p x = true.
Proof.
  rewrite forallb_forall. split; intros H x Hx; apply H;
    now apply list_elem_of_In.
Qed.

Lemma forallb_pointwise (p q : A -> bool) (l : list A) :
  (forall x, p x = q x) -> forallb p l = forallb q l.
Proof.
  intros H. induction l as [|x l IH]; simpl; [reflexivity|].
  now rewrite H, IH.
Qed.

Lemma existsb_pointwise (p q : A -> bool) (l : list A) :
  (forall x, p x = q x) -> existsb p l = existsb q l.
Proof.
  intros H. induction l as [|x l IH]; simpl; [reflexivity|].
  now rewrite H, IH.
Qed.

(** A left fold whose steps commute does not depend on the order. *)
Lemma fold_left_Permutation {B} (f : B -> A -> B) (l l' : list A) :
  (forall b x y, f (f b x) y = f (f b y) x) ->
  l ≡ₚ l' -> forall b, fold_left f l b = fold_left f l' b.
Proof.
  intros Hc. induction 1 as [|x l l' _ IH|x y l|l l' l'' _ IH1 _ IH2];
    intros b; simpl.
  - reflexivity.
  - apply IH.
  - now rewrite Hc.
  - now rewrite IH1.
Qed.
End ListFacts.

Module ChooseFacts.
Import Poker.

Lemma elem_of_choose {A} (k : nat) (l s : list A) :
  s ∈ choose k l <-> s `sublist_of` l /\ length s = k.
Proof.
  revert k s. induction l as [|x l IH]; intros k s.
  - destruct k; simpl.
    + rewrite list_elem_of_singleton. split.
      * intros ->. split; [constructor | reflexivity].
      * intros [_ H]. now destruct s.
    + split; [intros H; inversion H|].
      intros [H1 H2]. apply sublist_nil_r in H1. subst. discriminate.
  - destruct k; simpl.
    + rewrite list_elem_of_singleton. split.
      * intros ->. split; [apply sublist_nil_l | reflexivity].
      * intros [_ H]. now destruct s.
    + rewrite elem_of_app, map_fmap, list_elem_of_fmap. split.
      * intros [(t & -> & Ht) | Hs].
        -- apply IH in Ht as [Ht1 Ht2]. split; [now constructor | simpl; lia].
        -- apply IH in Hs as [Hs1 Hs2]. split; [now constructor | assumption].
      * intros [H1 H2]. inversion H1 as [|y s1 l1 Hs1|y s1 l1 Hs1]; subst.
        -- left. exists s1. split; [reflexivity|]. apply IH. simpl in H2.
           split; [assumption | lia].
        -- right. apply IH. split; assumption.
Qed.

Lemma choose_map {A B} (f : A -> B) (k : nat) (l : list A) :
  choose k (map f l) = map (map f) (choose k l).
Proof.
  revert k. induction l as [|x l IH]; intros [|k]; simpl; try reflexivity.
  rewrite List.map_app, IH, IH, !List.map_map. reflexivity.
Qed.

(** Sub-lists of a permuted list are the sub-lists of the list, permuted. *)
Lemma choose_Permutation {A} (k : nat) (l l' s : list A) :
  l ≡ₚ l' -> s ∈ choose k l -> exists s', s' ∈ choose k l' /\ s ≡ₚ s'.
Proof.
  intros Hp Hs. apply elem_of_choose in Hs as [Hs1 Hs2].
  destruct (sublist_Permutation _ _ _ Hs1 Hp) as (s' & Hss' & Hsub).
  exists s'. split; [|assumption].
  apply elem_of_choose. split; [assumption|]. now rewrite <- Hss'.
Qed.

End ChooseFacts.

(** ** The order on hand values *)

Module OrderFacts.
Import Poker.

Lemma lex_ltb_irrefl a : lex_ltb a a = false.
Proof.
  induction a as [|x a IH]; simpl; [reflexivity|].
  rewrite Z.ltb_irrefl, Z.eqb_refl, IH. reflexivity.
Qed.

Lemma lex_ltb_asym a b : lex_ltb a b = true -> lex_ltb b a = false.
Proof.
  revert b. induction a as [|x a IH]; intros [|y b]; simpl; try congruence.
  destruct (Z.ltb_spec x y), (Z.ltb_spec y x), (Z.eqb_spec x y),
    (Z.eqb_spec y x); simpl; try lia; try congruence. apply IH.
Qed.

Lemma lex_ltb_connex a b : lex_ltb a b = false -> lex_ltb b a = false -> a = b.
Proof.
  revert b. induction a as [|x a IH]; intros [|y b]; simpl; try congruence.
  destruct (Z.ltb_spec x y), (Z.ltb_spec y x), (Z.eqb_spec x y),
    (Z.eqb_spec y x); simpl; try lia; try congruence.
  intros H1 H2. subst. f_equal. now apply IH.
Qed.

Lemma lex_ltb_trans a b c :
  lex_ltb a b = true -> lex_ltb b c = true -> lex_ltb a c = true.
Proof.
  revert b c. induction a as [|x a IH]; intros [|y b] [|z c]; simpl;
    try congruence.
  destruct (Z.ltb_spec x y), (Z.ltb_spec y z), (Z.ltb_spec x z),
    (Z.eqb_spec x y), (Z.eqb_spec y z), (Z.eqb_spec x z);
    simpl; try lia; try congruence. apply IH.
Qed.

Definition key (v : value) : list Z := fst v :: snd v.

Lemma value_ltb_key v w : value_ltb v w = lex_ltb (key v) (key w).
Proof. reflexivity. Qed.

Lemma key_inj v w : key v = key w -> v = w.
Proof. destruct v, w. unfold key. simpl. congruence. Qed.

(** [vle v w]: [v] is at most [w]. *)
Definition vle (v w : value) : Prop := value_ltb w v = false.

Lemma vle_refl v : vle v v.
Proof. unfold vle. rewrite value_ltb_key. apply lex_ltb_irrefl. Qed.

Lemma vle_antisym v w : vle v w -> vle w v -> v = w.
Proof.
  unfold vle. rewrite !value_ltb_key. intros H1 H2.
  apply key_inj. now apply lex_ltb_connex.
Qed.

Lemma vle_total v w : vle v w \/ vle w v.
Proof.
  unfold vle. rewrite !value_ltb_key.
  destruct (lex_ltb (key w) (key v)) eqn:E; [right | now left].
  now apply lex_ltb_asym.
Qed.

Lemma vle_trans u v w : vle u v -> vle v w -> vle u w.
Proof.
  unfold vle. rewrite !value_ltb_key. intros H1 H2.
  destruct (lex_ltb (key w) (key u)) eqn:E; [|reflexivity].
  destruct (lex_ltb (key u) (key v)) eqn:E1.
  - rewrite (lex_ltb_trans _ _ _ E E1) in H2. discriminate.
  - assert (key u = key v) by now apply lex_ltb_connex.
    congruence.
Qed.

Lemma vmax_cases v w : (vmax v w = v /\ vle w v) \/ (vmax v w = w /\ vle v w).
Proof.
  unfold vmax, vle. destruct (value_ltb v w) eqn:E.
  - right. split; [reflexivity|]. rewrite value_ltb_key in *.
    now apply lex_ltb_asym.
  - now left.
Qed.

Lemma best_elem vs : best vs ∈ (0, []) :: vs.
Proof.
  induction vs as [|v vs IH]; simpl.
  - now left.
  - destruct (vmax_cases v (best vs)) as [[-> _]|[-> _]].
    + right. now left.
    + inversion IH; subst; [now left | right; now right].
Qed.

Lemma best_ub vs v : v ∈ (0, []) :: vs -> vle v (best vs).
Proof.
  induction vs as [|w vs IH]; simpl; intros Hv.
  - inversion Hv as [|? ? ? H]; subst; [apply vle_refl | inversion H].
  - assert (Hc : v = w \/ v ∈ (0, []) :: vs).
    { inversion Hv as [|? ? ? H]; subst; [right; now left|].
      inversion H; subst; [now left | right; now right]. }
    destruct (vmax_cases w (best vs)) as [[-> Hle]|[-> Hle]];
      destruct Hc as [->|Hc].
    + apply vle_refl.
    + eapply vle_trans; [now apply IH | assumption].
    + assumption.
    + now apply IH.
Qed.

(** The best value only depends on which values are there. *)
Lemma best_same_elems vs vs' :
  (forall v, v ∈ vs -> v ∈ vs') -> (forall v, v ∈ vs' -> v ∈ vs) ->
  best vs = best vs'.
Proof.
  intros H1 H2.
  assert (Hin : forall a b : list value,
             (forall v, v ∈ a -> v ∈ b) -> vle (best a) (best b)).
  { intros a b Hab. apply best_ub.
    pose proof (best_elem a) as He.
    inversion He; subst; [now left | right; now apply Hab]. }
  apply vle_antisym; now apply Hin.
Qed.

End OrderFacts.

(** ** Descending sorts and the enumeration of descending lists *)

Module SortFacts.
Import Evaluator Poker Canon.

#[global] Instance desc_trans : Transitive desc.
Proof. unfold desc. intros x y z. lia. Qed.

#[global] Instance desc_total : Total desc.
Proof. unfold desc. intros x y. lia. Qed.

#[global] Instance desc_antisym : AntiSymm (=) desc.
Proof. unfold desc. intros x y. lia. Qed.

Lemma sort_desc_sorted l : StronglySorted desc (sort_desc l).
Proof. apply StronglySorted_merge_sort; apply _. Qed.

Lemma sort_desc_perm l : sort_desc l ≡ₚ l.
Proof. apply merge_sort_Permutation. Qed.

Lemma sort_desc_Permutation l l' : l ≡ₚ l' -> sort_desc l = sort_desc l'.
Proof.
  intros H. apply (StronglySorted_unique desc); try apply sort_desc_sorted.
  now rewrite !sort_desc_perm.
Qed.

Lemma sort_desc_id l : StronglySorted desc l -> sort_desc l = l.
Proof.
  intros H. apply (StronglySorted_unique desc);
    [apply sort_desc_sorted | assumption | apply sort_desc_perm].
Qed.

Lemma sort_desc_length l : length (sort_desc l) = length l.
Proof. now rewrite sort_desc_perm. Qed.

Lemma elem_of_zrange lo n x : x ∈ zrange lo n <-> lo <= x < lo + Z.of_nat n.
Proof.
  revert lo. induction n as [|n IH]; intros lo; simpl.
  - split; [intros H; inversion H | lia].
  - rewrite elem_of_cons, IH. lia.
Qed.

Lemma all_lists_spec strict n :
  forall hi f, all_lists strict n hi f = true ->
  forall l, length l = n -> dsc strict hi l -> f l = true.
Proof.
  induction n as [|n IH]; intros hi f H l Hl Hd.
  - destruct l; [exact H | discriminate].
  - destruct l as [|x l]; [discriminate|].
    simpl in H, Hd. destruct Hd as [Hx Hd].
    rewrite forallb_elem_of in H.
    assert (Hin : x ∈ zrange 0 (Z.to_nat (hi + 1))).
    { apply elem_of_zrange. lia. }
    specialize (H x Hin). simpl in H.
    apply (IH _ _ H l); [simpl in Hl; lia | assumption].
Qed.

Lemma dsc_of_sorted l :
  forall hi, StronglySorted desc l -> Forall (fun x => 0 <= x <= hi) l ->
  dsc false hi l.
Proof.
  induction l as [|x l IH]; intros hi Hs Hb; simpl; [exact I|].
  apply StronglySorted_inv in Hs as [Hs Hx].
  apply Forall_cons in Hb as [Hb1 Hb2]. split; [assumption|].
  apply IH; [assumption|].
  rewrite Forall_forall in *. intros y Hy.
  specialize (Hx y Hy). specialize (Hb2 y Hy). unfold desc in Hx. lia.
Qed.

Lemma dsc_strict_of_sorted l :
  forall hi, StronglySorted desc l -> NoDup l ->
  Forall (fun x => 0 <= x <= hi) l -> dsc true hi l.
Proof.
  induction l as [|x l IH]; intros hi Hs Hn Hb; simpl; [exact I|].
  apply StronglySorted_inv in Hs as [Hs Hx].
  apply NoDup_cons in Hn as [Hn1 Hn2].
  apply Forall_cons in Hb as [Hb1 Hb2]. split; [assumption|].
  apply IH; [assumption..|].
  rewrite Forall_forall in *. intros y Hy.
  specialize (Hx y Hy). specialize (Hb2 y Hy). unfold desc in Hx.
  assert (y <> x) by (intros ->; contradiction). lia.
Qed.

End SortFacts.

(** ** The standard value does not depend on the order of the cards *)

Module ValueFacts.
Import Evaluator Poker Canon ChooseFacts OrderFacts SortFacts.

Lemma mult_Permutation r l l' : l ≡ₚ l' -> mult r l = mult r l'.
Proof. intros H. unfold mult. now rewrite H. Qed.

Lemma with_mult_Permutation k l l' : l ≡ₚ l' -> with_mult k l = with_mult k l'.
Proof.
  intros H. unfold with_mult. apply list_filter_iff. intros r.
  now rewrite (mult_Permutation r l l' H).
Qed.

Lemma value5_Permutation l l' flush :
  l ≡ₚ l' -> value5 l flush = value5 l' flush.
Proof.
  intros H. unfold value5.
  rewrite (sort_desc_Permutation l l' H).
  rewrite !(with_mult_Permutation _ l l' H). reflexivity.
Qed.

Lemma avalue5_Permutation s s' : s ≡ₚ s' -> avalue5 s = avalue5 s'.
Proof.
  intros H. unfold avalue5.
  rewrite (forallb_Permutation snd s s' H).
  apply value5_Permutation. rewrite !map_fmap. now rewrite H.
Qed.

Lemma best_abs_Permutation la la' : la ≡ₚ la' -> best_abs la = best_abs la'.
Proof.
  intros H. unfold best_abs.
  assert (Hin : forall a b : list acard, a ≡ₚ b ->
            forall v, v ∈ map avalue5 (choose 5 a) -> v ∈ map avalue5 (choose 5 b)).
  { intros a b Hab v. rewrite !map_fmap, !list_elem_of_fmap.
    intros (s & -> & Hs).
    destruct (choose_Permutation 5 a b s Hab Hs) as (s' & Hs' & Hss').
    exists s'. split; [now apply avalue5_Permutation | assumption]. }
  apply best_same_elems; apply Hin; [assumption | now symmetry].
Qed.

(** On five ranks in descending order [fast5] is [value5]. *)
Lemma all_fives_fast : all_lists false 5 12 check_fast = true.
Proof. vm_cast_no_check (eq_refl true). Qed.

Lemma fast5_value5 s flush :
  length s = 5%nat -> StronglySorted desc s ->
  Forall (fun x => 0 <= x <= 12) s -> fast5 s flush = value5 s flush.
Proof.
  intros Hl Hs Hb.
  pose proof (all_lists_spec false 5 12 check_fast all_fives_fast s Hl
                (dsc_of_sorted s 12 Hs Hb)) as H.
  unfold check_fast in H. apply andb_prop in H as [H1 H2].
  apply bool_decide_eq_true in H1, H2. now destruct flush.
Qed.

End ValueFacts.

(** ** The evaluator does not depend on the order of the cards *)

Module EvalFacts.
Import Evaluator Poker Canon ChooseFacts OrderFacts SortFacts ValueFacts.

Lemma rank_mask_Permutation l l' : l ≡ₚ l' -> rank_mask l = rank_mask l'.
Proof.
  intros H. unfold rank_mask. apply fold_left_Permutation; [|assumption].
  intros b x y. rewrite <- !Z.lor_assoc. f_equal. apply Z.lor_comm.
Qed.

(** One increment of a cell, total: out of range it leaves the list. *)
Definition bump (cs : list Z) (r : Z) : list Z :=
  match cs !! Z.to_nat r with
  | Some x => <[Z.to_nat r := x + 1]> cs
  | None => cs
  end.

Lemma bump_length cs r : length (bump cs r) = length cs.
Proof. unfold bump. destruct (cs !! _); [apply length_insert | reflexivity]. Qed.

Lemma bump_comm cs x y : bump (bump cs x) y = bump (bump cs y) x.
Proof.
  unfold bump. destruct (decide (Z.to_nat x = Z.to_nat y)) as [E|E].
  - rewrite E. reflexivity.
  - destruct (cs !! Z.to_nat x) as [a|] eqn:Ex;
      destruct (cs !! Z.to_nat y) as [b|] eqn:Ey;
      rewrite ?list_lookup_insert_ne, ?Ex, ?Ey by congruence;
      try reflexivity.
    now apply list_insert_insert_ne.
Qed.

Lemma py_index_in_range {A} (l : list A) i :
  0 <= i < Z.of_nat (length l) -> py_index l i = Ok (Z.to_nat i).
Proof.
  intros H. unfold py_index.
  destruct (Z.leb_spec 0 i), (Z.ltb_spec i (Z.of_nat (length l)));
    simpl; try lia; reflexivity.
Qed.

Lemma py_incr_in_range cs r :
  0 <= r < Z.of_nat (length cs) ->
  exists x, cs !! Z.to_nat r = Some x /\ py_incr cs r = Ok (bump cs r, x + 1).
Proof.
  intros H. unfold py_incr, bump. rewrite py_index_in_range by assumption.
  simpl. destruct (cs !! Z.to_nat r) as [x|] eqn:E.
  - exists x. split; reflexivity.
  - apply lookup_ge_None in E. lia.
Qed.

Lemma py_get_in_range {A} (l : list A) i :
  0 <= i < Z.of_nat (length l) ->
  exists x, l !! Z.to_nat i = Some x /\ py_get l i = Ok x.
Proof.
  intros H. unfold py_get. rewrite py_index_in_range by assumption.
  simpl. destruct (l !! Z.to_nat i) as [x|] eqn:E.
  - exists x. split; reflexivity.
  - apply lookup_ge_None in E. lia.
Qed.

Lemma count_ranks_fold ranks :
  forall cs, Forall (fun r => 0 <= r < Z.of_nat (length cs)) ranks ->
  count_ranks ranks cs = Ok (fold_left bump ranks cs).
Proof.
  induction ranks as [|r ranks IH]; intros cs Hb; simpl; [reflexivity|].
  apply Forall_cons in Hb as [Hr Hb].
  destruct (py_incr_in_range cs r Hr) as (x & _ & ->). simpl.
  apply IH. now rewrite bump_length.
Qed.

Lemma count_ranks_Permutation l l' cs :
  Forall (fun r => 0 <= r < Z.of_nat (length cs)) l ->
  l ≡ₚ l' -> count_ranks l cs = count_ranks l' cs.
Proof.
  intros Hb H. rewrite !count_ranks_fold; [| now rewrite <- H | assumption].
  f_equal. apply fold_left_Permutation; [|assumption].
  intros b x y. apply bump_comm.
Qed.

Definition ranks_ok (l : list Z) : Prop := Forall (fun r => 0 <= r <= 12) l.

Lemma nonflush_branch_Permutation l l' :
  ranks_ok l -> l ≡ₚ l' -> nonflush_branch l = nonflush_branch l'.
Proof.
  intros Hb H. unfold nonflush_branch.
  rewrite (rank_mask_Permutation l l' H).
  rewrite (count_ranks_Permutation l l' (repeat 0 13)); [reflexivity| |assumption].
  eapply Forall_impl; [exact Hb|]. simpl. intros; lia.
Qed.

Lemma flush_branch_Permutation l l' :
  l ≡ₚ l' -> flush_branch l = flush_branch l'.
Proof.
  intros H. unfold flush_branch. now rewrite (sort_desc_Permutation l l' H).
Qed.

Lemma eval_abs_Permutation la la' :
  ranks_ok (map fst la) -> la ≡ₚ la' -> eval_abs la = eval_abs la'.
Proof.
  intros Hb H. unfold eval_abs.
  rewrite (existsb_Permutation snd la la' H).
  destruct (existsb snd la').
  - apply flush_branch_Permutation. rewrite !map_fmap. now rewrite H.
  - apply nonflush_branch_Permutation; [assumption|].
    rewrite !map_fmap. now rewrite H.
Qed.

End EvalFacts.

(** ** From a hand to its abstract cards *)

Module AbsFacts.
Import Evaluator Poker Canon ChooseFacts OrderFacts SortFacts ValueFacts EvalFacts.

Lemma all_seqs_spec n :
  forall f, all_seqs n f = true ->
  forall l, length l = n -> Forall (fun x => 0 <= x <= 3) l -> f l = true.
Proof.
  induction n as [|n IH]; intros f H l Hl Hb.
  - destruct l; [exact H | discriminate].
  - destruct l as [|x l]; [discriminate|].
    apply Forall_cons in Hb as [Hx Hb].
    change (forallb (fun x => all_seqs n (fun l => f (x :: l))) [0; 1; 2; 3] = true)
      in H.
    rewrite forallb_elem_of in H.
    assert (Hin : x ∈ [0; 1; 2; 3]).
    { assert (x = 0 \/ x = 1 \/ x = 2 \/ x = 3) as [-> | [-> | [-> | ->]]] by lia;
        repeat constructor. }
    specialize (H x Hin). simpl in H.
    apply (IH _ H l); [simpl in Hl; lia | assumption].
Qed.

Lemma suits_checked : all_seqs 7 check_suits = true.
Proof. vm_cast_no_check (eq_refl true). Qed.

Lemma rank_of_range c : 0 <= rank_of c <= 12.
Proof. unfold rank_of. pose proof (Z.mod_pos_bound c 13). lia. Qed.

Lemma suit_of_range c : 0 <= c < 52 -> 0 <= suit_of c <= 3.
Proof.
  unfold suit_of. intros H. split.
  - apply Z.div_pos; lia.
  - apply Z.lt_succ_r. apply Z.div_lt_upper_bound; lia.
Qed.

Lemma card_eq c d : rank_of c = rank_of d -> suit_of c = suit_of d -> c = d.
Proof.
  unfold rank_of, suit_of. intros H1 H2.
  rewrite (Z.div_mod c 13), (Z.div_mod d 13) by lia. congruence.
Qed.

Lemma ranks_ok_map_rank cards : ranks_ok (map rank_of cards).
Proof.
  unfold ranks_ok. rewrite map_fmap. apply Forall_fmap, Forall_true.
  intros c. apply rank_of_range.
Qed.

Lemma suits_ok_map_suit cards :
  Forall (fun c => 0 <= c < 52) cards ->
  Forall (fun x => 0 <= x <= 3) (map suit_of cards).
Proof.
  intros H. rewrite map_fmap. apply Forall_fmap.
  eapply Forall_impl; [exact H|]. intros c Hc. now apply suit_of_range.
Qed.

(** The facts about the flush suit of a valid hand. *)
Record flush_facts (cards : list Z) (fs : Z) : Prop := {
  ff_found : find_flush (map suit_of cards) [0; 0; 0; 0] = Ok fs;
  ff_same : forall sub, sub ∈ choose 5 (map suit_of cards) ->
              same_suit sub = forallb (fun t => t =? fs) sub;
  ff_exists : negb (fs =? -1) = existsb (fun t => t =? fs) (map suit_of cards);
  ff_count : count_suit fs (map suit_of cards) = 0%nat \/
             (5 <= count_suit fs (map suit_of cards))%nat;
  ff_unique : forall s, 0 <= s <= 3 ->
              (5 <= count_suit s (map suit_of cards))%nat -> s = fs
}.

Lemma flush_facts_valid cards :
  valid_hand cards -> exists fs, flush_facts cards fs.
Proof.
  intros (Hl & _ & Hb).
  pose proof (all_seqs_spec 7 check_suits suits_checked (map suit_of cards)) as H.
  rewrite length_map in H. specialize (H Hl (suits_ok_map_suit cards Hb)).
  unfold check_suits in H.
  destruct (find_flush (map suit_of cards) [0; 0; 0; 0]) as [fs|] eqn:E;
    [|discriminate].
  exists fs.
  apply andb_prop in H as [H H4]. apply andb_prop in H as [H H3].
  apply andb_prop in H as [H1 H2].
  split.
  - exact E.
  - intros sub Hsub. rewrite forallb_elem_of in H1.
    specialize (H1 sub Hsub). now apply Bool.eqb_prop in H1.
  - now apply Bool.eqb_prop in H2.
  - apply orb_prop in H3 as [H3|H3].
    + left. now apply Nat.eqb_eq in H3.
    + right. now apply Nat.leb_le in H3.
  - intros s Hs Hc. rewrite forallb_elem_of in H4.
    assert (Hin : s ∈ [0; 1; 2; 3]).
    { assert (s = 0 \/ s = 1 \/ s = 2 \/ s = 3) as [-> | [-> | [-> | ->]]] by lia;
        repeat constructor. }
    specialize (H4 s Hin). apply orb_prop in H4 as [H4|H4].
    + apply negb_true_iff, Nat.leb_gt in H4. lia.
    + now apply Z.eqb_eq in H4.
Qed.

Lemma abs_ranks fs cards : map fst (map (abs_of fs) cards) = map rank_of cards.
Proof. rewrite List.map_map. reflexivity. Qed.

Lemma abs_flags fs cards :
  forallb snd (map (abs_of fs) cards)
  = forallb (fun t => t =? fs) (map suit_of cards).
Proof. induction cards as [|c cards IH]; simpl; [reflexivity | now rewrite IH]. Qed.

Lemma abs_exists fs cards :
  existsb snd (map (abs_of fs) cards)
  = existsb (fun t => t =? fs) (map suit_of cards).
Proof. induction cards as [|c cards IH]; simpl; [reflexivity | now rewrite IH]. Qed.

Lemma abs_flush_ranks fs cards :
  map fst (filter (fun rs => snd rs = fs) (zip (map rank_of cards) (map suit_of cards)))
  = map fst (filter (fun a => snd a = true) (map (abs_of fs) cards)).
Proof.
  induction cards as [|c cards IH]; [reflexivity|].
  cbn [map zip zip_with]. rewrite !filter_cons. cbn [snd abs_of].
  destruct (Z.eqb_spec (suit_of c) fs) as [E|E].
  - rewrite !decide_True by auto. cbn [map fst]. now rewrite IH.
  - rewrite !decide_False by (auto; congruence). exact IH.
Qed.

(** The evaluator on a valid hand is [eval_abs] on its abstract cards. *)
Lemma evaluate_hand_abs cards fs :
  flush_facts cards fs ->
  evaluate_hand cards = eval_abs (map (abs_of fs) cards).
Proof.
  intros H. unfold evaluate_hand, eval_abs.
  rewrite (ff_found _ _ H). cbn [rbind].
  rewrite abs_exists, <- (ff_exists _ _ H).
  destruct (negb (fs =? -1)).
  - now rewrite abs_flush_ranks.
  - now rewrite abs_ranks.
Qed.

(** So is the standard value. *)
Lemma standard_value_abs cards fs :
  flush_facts cards fs ->
  standard_value cards = best_abs (map (abs_of fs) cards).
Proof.
  intros H. unfold standard_value, best_abs.
  rewrite choose_map, List.map_map. f_equal.
  apply List.map_ext_in. intros sub Hsub.
  unfold hand5_value, avalue5. rewrite abs_ranks, abs_flags.
  f_equal. apply (ff_same _ _ H).
  rewrite choose_map, map_fmap. apply list_elem_of_fmap.
  exists sub. split; [reflexivity | now apply list_elem_of_In].
Qed.

End AbsFacts.

(** ** Every valid hand has a canonical hand, and this one was checked *)

Module CanonFacts.
Import Evaluator Poker Canon ChooseFacts OrderFacts SortFacts ValueFacts
       EvalFacts AbsFacts.

#[global] Instance adesc_trans : Transitive adesc.
Proof. unfold adesc. intros x y z. lia. Qed.

#[global] Instance adesc_total : Total adesc.
Proof. unfold adesc. intros x y. lia. Qed.

Lemma StronglySorted_sublist {A} (R : relation A) (s l : list A) :
  s `sublist_of` l -> StronglySorted R l -> StronglySorted R s.
Proof.
  induction 1 as [|x s l Hsub IH|x s l Hsub IH]; intros Hs.
  - constructor.
  - apply StronglySorted_inv in Hs as [Hs Hx]. constructor; [now apply IH|].
    rewrite Forall_forall in *. intros y Hy. apply Hx.
    now apply (sublist_subseteq _ _ Hsub).
  - apply StronglySorted_inv in Hs as [Hs _]. now apply IH.
Qed.

Lemma tag_sorted b l : StronglySorted desc l -> Sorted adesc (tag b l).
Proof.
  intros H. apply StronglySorted_Sorted. unfold tag. rewrite map_fmap.
  apply (StronglySorted_fmap _ desc adesc); [|assumption].
  intros x y Hxy. exact Hxy.
Qed.

Lemma hand_of_sorted F O :
  StronglySorted desc F -> StronglySorted desc O ->
  StronglySorted adesc (hand_of F O).
Proof.
  intros HF HO. apply Sorted_StronglySorted; [apply _|].
  apply Sorted_list_merge; [apply _ | now apply tag_sorted..].
Qed.

Lemma hand_of_perm F O : hand_of F O ≡ₚ tag true F ++ tag false O.
Proof. apply merge_Permutation. Qed.

Lemma tag_ranks b l : map fst (tag b l) = l.
Proof.
  unfold tag. rewrite List.map_map. simpl. apply List.map_id.
Qed.

Lemma hand_of_ranks F O : map fst (hand_of F O) ≡ₚ F ++ O.
Proof.
  rewrite map_fmap, hand_of_perm, <- map_fmap, List.map_app, !tag_ranks.
  reflexivity.
Qed.

Lemma best_fast_abs F O :
  StronglySorted desc F -> StronglySorted desc O -> ranks_ok F -> ranks_ok O ->
  best_fast (hand_of F O) = best_abs (hand_of F O).
Proof.
  intros HF HO HbF HbO. unfold best_fast, best_abs. f_equal.
  apply List.map_ext_in. intros sub Hsub.
  apply list_elem_of_In, elem_of_choose in Hsub as [Hsub Hlen].
  unfold afast5, avalue5. apply fast5_value5.
  - now rewrite length_map.
  - rewrite map_fmap. apply (StronglySorted_fmap _ adesc desc).
    + intros x y Hxy. exact Hxy.
    + eapply StronglySorted_sublist; [exact Hsub|]. now apply hand_of_sorted.
  - assert (Hall : ranks_ok (map fst (hand_of F O))).
    { unfold ranks_ok. rewrite hand_of_ranks. now apply Forall_app. }
    unfold ranks_ok in Hall. rewrite Forall_forall in *.
    intros x Hx. apply Hall.
    rewrite map_fmap in *. revert Hx. apply sublist_subseteq.
    now apply fmap_sublist.
Qed.

Lemma filter_tag_true (l : list acard) :
  filter (fun a => snd a = true) l = tag true (map fst (filter (fun a => snd a = true) l)).
Proof.
  induction l as [|[r b] l IH]; [reflexivity|].
  rewrite filter_cons. cbn [snd]. destruct (decide (b = true)) as [->|E].
  - cbn [map fst tag]. f_equal. exact IH.
  - exact IH.
Qed.

Lemma filter_tag_false (l : list acard) :
  filter (fun a => ~ snd a = true) l
  = tag false (map fst (filter (fun a => ~ snd a = true) l)).
Proof.
  induction l as [|[r b] l IH]; [reflexivity|].
  rewrite filter_cons. cbn [snd]. destruct (decide (~ b = true)) as [E|E].
  - destruct b; [congruence|]. cbn [map fst tag]. f_equal. exact IH.
  - exact IH.
Qed.

Lemma canon_perm la : la ≡ₚ tag true (canonF la) ++ tag false (canonO la).
Proof.
  unfold canonF, canonO, tag. rewrite !map_fmap, !sort_desc_perm, <- !map_fmap.
  fold (tag true (flagged la)). fold (tag false (unflagged la)).
  unfold flagged, unflagged. rewrite <- filter_tag_true, <- filter_tag_false.
  symmetry. apply filter_app_complement.
Qed.

Lemma flagged_tags F O : flagged (tag true F ++ tag false O) = F.
Proof.
  unfold flagged. rewrite filter_app, List.map_app.
  assert (H1 : forall l, map fst (filter (fun a : acard => snd a = true) (tag true l)) = l).
  { induction l as [|x l IH]; [reflexivity|].
    cbn [tag map]. rewrite filter_cons. cbn [snd].
    rewrite decide_True by reflexivity. cbn [map fst]. f_equal. exact IH. }
  assert (H2 : forall l, map fst (filter (fun a : acard => snd a = true) (tag false l)) = []).
  { induction l as [|x l IH]; [reflexivity|].
    cbn [tag map]. rewrite filter_cons. cbn [snd].
    rewrite decide_False by discriminate. exact IH. }
  rewrite H1, H2. apply app_nil_r.
Qed.

Lemma exists_tags F O : existsb snd (tag true F ++ tag false O) = negb (bool_decide (F = [])).
Proof.
  destruct F as [|x F]; [|reflexivity]. cbn [tag map app].
  induction O as [|y O IH]; [reflexivity | exact IH].
Qed.

Lemma eval_abs_canon la :
  ranks_ok (map fst la) -> eval_abs la = eval_canon (canonF la) (canonO la).
Proof.
  intros Hb. rewrite (eval_abs_Permutation _ _ Hb (canon_perm la)).
  unfold eval_abs. rewrite exists_tags.
  fold (flagged (tag true (canonF la) ++ tag false (canonO la))).
  rewrite flagged_tags.
  destruct (canonF la) as [|x F] eqn:E.
  - cbn [tag map app bool_decide negb eval_canon].
    rewrite bool_decide_true by reflexivity. cbn [negb].
    now rewrite tag_ranks.
  - rewrite bool_decide_false by discriminate. reflexivity.
Qed.

Lemma canon_ranks la : canonF la ++ canonO la ≡ₚ map fst la.
Proof.
  rewrite (canon_perm la) at 3.
  now rewrite List.map_app, !tag_ranks.
Qed.

Lemma canonF_ok la : ranks_ok (map fst la) -> ranks_ok (canonF la).
Proof.
  unfold ranks_ok. rewrite <- canon_ranks, Forall_app. tauto.
Qed.

Lemma canonO_ok la : ranks_ok (map fst la) -> ranks_ok (canonO la).
Proof.
  unfold ranks_ok. rewrite <- canon_ranks, Forall_app. tauto.
Qed.

Lemma best_abs_canon la :
  ranks_ok (map fst la) ->
  best_abs la = best_fast (hand_of (canonF la) (canonO la)).
Proof.
  intros Hb.
  rewrite best_fast_abs;
    [| apply sort_desc_sorted | apply sort_desc_sorted
     | now apply canonF_ok | now apply canonO_ok].
  apply best_abs_Permutation.
  rewrite hand_of_perm. apply canon_perm.
Qed.

End CanonFacts.

Module MainFacts.
Import Evaluator Poker Canon ChooseFacts OrderFacts SortFacts ValueFacts
       EvalFacts AbsFacts CanonFacts.

Lemma flagged_abs fs cards : flagged (map (abs_of fs) cards) = suited_ranks fs cards.
Proof.
  unfold flagged, suited_ranks.
  induction cards as [|c cards IH]; [reflexivity|].
  cbn [map]. rewrite !filter_cons. cbn [snd abs_of].
  destruct (Z.eqb_spec (suit_of c) fs) as [E|E].
  - rewrite !decide_True by auto. cbn [map fst]. f_equal. exact IH.
  - rewrite !decide_False by (auto; congruence). exact IH.
Qed.

Lemma length_suited s cards :
  length (suited_ranks s cards) = count_suit s (map suit_of cards).
Proof.
  unfold suited_ranks, count_suit. rewrite length_map.
  induction cards as [|c cards IH]; [reflexivity|].
  cbn [map]. rewrite !filter_cons.
  destruct (decide (suit_of c = s)); cbn [length]; now rewrite IH.
Qed.

Lemma NoDup_suited s cards : NoDup cards -> NoDup (suited_ranks s cards).
Proof.
  intros H. unfold suited_ranks. rewrite map_fmap.
  apply NoDup_fmap_2_strong; [|now apply NoDup_filter].
  intros x y Hx Hy Hr.
  apply list_elem_of_filter in Hx as [Hx _], Hy as [Hy _].
  apply card_eq; congruence.
Qed.

Lemma mult_map_rank r cards :
  mult r (map rank_of cards) = length (filter (fun c => rank_of c = r) cards).
Proof.
  unfold mult. induction cards as [|c cards IH]; [reflexivity|].
  cbn [map]. rewrite !filter_cons.
  destruct (decide (rank_of c = r)); cbn [length]; now rewrite IH.
Qed.

Lemma mult_ranks_le_4 r cards :
  NoDup cards -> Forall (fun c => 0 <= c < 52) cards ->
  (mult r (map rank_of cards) <= 4)%nat.
Proof.
  intros Hn Hb. rewrite mult_map_rank.
  set (X := filter (fun c => rank_of c = r) cards).
  rewrite <- (length_fmap suit_of X).
  change 4%nat with (length [0; 1; 2; 3]).
  apply submseteq_length, NoDup_submseteq.
  - apply NoDup_fmap_2_strong; [|now apply NoDup_filter].
    intros x y Hx Hy Hs.
    apply list_elem_of_filter in Hx as [Hx _], Hy as [Hy _].
    apply card_eq; congruence.
  - intros s Hs. apply list_elem_of_fmap in Hs as (c & -> & Hc).
    apply list_elem_of_filter in Hc as [_ Hc].
    rewrite Forall_forall in Hb. specialize (Hb c Hc).
    apply suit_of_range in Hb.
    assert (suit_of c = 0 \/ suit_of c = 1 \/ suit_of c = 2 \/ suit_of c = 3)
      as [-> | [-> | [-> | ->]]] by lia; repeat constructor.
Qed.

Lemma mult_sublist r (s l : list Z) : s `sublist_of` l -> (mult r s <= mult r l)%nat.
Proof.
  unfold mult. induction 1 as [|x s l _ IH|x s l _ IH]; [reflexivity|..];
    rewrite ?filter_cons; destruct (decide (x = r)); cbn [length]; lia.
Qed.

Lemma unflagged_sublist la : unflagged la `sublist_of` map fst la.
Proof.
  unfold unflagged. rewrite !map_fmap. apply fmap_sublist, sublist_filter.
Qed.

Lemma family0_checked : all_lists false 7 12 family0 = true.
Proof. vm_cast_no_check (eq_refl true). Qed.

Lemma family5_checked : all_lists true 5 12 family5 = true.
Proof. vm_cast_no_check (eq_refl true). Qed.

Lemma family6_checked : all_lists true 6 12 family6 = true.
Proof. vm_cast_no_check (eq_refl true). Qed.

Lemma family7_checked : all_lists true 7 12 family7 = true.
Proof. vm_cast_no_check (eq_refl true). Qed.

(** What [check_hand] established, read back. *)
Lemma check_hand_inv F O :
  check_hand F O = true ->
  exists s, eval_canon F O = Ok s /\ check_value F O s = true /\
            (F = [] -> check_nonflush O s = true) /\
            (F <> [] -> check_flush F s = true).
Proof.
  unfold check_hand, eval_canon. destruct F as [|x F].
  - destruct (nonflush_branch O) as [s|]; [|discriminate].
    intros H. apply andb_prop in H as [H1 H2]. exists s.
    repeat split; auto; congruence.
  - destruct (flush_branch (x :: F)) as [s|]; [|discriminate].
    destruct (check_flush (x :: F) s) eqn:E; [|discriminate].
    intros H. exists s. repeat split; auto; congruence.
Qed.

Section Valid.
Variables (cards : list Z) (fs : Z).
Hypothesis Hvalid : valid_hand cards.
Hypothesis Hff : flush_facts cards fs.

Let la := map (abs_of fs) cards.

Lemma la_ranks_ok : ranks_ok (map fst la).
Proof. unfold la. rewrite abs_ranks. apply ranks_ok_map_rank. Qed.

Lemma canonF_perm : canonF la ≡ₚ suited_ranks fs cards.
Proof. unfold canonF, la. rewrite sort_desc_perm. now rewrite flagged_abs. Qed.

Lemma canonO_perm_all : canonF la = [] -> canonO la ≡ₚ map rank_of cards.
Proof.
  intros E. pose proof (canon_ranks la) as H. rewrite E in H.
  cbn [app] in H. rewrite H. unfold la. now rewrite abs_ranks.
Qed.

Lemma canon_lengths : (length (canonF la) + length (canonO la) = 7)%nat.
Proof.
  destruct Hvalid as (Hl & _ & _).
  rewrite <- length_app, canon_ranks, length_map. unfold la.
  now rewrite length_map.
Qed.

Lemma canonF_length :
  length (canonF la) = 0%nat \/ (5 <= length (canonF la))%nat.
Proof.
  rewrite canonF_perm, length_suited. apply (ff_count _ _ Hff).
Qed.

Lemma canonF_dsc : dsc true 12 (canonF la).
Proof.
  apply dsc_strict_of_sorted.
  - apply sort_desc_sorted.
  - rewrite canonF_perm. apply NoDup_suited. apply Hvalid.
  - apply canonF_ok, la_ranks_ok.
Qed.

Lemma canonO_dsc : dsc false 12 (canonO la).
Proof.
  apply dsc_of_sorted; [apply sort_desc_sorted | apply canonO_ok, la_ranks_ok].
Qed.

Lemma canonO_at_most_four : at_most_four (canonO la) = true.
Proof.
  destruct Hvalid as (_ & Hn & Hb).
  unfold at_most_four. apply forallb_elem_of. intros r _.
  apply Nat.leb_le.
  unfold canonO. rewrite (mult_Permutation r _ _ (sort_desc_perm _)).
  etransitivity; [apply mult_sublist, unflagged_sublist|].
  unfold la. rewrite abs_ranks. now apply mult_ranks_le_4.
Qed.

Lemma check_hand_valid : check_hand (canonF la) (canonO la) = true.
Proof.
  pose proof canon_lengths as Hlen. pose proof canonF_dsc as HF.
  pose proof canonO_dsc as HO.
  destruct canonF_length as [E|E].
  - assert (HlO : length (canonO la) = 7%nat) by lia.
    pose proof (all_lists_spec false 7 12 family0 family0_checked
                  (canonO la) HlO HO) as H.
    unfold family0 in H. rewrite canonO_at_most_four in H.
    destruct (canonF la) as [|x F]; [exact H | discriminate].
  - assert (Hk : length (canonF la) = 5%nat \/ length (canonF la) = 6%nat
                 \/ length (canonF la) = 7%nat) by lia.
    destruct Hk as [Hk|[Hk|Hk]].
    + assert (HlO : length (canonO la) = 2%nat) by lia.
      pose proof (all_lists_spec true 5 12 family5 family5_checked
                    (canonF la) Hk HF) as H.
      exact (all_lists_spec false 2 12 (check_hand (canonF la)) H
               (canonO la) HlO HO).
    + assert (HlO : length (canonO la) = 1%nat) by lia.
      pose proof (all_lists_spec true 6 12 family6 family6_checked
                    (canonF la) Hk HF) as H.
      exact (all_lists_spec false 1 12 (check_hand (canonF la)) H
               (canonO la) HlO HO).
    + assert (HlO : length (canonO la) = 0%nat) by lia.
      pose proof (all_lists_spec true 7 12 family7 family7_checked
                    (canonF la) Hk HF) as H.
      unfold family7 in H.
      destruct (canonO la); [exact H | discriminate].
Qed.

(** The score of a valid hand, in terms of its canonical hand. *)
Lemma evaluate_hand_canon :
  exists s, evaluate_hand cards = Ok s /\
            eval_canon (canonF la) (canonO la) = Ok s /\
            s = encode (standard_value cards) /\
            wf_value (standard_value cards) = true /\
            (canonF la = [] -> check_nonflush (canonO la) s = true) /\
            (canonF la <> [] -> check_flush (canonF la) s = true).
Proof.
  destruct (check_hand_inv _ _ check_hand_valid) as (s & Hs & Hv & Hn & Hf).
  exists s. unfold check_value in Hv.
  rewrite <- (best_abs_canon la la_ranks_ok) in Hv. fold la in Hv.
  unfold la in Hv at 1 2. rewrite <- (standard_value_abs cards fs Hff) in Hv.
  apply andb_prop in Hv as [Hw He]. apply Z.eqb_eq in He.
  repeat split; auto.
  rewrite (evaluate_hand_abs cards fs Hff). fold la.
  now rewrite (eval_abs_canon la la_ranks_ok).
Qed.
End Valid.

(** The evaluator computes the standard value, encoded. *)
Lemma evaluate_hand_standard cards :
  valid_hand cards ->
  evaluate_hand cards = Ok (encode (standard_value cards)) /\
  wf_value (standard_value cards) = true.
Proof.
  intros Hv. destruct (flush_facts_valid cards Hv) as (fs & Hff).
  destruct (evaluate_hand_canon cards fs Hv Hff) as (s & H1 & _ & H2 & H3 & _).
  subst s. auto.
Qed.

End MainFacts.

(** ** Comparing scores is comparing values *)

Module EncodeFacts.
Import Poker.

Definition small (ts : list Z) : Prop := Forall (fun t => 0 <= t <= 12) ts.

Lemma pack_bound n : forall ts,
  small ts -> (length ts <= S n)%nat ->
  0 <= pack ts (4 * Z.of_nat n) < 2 ^ (4 * Z.of_nat n + 4).
Proof.
  induction n as [|n IH]; intros ts Hs Hl.
  - destruct ts as [|t [|u ts]]; simpl in *; try lia.
    apply Forall_cons in Hs as [Ht _]. lia.
  - destruct ts as [|t ts]; [simpl; split; [lia | apply Z.pow_pos_nonneg; lia]|].
    apply Forall_cons in Hs as [Ht Hs]. cbn [pack].
    replace (4 * Z.of_nat (S n) - 4) with (4 * Z.of_nat n) by lia.
    specialize (IH ts Hs ltac:(simpl in Hl; lia)).
    replace (4 * Z.of_nat (S n) + 4) with (4 * Z.of_nat n + 4 + 4) by lia.
    replace (4 * Z.of_nat (S n)) with (4 * Z.of_nat n + 4) by lia.
    rewrite (Z.pow_add_r _ (4 * Z.of_nat n + 4) 4) by lia.
    set (P := 2 ^ (4 * Z.of_nat n + 4)) in *. change (2 ^ 4) with 16. nia.
Qed.

Lemma pack_lex n : forall ts us,
  small ts -> small us -> length ts = length us -> (length ts <= S n)%nat ->
  (pack ts (4 * Z.of_nat n) < pack us (4 * Z.of_nat n) <-> lex_ltb ts us = true)
  /\ (pack ts (4 * Z.of_nat n) = pack us (4 * Z.of_nat n) <-> ts = us).
Proof.
  induction n as [|n IH]; intros ts us Hs Hu Hl Hn.
  - destruct ts as [|t [|t' ts]], us as [|u [|u' us]];
      cbn [length] in *; try lia.
    + cbn. split; split; intros; try lia; try congruence.
    + apply Forall_cons in Hs as [Ht _]. apply Forall_cons in Hu as [Hu' _].
      cbn [pack lex_ltb]. change (4 * Z.of_nat 0) with 0. change (2 ^ 0) with 1.
      rewrite andb_false_r, orb_false_r, Z.ltb_lt. split; [lia|].
      split; [intros; f_equal; lia | intros [= ->]; lia].
  - destruct ts as [|t ts], us as [|u us]; try discriminate.
    + simpl. split; split; intros; try lia; try congruence.
    + apply Forall_cons in Hs as [Ht Hs]. apply Forall_cons in Hu as [Hu' Hu].
      cbn [pack lex_ltb].
      replace (4 * Z.of_nat (S n) - 4) with (4 * Z.of_nat n) by lia.
      simpl in Hl, Hn.
      destruct (IH ts us Hs Hu ltac:(lia) ltac:(lia)) as [IH1 IH2].
      pose proof (pack_bound n ts Hs ltac:(lia)) as B1.
      pose proof (pack_bound n us Hu ltac:(lia)) as B2.
      replace (4 * Z.of_nat (S n)) with (4 * Z.of_nat n + 4) by lia.
      set (P := 2 ^ (4 * Z.of_nat n + 4)) in *.
      set (p := pack ts (4 * Z.of_nat n)) in *.
      set (q := pack us (4 * Z.of_nat n)) in *.
      rewrite orb_true_iff, andb_true_iff, Z.ltb_lt, Z.eqb_eq, <- IH1.
      split.
      * split; [intros H | intros [H | [-> H]]]; nia.
      * split; [intros H | intros [= -> E]].
        -- assert (t = u) by nia. subst. f_equal. apply IH2. nia.
        -- apply IH2 in E. nia.
Qed.

Lemma wf_value_inv v :
  wf_value v = true ->
  0 <= fst v <= 8 /\ length (snd v) = arity (fst v) /\ small (snd v).
Proof.
  unfold wf_value. rewrite !andb_true_iff, !Z.leb_le, Nat.eqb_eq.
  intros [[[H1 H2] H3] H4]. repeat split; auto.
  unfold small. apply Forall_forall. intros t Ht.
  rewrite forallb_forall in H4. apply list_elem_of_In in Ht.
  specialize (H4 t Ht). rewrite andb_true_iff, !Z.leb_le in H4. lia.
Qed.

Lemma arity_le_5 c : (arity c <= 5)%nat.
Proof. unfold arity. repeat destruct (_ =? _); lia. Qed.

(** Comparing encodings is comparing values. *)
Lemma encode_order v w :
  wf_value v = true -> wf_value w = true ->
  (encode v < encode w <-> value_ltb v w = true) /\
  (encode v = encode w <-> v = w).
Proof.
  intros Hv Hw.
  apply wf_value_inv in Hv as (Hc1 & Hl1 & Hs1).
  apply wf_value_inv in Hw as (Hc2 & Hl2 & Hs2).
  destruct v as [c ts], w as [d us]. unfold encode, value_ltb. cbn [fst snd] in *.
  pose proof (arity_le_5 c) as A1. pose proof (arity_le_5 d) as A2.
  pose proof (pack_bound 4 ts Hs1 ltac:(lia)) as B1.
  pose proof (pack_bound 4 us Hs2 ltac:(lia)) as B2.
  change (4 * Z.of_nat 4) with 16 in B1, B2.
  change (2 ^ (16 + 4)) with (2 ^ 20) in B1, B2.
  change (2 ^ 20) with 1048576 in *.
  rewrite orb_true_iff, andb_true_iff, Z.ltb_lt, Z.eqb_eq.
  destruct (Z.lt_trichotomy c d) as [H|[H|H]].
  - split; split.
    + intros _. now left.
    + intros _. lia.
    + intros E. lia.
    + intros [= -> _]. lia.
  - subst d.
    destruct (pack_lex 4 ts us Hs1 Hs2 ltac:(lia) ltac:(lia)) as [L1 L2].
    change (4 * Z.of_nat 4) with 16 in L1, L2.
    split; split.
    + intros E. right. split; [reflexivity|]. apply L1. lia.
    + intros [E|[_ E]]; [lia|]. apply L1 in E. lia.
    + intros E. f_equal. apply L2. lia.
    + intros [= ->]. reflexivity.
  - split; split.
    + intros E. lia.
    + intros [E|[E _]]; lia.
    + intros E. lia.
    + intros [= -> _]. lia.
Qed.
End EncodeFacts.

(** ** Patterns of a hand and its canonical hand *)

Module PatternFacts.
Import Evaluator Poker Canon ChooseFacts OrderFacts SortFacts ValueFacts
       EvalFacts AbsFacts CanonFacts MainFacts.

Lemma holds_Permutation rs rs' need : rs ≡ₚ rs' -> holds rs need = holds rs' need.
Proof.
  intros H. unfold holds. apply forallb_pointwise. intros r.
  now apply existsb_Permutation.
Qed.

Lemma higher_straight_Permutation rs rs' :
  rs ≡ₚ rs' -> higher_straight rs = higher_straight rs'.
Proof.
  intros H. unfold higher_straight. apply existsb_pointwise. intros i.
  now apply holds_Permutation.
Qed.

Lemma above_six_high_Permutation rs rs' :
  rs ≡ₚ rs' -> above_six_high rs = above_six_high rs'.
Proof.
  intros H. unfold above_six_high. apply existsb_pointwise. intros i.
  now apply holds_Permutation.
Qed.

Lemma has_quads_Permutation rs rs' : rs ≡ₚ rs' -> has_quads rs = has_quads rs'.
Proof.
  intros H. unfold has_quads. apply existsb_pointwise. intros r.
  now rewrite (mult_Permutation r rs rs' H).
Qed.

Lemma has_full_house_Permutation rs rs' :
  rs ≡ₚ rs' -> has_full_house rs = has_full_house rs'.
Proof.
  intros H. unfold has_full_house. apply existsb_pointwise. intros r.
  rewrite (mult_Permutation r rs rs' H).
  destruct (3 <=? mult r rs')%nat; [|reflexivity].
  apply existsb_pointwise. intros q. now rewrite (mult_Permutation q rs rs' H).
Qed.

Lemma check_nonflush_Permutation rs rs' s :
  rs ≡ₚ rs' -> check_nonflush rs s = check_nonflush rs' s.
Proof.
  intros H. unfold check_nonflush.
  rewrite !(holds_Permutation rs rs' _ H), (higher_straight_Permutation rs rs' H),
    (above_six_high_Permutation rs rs' H), (has_quads_Permutation rs rs' H),
    (has_full_house_Permutation rs rs' H).
  reflexivity.
Qed.

Lemma check_flush_Permutation rs rs' s :
  rs ≡ₚ rs' -> check_flush rs s = check_flush rs' s.
Proof.
  intros H. unfold check_flush.
  now rewrite (holds_Permutation rs rs' _ H), (higher_straight_Permutation rs rs' H).
Qed.

Lemma count_suit_pos_range s cards :
  Forall (fun c => 0 <= c < 52) cards ->
  (0 < count_suit s (map suit_of cards))%nat -> 0 <= s <= 3.
Proof.
  intros Hb Hc. unfold count_suit in Hc.
  destruct (filter (fun t => t = s) (map suit_of cards)) as [|t l] eqn:E;
    [cbn in Hc; lia|].
  assert (Ht : t ∈ filter (fun t => t = s) (map suit_of cards))
    by (rewrite E; now left).
  apply list_elem_of_filter in Ht as [-> Ht].
  pose proof (suits_ok_map_suit cards Hb) as Hs.
  rewrite Forall_forall in Hs. now apply Hs.
Qed.

Section ValidPatterns.
Variables (cards : list Z) (fs : Z).
Hypothesis Hvalid : valid_hand cards.
Hypothesis Hff : flush_facts cards fs.

Let la := map (abs_of fs) cards.

Lemma no_flush_canonF : has_flush cards = false -> canonF la = [].
Proof.
  intros Hnf.
  destruct (canonF_length cards fs Hff) as [E|E].
  - fold la in E. now destruct (canonF la).
  - exfalso. fold la in E.
    assert (Hc : (5 <= count_suit fs (map suit_of cards))%nat).
    { rewrite <- length_suited, <- (canonF_perm cards fs). exact E. }
    assert (Hr : 0 <= fs <= 3).
    { apply (count_suit_pos_range fs cards); [apply Hvalid | lia]. }
    unfold has_flush in Hnf.
    assert (Ht : existsb (fun s => (5 <=? count_suit s (map suit_of cards))%nat)
                   [0; 1; 2; 3] = true).
    { apply existsb_elem_of. exists fs. split.
      - assert (fs = 0 \/ fs = 1 \/ fs = 2 \/ fs = 3)
          as [-> | [-> | [-> | ->]]] by lia; repeat constructor.
      - now apply Nat.leb_le. }
    congruence.
Qed.

(** A suit that holds five distinct ranks is the flush suit. *)
Lemma suited_five_is_flush s need :
  NoDup need -> length need = 5%nat ->
  holds (suited_ranks s cards) need = true -> s = fs.
Proof.
  intros Hn Hl Hh.
  assert (Hc : (5 <= count_suit s (map suit_of cards))%nat).
  { rewrite <- length_suited, <- Hl.
    apply submseteq_length, NoDup_submseteq; [assumption|].
    intros r Hr. unfold holds in Hh. rewrite forallb_elem_of in Hh.
    specialize (Hh r Hr). apply existsb_elem_of in Hh as (x & Hx & Hrx).
    apply Z.eqb_eq in Hrx. now subst. }
  apply (ff_unique _ _ Hff); [|assumption].
  apply (count_suit_pos_range s cards); [apply Hvalid | lia].
Qed.
End ValidPatterns.

End PatternFacts.

(** ** The standard value of a permuted hand *)

Module PermFacts.
Import Evaluator Poker Canon ChooseFacts OrderFacts SortFacts ValueFacts.

Lemma same_suit_spec l :
  same_suit l = true <-> forall x y, x ∈ l -> y ∈ l -> x = y.
Proof.
  destruct l as [|s l]; simpl.
  - split; [intros _ x y Hx; inversion Hx | reflexivity].
  - rewrite forallb_elem_of. split.
    + intros H x y Hx Hy.
      assert (Hs : forall z, z ∈ s :: l -> z = s).
      { intros z Hz. inversion Hz; subst; [reflexivity|].
        now apply Z.eqb_eq, H. }
      rewrite (Hs x Hx), (Hs y Hy). reflexivity.
    + intros H t Ht. apply Z.eqb_eq. apply H; [now right | now left].
Qed.

Lemma same_suit_Permutation l l' : l ≡ₚ l' -> same_suit l = same_suit l'.
Proof.
  intros H. apply Bool.eq_true_iff_eq. rewrite !same_suit_spec.
  split; intros Hs x y Hx Hy; apply Hs;
    first [now rewrite H | now rewrite <- H].
Qed.

Lemma hand5_value_Permutation s s' : s ≡ₚ s' -> hand5_value s = hand5_value s'.
Proof.
  intros H. unfold hand5_value.
  rewrite (same_suit_Permutation (map suit_of s) (map suit_of s'))
    by (rewrite !map_fmap; now rewrite H).
  apply value5_Permutation. rewrite !map_fmap. now rewrite H.
Qed.

Lemma standard_value_Permutation cards cards' :
  cards ≡ₚ cards' -> standard_value cards = standard_value cards'.
Proof.
  intros H. unfold standard_value.
  assert (Hin : forall a b : list Z, a ≡ₚ b ->
            forall v, v ∈ map hand5_value (choose 5 a) ->
                      v ∈ map hand5_value (choose 5 b)).
  { intros a b Hab v. rewrite !map_fmap, !list_elem_of_fmap.
    intros (s & -> & Hs).
    destruct (choose_Permutation 5 a b s Hab Hs) as (s' & Hs' & Hss').
    exists s'. split; [now apply hand5_value_Permutation | assumption]. }
  apply best_same_elems; apply Hin; [assumption | now symmetry].
Qed.

Lemma valid_hand_Permutation cards cards' :
  cards ≡ₚ cards' -> valid_hand cards -> valid_hand cards'.
Proof.
  intros H (Hl & Hn & Hb). repeat split; now rewrite <- H.
Qed.

End PermFacts.

(** ** What the evaluator does with input it was not written for *)

Module ContractFacts.
Import Evaluator Poker Canon SortFacts EvalFacts AbsFacts.

(** [rank_counts[r]], for the proofs. *)
Definition cnt (cs : list Z) (r : Z) : Z := nth (Z.to_nat r) cs 0.

Definition zsum (l : list Z) : Z := fold_right Z.add 0 l.

Definition in_range (cs : list Z) (rs : list Z) : Prop :=
  Forall (fun r => 0 <= r < Z.of_nat (length cs)) rs.

Lemma py_get_cnt cs r :
  0 <= r < Z.of_nat (length cs) -> py_get cs r = Ok (cnt cs r).
Proof.
  intros H. destruct (py_get_in_range cs r H) as (x & Hx & ->).
  unfold cnt. f_equal. symmetry. now apply nth_lookup_Some with (d := 0) in Hx.
Qed.

Lemma zsum_insert cs : forall k x,
  cs !! k = Some x -> zsum (<[k := x + 1]> cs) = zsum cs + 1.
Proof.
  induction cs as [|c cs IH]; intros [|k] x H; try discriminate.
  - injection H as ->. cbn. lia.
  - cbn in H. change (<[S k := x + 1]> (c :: cs)) with (c :: <[k := x + 1]> cs).
    change (zsum (c :: <[k := x + 1]> cs)) with (c + zsum (<[k := x + 1]> cs)).
    change (zsum (c :: cs)) with (c + zsum cs).
    rewrite (IH k x H). lia.
Qed.

Lemma zsum_bump cs r :
  0 <= r < Z.of_nat (length cs) -> zsum (bump cs r) = zsum cs + 1.
Proof.
  intros H. destruct (py_incr_in_range cs r H) as (x & Hx & _).
  unfold bump. rewrite Hx. now apply zsum_insert.
Qed.

Lemma zsum_fold ranks : forall cs,
  in_range cs ranks ->
  zsum (fold_left bump ranks cs) = zsum cs + Z.of_nat (length ranks).
Proof.
  induction ranks as [|r ranks IH]; intros cs Hb; cbn [fold_left length].
  - lia.
  - apply Forall_cons in Hb as [Hr Hb].
    rewrite IH by (unfold in_range; now rewrite bump_length).
    rewrite zsum_bump by assumption. lia.
Qed.

Lemma cnt_bump cs r k :
  0 <= r < Z.of_nat (length cs) -> 0 <= k ->
  cnt (bump cs r) k = cnt cs k + (if bool_decide (k = r) then 1 else 0).
Proof.
  intros Hr Hk. destruct (py_incr_in_range cs r Hr) as (x & Hx & _).
  unfold cnt, bump. rewrite Hx.
  destruct (decide (k = r)) as [->|E].
  - rewrite bool_decide_true by reflexivity.
    rewrite (nth_lookup_Some _ _ 0 _ Hx).
    apply nth_lookup_Some. apply list_lookup_insert_eq.
    now apply lookup_lt_Some in Hx.
  - rewrite bool_decide_false by assumption.
    rewrite !nth_lookup, list_lookup_insert_ne by lia. lia.
Qed.

Lemma cnt_fold ranks : forall cs k,
  in_range cs ranks -> 0 <= k ->
  cnt (fold_left bump ranks cs) k = cnt cs k + Z.of_nat (mult k ranks).
Proof.
  induction ranks as [|r ranks IH]; intros cs k Hb Hk; cbn [fold_left].
  - unfold mult. cbn. lia.
  - apply Forall_cons in Hb as [Hr Hb].
    rewrite IH by (try assumption; unfold in_range; now rewrite bump_length).
    rewrite cnt_bump by assumption. unfold mult. rewrite filter_cons.
    destruct (decide (r = k)) as [->|E].
    + rewrite bool_decide_true by reflexivity. cbn [length]. lia.
    + rewrite bool_decide_false by congruence. lia.
Qed.

(** The ranks whose count is [c], in the order of [rs]. *)
Definition with_count (cs : list Z) (c : Z) (rs : list Z) : list Z :=
  filter (fun r => cnt cs r = c) rs.

Lemma classify_spec cs rs : forall g,
  in_range cs rs ->
  exists g', classify cs rs g = Ok g' /\
    quads g' = quads g ++ with_count cs 4 rs /\
    trips g' = trips g ++ with_count cs 3 rs /\
    pairs g' = pairs g ++ with_count cs 2 rs.
Proof.
  unfold with_count.
  induction rs as [|r rs IH]; intros g Hb; cbn [classify].
  - exists g. rewrite !filter_nil, !app_nil_r. auto.
  - apply Forall_cons in Hb as [Hr Hb]. rewrite (py_get_cnt cs r Hr).
    cbn [rbind]. rewrite !filter_cons.
    destruct (Z.eqb_spec (cnt cs r) 4) as [E4|E4];
      [|destruct (Z.eqb_spec (cnt cs r) 3) as [E3|E3];
        [|destruct (Z.eqb_spec (cnt cs r) 2) as [E2|E2];
          [|destruct (Z.eqb_spec (cnt cs r) 1) as [E1|E1]]]];
      (edestruct IH as (g' & -> & H4 & H3 & H2); [exact Hb|]);
      exists g'; (split; [reflexivity|]);
      rewrite H4, H3, H2; cbn [quads trips pairs];
      repeat (destruct (decide _); try lia);
      rewrite <- ?app_assoc; auto.
Qed.

Lemma first_kicker_ok cs keep rs :
  in_range cs rs -> exists k, first_kicker cs keep rs = Ok k.
Proof.
  induction rs as [|r rs IH]; intros Hb; cbn [first_kicker].
  - now exists 0.
  - apply Forall_cons in Hb as [Hr Hb]. destruct (keep r); [|now apply IH].
    rewrite (py_get_cnt cs r Hr). cbn [rbind].
    destruct (0 <? cnt cs r); [now exists r | now apply IH].
Qed.

(** The ranks a kicker loop may take. *)
Definition eligible (cs : list Z) (keep : Z -> bool) (rs : list Z) : list Z :=
  filter (fun r => keep r = true /\ 0 < cnt cs r) rs.

Lemma collect_kickers_ok cs keep n rs : forall ks,
  in_range cs rs -> (length ks < n)%nat ->
  exists ks', collect_kickers cs keep n rs ks = Ok ks' /\
    ((n <= length ks')%nat \/
     length ks' = (length ks + length (eligible cs keep rs))%nat).
Proof.
  unfold eligible.
  induction rs as [|r rs IH]; intros ks Hb Hn; cbn [collect_kickers].
  - exists ks. split; [reflexivity|]. right. rewrite filter_nil. cbn. lia.
  - apply Forall_cons in Hb as [Hr Hb]. rewrite filter_cons.
    destruct (keep r) eqn:Ek.
    + rewrite (py_get_cnt cs r Hr). cbn [rbind].
      destruct (Z.ltb_spec 0 (cnt cs r)) as [Hc|Hc].
      * rewrite decide_True by auto.
        destruct (Nat.eqb_spec (length (ks ++ [r])) n) as [E|E].
        -- exists (ks ++ [r]). split; [reflexivity|]. left. lia.
        -- rewrite length_app in E. cbn [length] in E.
           destruct (IH (ks ++ [r]) Hb) as (ks' & -> & H).
           { rewrite length_app. cbn [length]. lia. }
           exists ks'. split; [reflexivity|].
           rewrite length_app in H. cbn [length] in *. lia.
      * rewrite decide_False by lia. now apply IH.
    + rewrite decide_False by (intros [? _]; congruence). now apply IH.
Qed.

Lemma class_sum cs rs :
  (forall r, r ∈ rs -> 0 <= cnt cs r <= 4) ->
  zsum (map (cnt cs) rs)
  = 4 * Z.of_nat (length (with_count cs 4 rs))
    + 3 * Z.of_nat (length (with_count cs 3 rs))
    + 2 * Z.of_nat (length (with_count cs 2 rs))
    + Z.of_nat (length (with_count cs 1 rs)).
Proof.
  unfold with_count. induction rs as [|r rs IH]; intros Hb.
  - reflexivity.
  - change (zsum (map (cnt cs) (r :: rs)))
      with (cnt cs r + zsum (map (cnt cs) rs)).
    rewrite IH by (intros x Hx; apply Hb; now right).
    rewrite !filter_cons.
    assert (Hr : 0 <= cnt cs r <= 4) by (apply Hb; now left).
    repeat (destruct (decide _)); cbn [length]; lia.
Qed.

Lemma singles_eligible cs keep rs :
  (forall r, r ∈ rs -> cnt cs r = 1 -> keep r = true) ->
  (length (with_count cs 1 rs) <= length (eligible cs keep rs))%nat.
Proof.
  unfold with_count, eligible. induction rs as [|r rs IH]; intros Hk.
  - reflexivity.
  - rewrite !filter_cons.
    assert (IH' := IH ltac:(intros x Hx; apply Hk; now right)).
    destruct (decide (cnt cs r = 1)) as [E|E].
    + rewrite decide_True by (split; [apply Hk; [now left | exact E] | lia]).
      cbn [length]. lia.
    + destruct (decide _); cbn [length]; lia.
Qed.

Lemma zsum_all_ranks cs :
  length cs = 13%nat -> zsum (map (cnt cs) ranks_high_to_low) = zsum cs.
Proof.
  intros H.
  do 14 (destruct cs as [|? cs]; try discriminate).
  cbv - [Z.add]. lia.
Qed.

Lemma ranks_in_range cs : length cs = 13%nat -> in_range cs ranks_high_to_low.
Proof.
  intros H. unfold in_range. rewrite H. repeat constructor; lia.
Qed.

Lemma py_get_ok {A} (l : list A) i :
  0 <= i < Z.of_nat (length l) -> exists x, py_get l i = Ok x.
Proof.
  intros H. destruct (py_get_in_range l i H) as (x & _ & ->). now exists x.
Qed.

Lemma with_count_elem cs c rs r : r ∈ with_count cs c rs -> cnt cs r = c.
Proof. unfold with_count. intros H. now apply list_elem_of_filter in H as [H _]. Qed.

(** Section 3 of the evaluator never fails on the counts of five cards
    or more when no rank is counted more than four times. *)
Lemma paired_branch_ok cs :
  length cs = 13%nat ->
  (forall r, r ∈ ranks_high_to_low -> 0 <= cnt cs r <= 4) ->
  5 <= zsum cs ->
  exists s, paired_branch cs = Ok s.
Proof.
  intros Hl Hc Hsum. unfold paired_branch.
  pose proof (ranks_in_range cs Hl) as Hr.
  destruct (classify_spec cs ranks_high_to_low (Groups [] [] [] []) Hr)
    as (g & -> & Hq & Ht & Hp).
  cbn [rbind]. cbn [Evaluator.quads Evaluator.trips Evaluator.pairs app] in Hq, Ht, Hp.
  rewrite Hq, Ht, Hp.
  pose proof (class_sum cs ranks_high_to_low Hc) as Hs.
  rewrite (zsum_all_ranks cs Hl) in Hs.
  set (Q := with_count cs 4 ranks_high_to_low) in *.
  set (T := with_count cs 3 ranks_high_to_low) in *.
  set (P := with_count cs 2 ranks_high_to_low) in *.
  set (S1 := with_count cs 1 ranks_high_to_low) in *.
  destruct Q as [|q Q'] eqn:EQ; cbn [truthy].
  2:{ destruct (py_get_ok (q :: Q') 0) as (x & ->); [cbn [length]; lia|].
      cbn [rbind].
      destruct (first_kicker_ok cs (fun r => negb (r =? x)) ranks_high_to_low Hr)
        as (k & ->).
      cbn [rbind]. eauto. }
  destruct T as [|t T'] eqn:ET; cbn [truthy andb].
  - (* no trips *)
    change (len (@nil Z) =? 1) with false. cbn iota.
    destruct (Z.leb_spec 2 (len P)) as [H2|H2].
    + destruct (py_get_ok P 0) as (p1 & ->); [unfold len in H2; lia|].
      destruct (py_get_ok P 1) as (p2 & ->); [unfold len in H2; lia|].
      cbn [rbind].
      destruct (first_kicker_ok cs (fun r => negb (r =? p1) && negb (r =? p2))
                  ranks_high_to_low Hr) as (k & ->).
      cbn [rbind]. eauto.
    + destruct (Z.eqb_spec (len P) 1) as [H1|H1].
      * destruct (py_get_ok P 0) as (p1 & Ep1); [unfold len in H1; lia|].
        rewrite Ep1. cbn [rbind].
        destruct (collect_kickers_ok cs (fun r => negb (r =? p1)) 3
                    ranks_high_to_low [] Hr ltac:(cbn; lia)) as (ks & -> & Hks).
        cbn [rbind].
        assert (Hp1 : cnt cs p1 = 2).
        { apply (with_count_elem cs 2 ranks_high_to_low).
          fold P. destruct P as [|p P']; [discriminate|].
          cbn in Ep1. injection Ep1 as ->. now left. }
        assert (He : (length S1 <= length (eligible cs (fun r => negb (Z.eqb r p1))
                                             ranks_high_to_low))%nat).
        { apply singles_eligible. intros r _ E.
          apply negb_true_iff, Z.eqb_neq. intros ->. lia. }
        assert (Hlen : (3 <= length ks)%nat).
        { unfold len in H1. cbn [length] in Hs, Hks. lia. }
        destruct (py_get_ok ks 0) as (k0 & ->); [lia|].
        destruct (py_get_ok ks 1) as (k1 & ->); [lia|].
        destruct (py_get_ok ks 2) as (k2 & ->); [lia|].
        cbn [rbind]. eauto.
      * destruct (collect_kickers_ok cs (fun _ => true) 5
                    ranks_high_to_low [] Hr ltac:(cbn; lia)) as (ks & -> & _).
        cbn [rbind]. eauto.
  - (* at least one trip *)
    destruct (Z.leb_spec 2 (len (t :: T'))) as [H2|H2]; cbn [orb].
    + destruct (py_get_ok (t :: T') 0) as (x0 & ->); [cbn [length]; lia|].
      destruct (py_get_ok (t :: T') 1) as (x1 & E1); [unfold len in H2; lia|].
      rewrite E1. cbn [rbind].
      destruct (truthy P) eqn:EP; cbn [andb].
      * destruct (py_get_ok P 0) as (p0 & ->);
          [destruct P; [discriminate | cbn [length]; lia]|].
        cbn [rbind]. destruct (x1 <? p0); cbn [rbind]; eauto.
      * cbn [rbind]. eauto.
    + destruct (truthy P) eqn:EP.
      * destruct (py_get_ok (t :: T') 0) as (x0 & ->); [cbn [length]; lia|].
        destruct (py_get_ok P 0) as (p0 & ->);
          [destruct P; [discriminate | cbn [length]; lia]|].
        cbn [rbind andb]. eauto.
      * assert (HT : T' = []).
        { unfold len in H2. cbn [length] in H2. destruct T'; [reflexivity|].
          cbn [length] in H2. lia. }
        subst T'. change (len [t] =? 1) with true. cbn iota.
        change (py_get [t] 0) with (Ok t). cbn [rbind].
        destruct (collect_kickers_ok cs (fun r => negb (r =? t)) 2
                    ranks_high_to_low [] Hr ltac:(cbn; lia)) as (ks & -> & Hks).
        cbn [rbind].
        assert (Ht1 : cnt cs t = 3).
        { apply (with_count_elem cs 3 ranks_high_to_low). fold T. rewrite ET.
          now left. }
        assert (He : (length S1 <= length (eligible cs (fun r => negb (Z.eqb r t))
                                             ranks_high_to_low))%nat).
        { apply singles_eligible. intros r _ E.
          apply negb_true_iff, Z.eqb_neq. intros ->. lia. }
        assert (HP : P = []) by (destruct P; [reflexivity | discriminate]).
        assert (Hlen : (2 <= length ks)%nat).
        { rewrite HP in Hs. cbn [length] in Hs, Hks. lia. }
        destruct (py_get_ok ks 0) as (k0 & ->); [lia|].
        destruct (py_get_ok ks 1) as (k1 & ->); [lia|].
        cbn [rbind]. eauto.
Qed.

Lemma find_flush_spec suits : forall cs,
  in_range cs suits ->
  exists fs, find_flush suits cs = Ok fs /\
    (fs = -1 \/ (0 <= fs /\ 5 <= cnt cs fs + Z.of_nat (count_suit fs suits))).
Proof.
  induction suits as [|s suits IH]; intros cs Hb; cbn [find_flush].
  - exists (-1). auto.
  - apply Forall_cons in Hb as [Hs Hb].
    destruct (py_incr_in_range cs s Hs) as (x & Hx & ->). cbn [rbind fst snd].
    assert (Ex : cnt cs s = x) by (unfold cnt; now apply nth_lookup_Some).
    destruct (Z.leb_spec 5 (x + 1)) as [H5|H5].
    + exists s. split; [reflexivity|]. right. split; [lia|].
      unfold count_suit. rewrite filter_cons, decide_True by reflexivity.
      cbn [length]. lia.
    + destruct (IH (bump cs s)) as (fs & -> & H).
      { unfold in_range. now rewrite bump_length. }
      exists fs. split; [reflexivity|].
      destruct H as [H|[H0 H]]; [now left | right]. split; [assumption|].
      rewrite cnt_bump in H by assumption.
      unfold count_suit in *. rewrite filter_cons.
      destruct (decide (s = fs)) as [->|E].
      * rewrite bool_decide_true in H by reflexivity. cbn [length]. lia.
      * rewrite bool_decide_false in H by congruence. lia.
Qed.

Lemma length_flush_ranks fs cards :
  length (map fst (filter (fun rs => snd rs = fs)
                          (zip (map rank_of cards) (map suit_of cards))))
  = count_suit fs (map suit_of cards).
Proof.
  rewrite length_map. unfold count_suit.
  induction cards as [|c cards IH]; [reflexivity|].
  cbn [map zip zip_with]. rewrite !filter_cons. cbn [snd].
  destruct (decide (suit_of c = fs)); cbn [length]; now rewrite IH.
Qed.

Lemma pack_flush_ok l idx : forall score,
  Forall (fun i => 0 <= i < Z.of_nat (length l)) idx ->
  exists s, pack_flush l idx score = Ok s.
Proof.
  induction idx as [|i idx IH]; intros score Hb; cbn [pack_flush].
  - now exists score.
  - apply Forall_cons in Hb as [Hi Hb].
    destruct (py_get_ok l i Hi) as (x & ->). cbn [rbind]. now apply IH.
Qed.

Lemma flush_branch_ok l : (5 <= length l)%nat -> exists s, flush_branch l = Ok s.
Proof.
  intros H. unfold flush_branch.
  destruct (straight_high _); [eauto|].
  apply pack_flush_ok. rewrite sort_desc_length.
  repeat constructor; lia.
Qed.

Lemma fold_bump_length ranks : forall cs,
  length (fold_left bump ranks cs) = length cs.
Proof.
  induction ranks as [|r ranks IH]; intros cs; cbn [fold_left]; [reflexivity|].
  now rewrite IH, bump_length.
Qed.

Lemma mult_le_4 rs r : at_most_four rs = true -> (mult r rs <= 4)%nat.
Proof.
  intros H. unfold at_most_four in H. rewrite forallb_elem_of in H.
  destruct (decide (r ∈ rs)) as [Hin|Hin].
  - now apply Nat.leb_le, H.
  - unfold mult.
    destruct (filter (fun x => x = r) rs) as [|x l] eqn:E; [cbn; lia|].
    assert (Hx : x ∈ filter (fun x => x = r) rs) by (rewrite E; now left).
    apply list_elem_of_filter in Hx as [-> Hx]. contradiction.
Qed.

Lemma nonflush_branch_ok ranks :
  ranks_ok ranks -> (5 <= length ranks)%nat -> at_most_four ranks = true ->
  exists s, nonflush_branch ranks = Ok s.
Proof.
  intros Hb Hl Hm. unfold nonflush_branch.
  destruct (straight_high _); [eauto|].
  assert (Hin : in_range (repeat 0 13) ranks).
  { unfold in_range. eapply Forall_impl; [exact Hb|]. cbn. intros; lia. }
  rewrite (count_ranks_fold ranks _ Hin). cbn [rbind].
  apply paired_branch_ok.
  - now rewrite fold_bump_length.
  - intros r Hr. rewrite cnt_fold; [|assumption|].
    + pose proof (mult_le_4 ranks r Hm).
      assert (cnt (repeat 0 13) r = 0).
      { unfold cnt. simpl repeat.
        repeat (apply elem_of_cons in Hr as [-> | Hr]; [reflexivity|]).
        inversion Hr. }
      lia.
    + repeat (apply elem_of_cons in Hr as [-> | Hr]; [lia|]). inversion Hr.
  - rewrite zsum_fold by assumption. change (zsum (repeat 0 13)) with 0. lia.
Qed.

(** The evaluator returns a score for any five cards or more with ids in
    [0, 52) that hold no rank more than four times. *)
Lemma evaluate_hand_total cards :
  Forall (fun c => 0 <= c < 52) cards -> (5 <= length cards)%nat ->
  at_most_four (map rank_of cards) = true ->
  exists s, evaluate_hand cards = Ok s.
Proof.
  intros Hb Hl Hm. unfold evaluate_hand.
  assert (Hin : in_range [0; 0; 0; 0] (map suit_of cards)).
  { unfold in_range. eapply Forall_impl; [apply (suits_ok_map_suit cards Hb)|].
    cbn. intros; lia. }
  destruct (find_flush_spec _ _ Hin) as (fs & -> & Hfs). cbn [rbind].
  destruct (Z.eqb_spec fs (-1)) as [E|E]; cbn [negb].
  - apply nonflush_branch_ok; [apply ranks_ok_map_rank | now rewrite length_map
                              | assumption].
  - apply flush_branch_ok. rewrite length_flush_ranks.
    destruct Hfs as [?|[H0 H5]]; [contradiction|].
    assert (cnt [0; 0; 0; 0] fs = 0).
    { unfold cnt. destruct (Z.to_nat fs) as [|[|[|[|[|n]]]]]; reflexivity. }
    lia.
Qed.

End ContractFacts.

(** ** The evaluator: claims *)

Module EvaluatorClaims.
Import Codec Evaluator Poker Canon ChooseFacts OrderFacts SortFacts ValueFacts
       EvalFacts AbsFacts CanonFacts MainFacts EncodeFacts PatternFacts PermFacts
       ContractFacts.

(** The three hands of the category test of [verify_engine.py]. *)
Definition royal_flush_strs : list string :=
  ["As"; "Ks"; "Qs"; "Js"; "Ts"; "2d"; "3d"]%string.
Definition quads_strs : list string :=
  ["As"; "Ad"; "Ah"; "Ac"; "2s"; "3d"; "4c"]%string.
Definition full_house_strs : list string :=
  ["As"; "Ad"; "Ah"; "Ks"; "Kd"; "3d"; "4c"]%string.

(** [evaluate_hand([card_to_int(c) for c in strs])] *)
Definition score_of_strs (strs : list string) : result Z :=
  do cards <- cards_of strs;
  evaluate_hand cards.

(** C1. On hands of seven distinct cards the score orders hands as the
    standard ranking does: a greater score exactly for the stronger hand,
    an equal score exactly for hands tied on category and every
    tie-breaking rank.  The royal flush, the four aces and the aces full of
    kings of the engine's self-test score in categories 8, 7 and 6 (the
    score shifted right by 20), with strictly decreasing scores. *)
Theorem C1_score_orders_hands :
  (forall a b, valid_hand a -> valid_hand b ->
     exists sa sb,
       evaluate_hand a = Ok sa /\ evaluate_hand b = Ok sb /\
       (sb < sa <-> stronger a b) /\ (sa = sb <-> tied a b))
  /\
  (exists sa sb sc,
     score_of_strs royal_flush_strs = Ok sa /\
     score_of_strs quads_strs = Ok sb /\
     score_of_strs full_house_strs = Ok sc /\
     Z.shiftr sa 20 = 8 /\ Z.shiftr sb 20 = 7 /\ Z.shiftr sc 20 = 6 /\
     sb < sa /\ sc < sb).
Proof.
  split.
  - intros a b Ha Hb.
    destruct (evaluate_hand_standard a Ha) as [Ea Wa].
    destruct (evaluate_hand_standard b Hb) as [Eb Wb].
    exists (encode (standard_value a)), (encode (standard_value b)).
    destruct (encode_order (standard_value b) (standard_value a) Wb Wa) as [L Q].
    repeat split; try assumption.
    + apply L.
    + apply L.
    + intros E. symmetry in E. apply Q in E. now symmetry.
    + intros E. unfold tied in E. now rewrite E.
  - exists 9175040, 8134656, 7122944. vm_compute. repeat split; congruence.
Qed.

(** Two hands C1 is about, and what it says of them. *)
Lemma C1_score_orders_hands_witness :
  valid_hand [12; 11; 10; 9; 8; 26; 27] /\ valid_hand [12; 38; 25; 51; 0; 27; 41] /\
  exists sa sb,
    evaluate_hand [12; 11; 10; 9; 8; 26; 27] = Ok sa /\
    evaluate_hand [12; 38; 25; 51; 0; 27; 41] = Ok sb /\
    (sb < sa <-> stronger [12; 11; 10; 9; 8; 26; 27] [12; 38; 25; 51; 0; 27; 41]) /\
    (sa = sb <-> tied [12; 11; 10; 9; 8; 26; 27] [12; 38; 25; 51; 0; 27; 41]).
Proof.
  assert (Ha : valid_hand [12; 11; 10; 9; 8; 26; 27]).
  { repeat split; [apply (bool_decide_unpack _); vm_compute; exact I
                  | repeat constructor; lia]. }
  assert (Hb : valid_hand [12; 38; 25; 51; 0; 27; 41]).
  { repeat split; [apply (bool_decide_unpack _); vm_compute; exact I
                  | repeat constructor; lia]. }
  split; [exact Ha|]. split; [exact Hb|].
  exact (proj1 C1_score_orders_hands _ _ Ha Hb).
Defined.

(** C10. The score of a hand of seven distinct cards does not depend on
    the order in which the cards are given. *)
Theorem C10_permutation_invariance :
  forall cards cards', valid_hand cards -> cards ≡ₚ cards' ->
    evaluate_hand cards' = evaluate_hand cards.
Proof.
  intros cards cards' Hv Hp.
  pose proof (valid_hand_Permutation _ _ Hp Hv) as Hv'.
  destruct (evaluate_hand_standard cards Hv) as [-> _].
  destruct (evaluate_hand_standard cards' Hv') as [-> _].
  now rewrite (standard_value_Permutation cards cards' Hp).
Qed.

Lemma C10_permutation_invariance_witness :
  valid_hand [12; 11; 10; 9; 8; 26; 27] /\
  [12; 11; 10; 9; 8; 26; 27] ≡ₚ [27; 12; 26; 11; 8; 10; 9] /\
  evaluate_hand [27; 12; 26; 11; 8; 10; 9] = evaluate_hand [12; 11; 10; 9; 8; 26; 27].
Proof.
  assert (Ha : valid_hand [12; 11; 10; 9; 8; 26; 27]).
  { repeat split; [apply (bool_decide_unpack _); vm_compute; exact I
                  | repeat constructor; lia]. }
  assert (Hp : [12; 11; 10; 9; 8; 26; 27] ≡ₚ [27; 12; 26; 11; 8; 10; 9]).
  { apply (bool_decide_unpack _). vm_compute. exact I. }
  split; [exact Ha|]. split; [exact Hp|].
  exact (C10_permutation_invariance _ _ Ha Hp).
Defined.

(** What was checked of a hand without a flush, on its own ranks. *)
Lemma nonflush_checked cards :
  valid_hand cards -> has_flush cards = false ->
  exists s, evaluate_hand cards = Ok s /\ check_nonflush (ranks_of cards) s = true.
Proof.
  intros Hv Hnf. destruct (flush_facts_valid cards Hv) as (fs & Hff).
  destruct (evaluate_hand_canon cards fs Hv Hff) as (s & H1 & _ & _ & _ & H2 & _).
  pose proof (no_flush_canonF cards fs Hv Hff Hnf) as E.
  exists s. split; [assumption|]. unfold ranks_of.
  rewrite <- (check_nonflush_Permutation _ _ s (canonO_perm_all cards fs E)).
  now apply H2.
Qed.

(** What was checked of a hand with five ranks in one suit. *)
Lemma flush_checked cards s0 need :
  valid_hand cards -> NoDup need -> length need = 5%nat ->
  holds (suited_ranks s0 cards) need = true ->
  exists s, evaluate_hand cards = Ok s /\ check_flush (suited_ranks s0 cards) s = true.
Proof.
  intros Hv Hn Hl Hh. destruct (flush_facts_valid cards Hv) as (fs & Hff).
  destruct (evaluate_hand_canon cards fs Hv Hff) as (s & H1 & _ & _ & _ & _ & H2).
  pose proof (suited_five_is_flush cards fs Hv Hff s0 need Hn Hl Hh) as ->.
  exists s. split; [assumption|].
  rewrite <- (check_flush_Permutation _ _ s (canonF_perm cards fs)).
  apply H2. intros E.
  pose proof (canonF_perm cards fs) as Hp. rewrite E in Hp.
  apply Permutation_nil_l in Hp.
  rewrite <- Hp in Hh. destruct need; discriminate.
Qed.

(** C6, as stated, fails: four kings are neither a straight nor a flush
    and beat the wheel. *)
Lemma C6_counterexample :
  ~ (forall w b, valid_hand w -> valid_hand b ->
       wheel_hand w -> nonstraight_nonflush b ->
       forall sw sb, evaluate_hand w = Ok sw -> evaluate_hand b = Ok sb ->
       sb < sw).
Proof.
  intros H.
  assert (Hw : valid_hand [12; 13; 27; 41; 3; 20; 37]).
  { repeat split; [apply (bool_decide_unpack _); vm_compute; exact I
                  | repeat constructor; lia]. }
  assert (Hb : valid_hand [11; 24; 37; 50; 0; 27; 41]).
  { repeat split; [apply (bool_decide_unpack _); vm_compute; exact I
                  | repeat constructor; lia]. }
  specialize (H [12; 13; 27; 41; 3; 20; 37] [11; 24; 37; 50; 0; 27; 41] Hw Hb).
  assert (H1 : wheel_hand [12; 13; 27; 41; 3; 20; 37]) by (repeat split).
  assert (H2 : nonstraight_nonflush [11; 24; 37; 50; 0; 27; 41]) by (repeat split).
  assert (E1 : evaluate_hand [12; 13; 27; 41; 3; 20; 37] = Ok 4390912)
    by (vm_compute; reflexivity).
  assert (E2 : evaluate_hand [11; 24; 37; 50; 0; 27; 41] = Ok 8069120)
    by (vm_compute; reflexivity).
  specialize (H H1 H2 _ _ E1 E2). lia.
Qed.

(** C6, amended.  A hand holding ace to five with no flush and no better
    straight scores as the five-high straight: category 4, tie-break rank
    3 (the five).  That score is below the score of every six-high
    straight and above the score of every hand that has no straight, no
    flush, no four of a kind and no full house.  A hand holding ace to
    five in one suit, with no better straight in that suit, scores as the
    five-high straight flush: category 8, tie-break rank 3, not 12. *)
Theorem C6_wheel_is_five_high :
  forall w, valid_hand w ->
    (wheel_hand w ->
       evaluate_hand w = Ok wheel_score /\
       (forall b, valid_hand b -> six_high_hand b ->
          exists s, evaluate_hand b = Ok s /\ wheel_score < s) /\
       (forall b, valid_hand b -> plain_hand b ->
          exists s, evaluate_hand b = Ok s /\ s < wheel_score))
    /\ (wheel_flush_hand w -> evaluate_hand w = Ok wheel_flush_score)
    /\ Z.shiftr wheel_score 20 = 4 /\ Z.land (Z.shiftr wheel_score 16) 15 = 3
    /\ Z.shiftr wheel_flush_score 20 = 8
    /\ Z.land (Z.shiftr wheel_flush_score 16) 15 = 3.
Proof.
  intros w Hw. split; [|split; [|repeat split]].
  - intros (Hnf & Hwh & Hhs). split; [|split].
    + destruct (nonflush_checked w Hw Hnf) as (s & Hs & Hc).
      unfold check_nonflush in Hc. rewrite Hwh, Hhs in Hc.
      apply andb_prop in Hc as [Hc _]. apply andb_prop in Hc as [Hc _].
      apply Z.eqb_eq in Hc. rewrite Hs, Hc. reflexivity.
    + intros b Hb (Hnfb & Hsix & Habove).
      destruct (nonflush_checked b Hb Hnfb) as (s & Hs & Hc).
      unfold check_nonflush in Hc. rewrite Hsix, Habove in Hc.
      apply andb_prop in Hc as [Hc _]. apply andb_prop in Hc as [_ Hc].
      apply Z.eqb_eq in Hc. exists s. split; [assumption|].
      subst s. reflexivity.
    + intros b Hb ((Hnfb & Hns) & Hq & Hfh).
      destruct (nonflush_checked b Hb Hnfb) as (s & Hs & Hc).
      unfold has_straight in Hns. apply orb_false_elim in Hns as [Hn1 Hn2].
      unfold check_nonflush in Hc. rewrite Hn1, Hn2, Hq, Hfh in Hc.
      apply andb_prop in Hc as [_ Hc]. apply Z.ltb_lt in Hc.
      exists s. split; [assumption|].
      change wheel_score with 4390912. change (4 * 2 ^ 20) with 4194304 in Hc.
      lia.
  - intros (s0 & Hwh & Hhs).
    assert (Hn : NoDup wheel_ranks)
      by (apply (bool_decide_unpack _); vm_compute; exact I).
    destruct (flush_checked w s0 wheel_ranks Hw Hn eq_refl Hwh) as (s & Hs & Hc).
    unfold check_flush in Hc. rewrite Hwh, Hhs in Hc.
    apply Z.eqb_eq in Hc. rewrite Hs, Hc. reflexivity.
Qed.

Lemma C6_wheel_is_five_high_witness :
  valid_hand [12; 13; 27; 41; 3; 20; 37] /\
  wheel_hand [12; 13; 27; 41; 3; 20; 37] /\
  evaluate_hand [12; 13; 27; 41; 3; 20; 37] = Ok wheel_score.
Proof.
  assert (Hw : valid_hand [12; 13; 27; 41; 3; 20; 37]).
  { repeat split; [apply (bool_decide_unpack _); vm_compute; exact I
                  | repeat constructor; lia]. }
  assert (H1 : wheel_hand [12; 13; 27; 41; 3; 20; 37]) by (repeat split).
  split; [exact Hw|]. split; [exact H1|].
  exact (proj1 (proj1 (C6_wheel_is_five_high _ Hw) H1)).
Defined.

(** C9, as stated, fails: five cards only, and seven cards that are five
    times the ace of spades with two more, each get a score. *)
Lemma C9_counterexample :
  evaluate_hand [12; 11; 10; 9; 8] = Ok 9175040 /\
  evaluate_hand [12; 12; 12; 12; 12; 0; 1] = Ok 6081740 /\
  ~ (forall cards, length cards <> 7%nat \/ ~ NoDup cards ->
       exists e, evaluate_hand cards = Raise e).
Proof.
  split; [vm_compute; reflexivity|]. split; [vm_compute; reflexivity|].
  intros H. destruct (H [12; 11; 10; 9; 8]) as (e & He).
  - left. discriminate.
  - vm_compute in He. discriminate.
Qed.

(** C9, amended.  [evaluate_hand] does not check its input: any list of
    five card ids or more, each in [0, 52), in which no rank occurs more
    than four times gets a score, whatever its length and whether or not
    ids repeat. *)
Theorem C9_no_input_check :
  forall cards,
    Forall (fun c => 0 <= c < 52) cards -> (5 <= length cards)%nat ->
    at_most_four (ranks_of cards) = true ->
    exists s, evaluate_hand cards = Ok s.
Proof. intros cards Hb Hl Hm. now apply evaluate_hand_total. Qed.

Lemma C9_no_input_check_witness :
  Forall (fun c => 0 <= c < 52) [12; 12; 25; 11; 10; 9] /\
  (5 <= length [12; 12; 25; 11; 10; 9])%nat /\
  at_most_four (ranks_of [12; 12; 25; 11; 10; 9]) = true /\
  exists s, evaluate_hand [12; 12; 25; 11; 10; 9] = Ok s.
Proof.
  assert (Hb : Forall (fun c => 0 <= c < 52) [12; 12; 25; 11; 10; 9])
    by (repeat constructor; lia).
  assert (Hl : (5 <= length [12; 12; 25; 11; 10; 9])%nat) by (simpl; lia).
  assert (Hm : at_most_four (ranks_of [12; 12; 25; 11; 10; 9]) = true)
    by reflexivity.
  split; [exact Hb|]. split; [exact Hl|]. split; [exact Hm|].
  exact (C9_no_input_check _ Hb Hl Hm).
Defined.

End EvaluatorClaims.

(** ** Sampling an action *)

Module SamplingFacts.
Import Engine SamplingSpec.
Local Open Scope Q_scope.











End SamplingFacts.

Module SamplingClaims.
Import Engine SamplingSpec SamplingFacts.
Local Open Scope Q_scope.

(** C5 as stated does not hold.  The engine does not normalise: with the
    weights 2, 2, 6 and r = 1/2 it selects "fold" where sampling from the
    normalised weights selects "raise"; and for the all-zero dict it selects
    "fold", the first key, not "call". *)
Lemma C5_counterexample :
  select_action zero_weights (1 # 2) = "fold"%string /\
  spec_select zero_weights (1 # 2) = "call"%string /\
  select_action raw_weights (1 # 2) = "fold"%string /\
  spec_select raw_weights (1 # 2) = "raise"%string /\
  ~ (forall probs r, 0 <= r -> r < 1 ->
       select_action probs r = spec_select probs r).
Proof.
  do 4 (split; [vm_compute; reflexivity|]).
  intros H. specialize (H zero_weights (1 # 2)).
  assert (E : select_action zero_weights (1 # 2) = "fold"%string)
    by (vm_compute; reflexivity).
  assert (E' : spec_select zero_weights (1 # 2) = "call"%string)
    by (vm_compute; reflexivity).
  rewrite E, E' in H. 
  assert (C : "fold"%string = "call"%string) by (apply H; lra).
  discriminate C.
Qed.



End SamplingClaims.

(** ** The betting round conserves chips *)

Module BettingFacts.
Import Evaluator Engine Chips SamplingFacts.
Local Open Scope Q_scope.












Section Conservation.

Variable players : strategy * strategy.
Variable rnd : nat -> Q.
Variable total : Q.





End Conservation.



End BettingFacts.

Module BettingClaims.
Import Evaluator Engine Chips BettingFacts.
Local Open Scope Q_scope.



(** C4 as stated does not hold: in [short_stack_state] player 0 has 10
    chips and needs 50 to call; the excess is 40; after the call the pot is
    210, not 240 - 40 = 200, because the 10 chips of the call enter it. *)
Lemma C4_counterexample :
  get2 (stacks short_stack_state) 0 < to_call_of short_stack_state 0 /\
  pot short_stack_state == 240 /\
  to_call_of short_stack_state 0 - get2 (stacks short_stack_state) 0 == 40 /\
  pot (apply_call short_stack_state 0) == 210 /\
  ~ (forall st p, player_ok p ->
       0 <= get2 (stacks st) p ->
       get2 (stacks st) p < to_call_of st p ->
       fst (bets (apply_call st p)) == snd (bets (apply_call st p)) /\
       get2 (stacks (apply_call st p)) (opp p)
         == get2 (stacks st) (opp p) + (to_call_of st p - get2 (stacks st) p) /\
       pot (apply_call st p)
         == pot st - (to_call_of st p - get2 (stacks st) p)).
Proof.
  do 4 (split; [vm_compute; reflexivity|]).
  intros H.
  destruct (H short_stack_state 0%Z) as [_ [_ Hp]].
  - now left.
  - vm_compute. discriminate.
  - vm_compute. reflexivity.
  - vm_compute in Hp. discriminate Hp.
Qed.



End BettingClaims.

(** ** Dealing *)

Module DealingFacts.
Import Evaluator Engine Chips Dealing.
Local Open Scope Z_scope.

Lemma py_get_lookup {A} (l : list A) (k : nat) x :
  py_get l (Z.of_nat k) = Ok x -> l !! k = Some x.
Proof.
  unfold py_get, py_index. intros H.
  destruct (Z.leb_spec 0 (Z.of_nat k)); [|lia].
  destruct (Z.ltb_spec (Z.of_nat k) (Z.of_nat (length l))); cbn [andb] in H.
  - cbn [rbind] in H. rewrite Nat2Z.id in H.
    destruct (l !! k); [congruence|discriminate].
  - destruct (Z.ltb_spec (Z.of_nat k) 0); [lia|].
    rewrite andb_false_r in H. discriminate.
Qed.

Lemma slice_app (d : list Z) (a b c : nat) :
  (a <= b)%nat -> (b <= c)%nat -> slice d a b ++ slice d b c = slice d a c.
Proof.
  intros Hab Hbc. unfold slice.
  replace (drop b d) with (drop (b - a) (drop a d))
    by (rewrite drop_drop; f_equal; lia).
  rewrite take_take_drop. f_equal. lia.
Qed.

Lemma slice_one (d : list Z) (k : nat) c :
  d !! k = Some c -> slice d k (k + 1) = [c].
Proof.
  intros H. unfold slice. replace (k + 1 - k)%nat with 1%nat by lia.
  rewrite (drop_S _ _ _ H). reflexivity.
Qed.

Lemma slice_prefix (d : list Z) (a b : nat) : slice d a b `prefix_of` drop a d.
Proof. unfold slice. apply prefix_take. Qed.

Lemma cards_apply_call st p : cards_kept st (apply_call st p).
Proof.
  unfold apply_call. destruct (Qeq_bool _ _); [now split|].
  destruct (negb _); now split.
Qed.

Lemma cards_apply_raise st p : cards_kept st (fst (apply_raise st p)).
Proof. unfold apply_raise. destruct (Qle_bool _ _); now split. Qed.

Lemma cards_act st p a : cards_kept st (act st p a).
Proof.
  unfold act. destruct (String.eqb a "call"); [apply cards_apply_call|].
  destruct (String.eqb a "raise"); [apply cards_apply_raise|now split].
Qed.

Section Cards.

Variable players : strategy * strategy.
Variable rnd : nat -> Q.

Lemma run_street_cards fuel : forall st btn_idx first n st' n',
  run_street players rnd fuel st btn_idx first n = Ok (st', n') ->
  cards_kept st st'.
Proof.
  induction fuel as [|fuel IH]; intros st btn_idx first n st' n' Hrun;
    [discriminate|].
  cbn [run_street] in Hrun.
  destruct (negb first && Qeq_bool (fst (bets st)) (snd (bets st))).
  { injection Hrun as <- _. now split. }
  destruct (observe st (active_player st) btn_idx) as [obs|e]; [|discriminate].
  cbn [rbind] in Hrun.
  set (action := select_action _ _) in Hrun.
  destruct (String.eqb action "fold").
  { injection Hrun as <- _. now split. }
  fold (act st (active_player st) action) in Hrun.
  destruct (cards_act st (active_player st) action) as [Hb Hh].
  destruct (negb (Qle_bool _ 400)).
  { injection Hrun as <- _. split; [exact Hb|exact Hh]. }
  destruct (IH _ _ _ _ _ _ Hrun) as [Hb' Hh'].
  split; [now rewrite Hb'|now rewrite Hh'].
Qed.

Lemma advance_street_cards st deck deck_idx btn_idx st' idx' :
  (4 <= deck_idx)%nat -> board st = slice deck 4 deck_idx ->
  advance_street st deck deck_idx btn_idx = Ok (st', idx') ->
  (4 <= idx')%nat /\ board st' = slice deck 4 idx' /\
  hole_cards st' = hole_cards st.
Proof.
  intros Hi Hb Ha. unfold advance_street in Ha.
  destruct (street st + 1 =? 1).
  { cbn [rbind fst snd] in Ha. injection Ha as <- <-.
    cbn [board hole_cards]. split; [lia|]. split; [|reflexivity].
    rewrite Hb. apply slice_app; lia. }
  assert (Hone : forall st'' i'',
    (do dealt <- (do c <- py_get deck (Z.of_nat deck_idx);
                  Ok (board st ++ [c], (deck_idx + 1)%nat));
     Ok (mkState (stacks st) (pot st) (street st + 1) (fst dealt) (hole_cards st)
                 (if btn_idx =? 0 then 1 else 0) (0%Q, 0%Q)
                 (folded st) (hand_complete st), snd dealt)) = Ok (st'', i'') ->
    (4 <= i'')%nat /\ board st'' = slice deck 4 i'' /\
    hole_cards st'' = hole_cards st).
  { intros st'' i'' H.
    destruct (py_get deck (Z.of_nat deck_idx)) as [c|] eqn:Ec; [|discriminate].
    cbn [rbind fst snd] in H. injection H as <- <-.
    cbn [board hole_cards]. split; [lia|]. split; [|reflexivity].
    apply py_get_lookup in Ec. rewrite Hb.
    rewrite <- (slice_one deck deck_idx c Ec). apply slice_app; lia. }
  destruct (street st + 1 =? 2); [exact (Hone _ _ Ha)|].
  destruct (street st + 1 =? 3); [exact (Hone _ _ Ha)|].
  cbn [rbind fst snd] in Ha. injection Ha as <- <-.
  cbn [board hole_cards]. auto.
Qed.

Lemma hand_loop_cards fuel : forall st deck deck_idx btn_idx n st',
  (4 <= deck_idx)%nat -> board st = slice deck 4 deck_idx ->
  hand_loop players rnd fuel st deck deck_idx btn_idx n = Ok st' ->
  (exists idx', board st' = slice deck 4 idx') /\
  hole_cards st' = hole_cards st.
Proof.
  induction fuel as [|fuel IH]; intros st deck deck_idx btn_idx n st' Hi Hb Hl;
    [discriminate|].
  cbn [hand_loop] in Hl.
  destruct (hand_complete st).
  { injection Hl as <-. split; [now exists deck_idx|reflexivity]. }
  destruct (run_street players rnd fuel st btn_idx true n) as [[st1 n1]|] eqn:Hrun;
    [|discriminate].
  cbn [rbind fst snd] in Hl.
  destruct (run_street_cards _ _ _ _ _ _ _ Hrun) as [Hb1 Hh1].
  destruct (hand_complete st1).
  { injection Hl as <-. split; [exists deck_idx; congruence|exact Hh1]. }
  destruct (street st1 =? 3).
  { unfold showdown in Hl.
    destruct (evaluate_hand (fst (hole_cards st1) ++ board st1)); [|discriminate].
    destruct (evaluate_hand (snd (hole_cards st1) ++ board st1)); [|discriminate].
    cbn [rbind] in Hl. injection Hl as <-. cbn [board hole_cards].
    split; [exists deck_idx; congruence|exact Hh1]. }
  destruct (advance_street st1 deck deck_idx btn_idx) as [[st2 idx2]|] eqn:Ha;
    [|discriminate].
  cbn [rbind fst snd] in Hl.
  assert (Hb1' : board st1 = slice deck 4 deck_idx) by congruence.
  destruct (advance_street_cards _ _ _ _ _ _ Hi Hb1' Ha) as (Hi2 & Hb2 & Hh2).
  destruct (IH _ _ _ _ _ _ Hi2 Hb2 Hl) as [Hex Hh].
  split; [exact Hex|congruence].
Qed.

End Cards.

(** What [play_hand] deals is read off the deck as the shuffle leaves it. *)
Lemma play_hand_deal randbelow fuel e players rnd hand_id btn_idx e' :
  play_hand randbelow fuel e players rnd hand_id btn_idx = Ok e' ->
  let d := shuffle (randbelow (base_seed e + hand_id)) (deck e) in
  deck e' = d /\ base_seed e' = base_seed e /\
  fst (hole_cards (state e')) = slice d 0 2 /\
  snd (hole_cards (state e')) = slice d 2 4 /\
  board (state e') `prefix_of` drop 4 d.
Proof.
  intros H d. unfold play_hand in H. fold d in H.
  destruct (py_get d 0) as [c0|] eqn:E0; [|discriminate].
  destruct (py_get d 1) as [c1|] eqn:E1; [|discriminate].
  destruct (py_get d 2) as [c2|] eqn:E2; [|discriminate].
  destruct (py_get d 3) as [c3|] eqn:E3; [|discriminate].
  cbn [rbind] in H.
  match type of H with
  | (rbind (hand_loop ?p ?r ?f ?st ?dk ?i ?b ?n) _ = _) =>
      destruct (hand_loop p r f st dk i b n) as [st2|] eqn:Hl; [|discriminate];
      assert (Hb : board st = slice dk 4 4)
  end.
  { cbn [board]. unfold reset. destruct (btn_idx =? 0); reflexivity. }
  cbn [rbind] in H. injection H as <-. cbn [state deck base_seed].
  destruct (hand_loop_cards _ _ _ _ _ _ _ _ _ (Nat.le_refl 4) Hb Hl) as [[idx' Hb'] Hh].
  cbn [hole_cards] in Hh. rewrite Hh, Hb'. cbn [fst snd].
  apply (py_get_lookup d 0) in E0. apply (py_get_lookup d 1) in E1.
  apply (py_get_lookup d 2) in E2. apply (py_get_lookup d 3) in E3.
  split; [reflexivity|]. split; [reflexivity|].
  apply slice_one in E0, E1, E2, E3. cbn [Nat.add] in E0, E1, E2, E3.
  split; [|split; [|apply slice_prefix]].
  - rewrite <- (slice_app d 0 1 2) by lia. now rewrite E0, E1.
  - rewrite <- (slice_app d 2 3 4) by lia. now rewrite E2, E3.
Qed.

Lemma prefix_same_length {A} (l1 l2 l : list A) :
  l1 `prefix_of` l -> l2 `prefix_of` l -> length l1 = length l2 -> l1 = l2.
Proof.
  intros [k1 H1] [k2 H2] Hlen. rewrite H1 in H2.
  now apply app_inj_1 in H2 as [? _].
Qed.

End DealingFacts.

Module DealingClaims.
Import Evaluator Engine Chips Dealing DealingFacts.
Local Open Scope Z_scope.

(** C3 as stated does not hold.  The engine keeps its deck between hands
    and shuffles it in place, so the deal depends on the order the previous
    hands left.  With the generator's recorded values: hand 0 on a new engine
    deals 9 23 / 25 3 and the board 21 38 16 39 19; hand 0 played again on
    the same engine deals 11 18 / 50 3 and the board 0 2 4 27 26; and hand 0
    played again after hand 0 and hand 1 deals 49 38 / 21 7 and the board
    43 23 13 5 30. *)
Lemma C3_counterexample :
  deal_of_run first_deal = Some (([9; 23], [25; 3]), [21; 38; 16; 39; 19]) /\
  deal_of_run replay = Some (([11; 18], [50; 3]), [0; 2; 4; 27; 26]) /\
  deal_of_run replay_after_one
    = Some (([49; 38], [21; 7]), [43; 23; 13; 5; 30]) /\
  ~ (forall randbelow fuel e players rnd hand_id btn_idx e1 e2,
       play_hand randbelow fuel e players rnd hand_id btn_idx = Ok e1 ->
       play_hand randbelow fuel e1 players rnd hand_id btn_idx = Ok e2 ->
       deal_of e1 = deal_of e2).
Proof.
  do 3 (split; [vm_compute; reflexivity|]).
  intros H.
  assert (H1 : play_hand recorded 16 fresh callers half 0 0 = Ok first_deal_result)
    by (vm_compute; reflexivity).
  assert (H2 : play_hand recorded 16 first_deal_result callers half 0 0
               = Ok replay_result)
    by (vm_compute; reflexivity).
  specialize (H _ _ _ _ _ _ _ _ _ H1 H2).
  vm_compute in H. discriminate H.
Qed.

(** C3, amended: the deal is determined by the order of the deck before
    the call and by the base seed and the hand index.  Two calls of
    [play_hand] with the same hand index on engines with the same base seed
    whose decks are in the same order (two newly constructed engines, for
    one) deal the same hole cards and leave the same deck, whatever the
    strategies, the random numbers, the button and the states before; of the
    two boards one is the beginning of the other, and they are equal when
    they have the same number of cards. *)
Theorem C3_deal_determined_by_deck :
  forall randbelow fuel1 fuel2 e1 e2 pl1 pl2 rnd1 rnd2 hand_id btn1 btn2 r1 r2,
    deck e1 = deck e2 -> base_seed e1 = base_seed e2 ->
    play_hand randbelow fuel1 e1 pl1 rnd1 hand_id btn1 = Ok r1 ->
    play_hand randbelow fuel2 e2 pl2 rnd2 hand_id btn2 = Ok r2 ->
    hole_cards (state r1) = hole_cards (state r2) /\
    (board (state r1) `prefix_of` board (state r2) \/
     board (state r2) `prefix_of` board (state r1)) /\
    (length (board (state r1)) = length (board (state r2)) ->
     board (state r1) = board (state r2)) /\
    deck r1 = deck r2.
Proof.
  intros randbelow fuel1 fuel2 e1 e2 pl1 pl2 rnd1 rnd2 hand_id btn1 btn2 r1 r2
         Hd Hs H1 H2.
  destruct (play_hand_deal _ _ _ _ _ _ _ _ H1) as (D1 & _ & F1 & S1 & B1).
  destruct (play_hand_deal _ _ _ _ _ _ _ _ H2) as (D2 & _ & F2 & S2 & B2).
  rewrite <- Hd, <- Hs in D2, F2, S2, B2.
  split; [|split; [|split]].
  - destruct (hole_cards (state r1)), (hole_cards (state r2)).
    cbn [fst snd] in *. congruence.
  - exact (prefix_weak_total _ _ _ B1 B2).
  - intros Hlen. exact (prefix_same_length _ _ _ B1 B2 Hlen).
  - congruence.
Qed.

Lemma C3_deal_determined_by_deck_witness :
  deck fresh = deck fresh /\ base_seed fresh = base_seed fresh /\
  first_deal = Ok first_deal_result /\ folded_deal = Ok folded_deal_result /\
  hole_cards (state first_deal_result) = hole_cards (state folded_deal_result) /\
  (board (state first_deal_result) `prefix_of` board (state folded_deal_result) \/
   board (state folded_deal_result) `prefix_of` board (state first_deal_result)) /\
  (length (board (state first_deal_result))
     = length (board (state folded_deal_result)) ->
   board (state first_deal_result) = board (state folded_deal_result)) /\
  deck first_deal_result = deck folded_deal_result.
Proof.
  assert (H1 : first_deal = Ok first_deal_result) by (vm_compute; reflexivity).
  assert (H2 : folded_deal = Ok folded_deal_result) by (vm_compute; reflexivity).
  split; [reflexivity|]. split; [reflexivity|].
  split; [exact H1|]. split; [exact H2|].
  exact (C3_deal_determined_by_deck recorded 16%nat 16%nat fresh fresh
           callers (always "fold", always "fold") half half 0 0 1
           first_deal_result folded_deal_result eq_refl eq_refl H1 H2).
Defined.

End DealingClaims.

(** ** The equity estimator *)

Module EquityFacts.
Import Codec Evaluator Poker Equity.
Local Open Scope Z_scope.

Lemma elem_of_available h b c :
  c ∈ available h b <-> 0 <= c < 52 /\ c ∉ h ++ b.
Proof.
  unfold available, full_deck. rewrite list_elem_of_filter, elem_of_seqZ.
  split; intros [H1 H2]; split; auto; lia.
Qed.

Lemma NoDup_available h b : NoDup (available h b).
Proof. apply NoDup_filter, NoDup_seqZ. Qed.

Lemma length_available h b :
  NoDup (h ++ b) -> Forall (fun c => 0 <= c < 52) (h ++ b) ->
  (length (available h b) + length (h ++ b) = 52)%nat.
Proof.
  intros Hnd Hr.
  pose proof (filter_app_complement (fun c => c ∉ h ++ b) full_deck) as Hp.
  apply Permutation_length in Hp. rewrite length_app in Hp.
  unfold full_deck in Hp at 3. rewrite length_seqZ in Hp.
  fold (available h b) in Hp.
  assert (Hv : filter (fun c : Z => ~ (c ∉ h ++ b)) full_deck ≡ₚ h ++ b).
  { apply NoDup_Permutation; [apply NoDup_filter, NoDup_seqZ|exact Hnd|].
    intros x. rewrite list_elem_of_filter. unfold full_deck.
    rewrite elem_of_seqZ. split.
    - intros [H _]. destruct (decide (x ∈ h ++ b)); tauto.
    - intros Hx. split; [tauto|].
      rewrite Forall_forall in Hr. specialize (Hr x Hx). lia. }
  apply Permutation_length in Hv. rewrite Hv in Hp.
  change (Z.to_nat 52) with 52%nat in Hp. exact Hp.
Qed.

(** What [pick] returns at positions within the population. *)
Lemma pick_ok (pop : list Z) pos :
  Forall (fun i => (i < length pop)%nat) pos ->
  exists drawn, pick pop pos = Ok drawn /\
                Forall2 (fun i c => pop !! i = Some c) pos drawn.
Proof.
  induction 1 as [|i pos Hi _ (drawn & Hd & HF)]; cbn [pick].
  - exists []. split; [reflexivity|constructor].
  - apply lookup_lt_is_Some_2 in Hi. destruct Hi as [c Hc]. rewrite Hc, Hd.
    exists (c :: drawn). split; [reflexivity|]. now constructor.
Qed.

Lemma picked_NoDup (pop : list Z) pos drawn :
  NoDup pop -> NoDup pos ->
  Forall2 (fun i c => pop !! i = Some c) pos drawn -> NoDup drawn.
Proof.
  intros Hpop Hpos HF. induction HF as [|i c pos drawn Hc HF IH].
  - constructor.
  - apply NoDup_cons in Hpos. destruct Hpos as [Hi Hpos].
    apply NoDup_cons. split; [|now apply IH].
    intros Hin. apply Hi. clear IH Hi Hpos.
    induction HF as [|j c' pos drawn Hc' HF IH].
    + inversion Hin.
    + apply elem_of_cons in Hin. destruct Hin as [<- | Hin].
      * rewrite (NoDup_lookup pop i j c Hpop Hc Hc'). apply elem_of_cons. now left.
      * apply elem_of_cons. right. now apply IH.
Qed.

Lemma picked_subseteq (pop : list Z) pos drawn :
  Forall2 (fun i c => pop !! i = Some c) pos drawn ->
  forall c, c ∈ drawn -> c ∈ pop.
Proof.
  induction 1 as [|i c' pos drawn Hc _ IH]; intros c Hin.
  - inversion Hin.
  - apply elem_of_cons in Hin. destruct Hin as [-> | Hin].
    + eapply list_elem_of_lookup_2, Hc.
    + now apply IH.
Qed.

(** A sample at a valid choice of positions: as many cards as asked for,
    all different, all of the population. *)
Lemma random_sample_ok pop k pos :
  NoDup pop -> k <= Z.of_nat (length pop) ->
  valid_choice (length pop) k pos ->
  exists drawn, random_sample pop k pos = Ok drawn /\
                Z.of_nat (length drawn) = k /\ NoDup drawn /\
                (forall c, c ∈ drawn -> c ∈ pop).
Proof.
  intros Hpop Hk (Hlen & Hnd & Hlt). unfold random_sample.
  destruct (Z.ltb_spec k 0); [lia|].
  destruct (Z.ltb_spec (Z.of_nat (length pop)) k); [lia|]. cbn [orb].
  destruct (pick_ok pop pos Hlt) as (drawn & -> & HF).
  exists drawn. split; [reflexivity|]. split; [|split].
  - rewrite <- (Forall2_length _ _ _ HF). exact Hlen.
  - exact (picked_NoDup _ _ _ Hpop Hnd HF).
  - exact (picked_subseteq _ _ _ HF).
Qed.

Section Estimate.

Variable choices : nat -> list nat.
Variables hole board : list Z.

Hypothesis hole_pair : length hole = 2%nat.
Hypothesis board_size : (length board <= 5)%nat.
Hypothesis distinct : NoDup (hole ++ board).
Hypothesis in_deck : Forall (fun c => 0 <= c < 52) (hole ++ board).

Let sample_size : Z := 2 + (5 - Z.of_nat (length board)).

Lemma sample_fits : sample_size <= Z.of_nat (length (available hole board)).
Proof.
  pose proof (length_available hole board distinct in_deck) as H.
  rewrite length_app, hole_pair in H. unfold sample_size. lia.
Qed.

Lemma drawn_ok t :
  valid_choice (length (available hole board)) sample_size (choices t) ->
  exists drawn,
    random_sample (available hole board) sample_size (choices t) = Ok drawn /\
    Z.of_nat (length drawn) = sample_size /\ NoDup drawn /\
    (forall c, c ∈ drawn -> c ∈ available hole board).
Proof.
  intros Hv. apply random_sample_ok; [apply NoDup_available|apply sample_fits|exact Hv].
Qed.

(** Both hands of an iteration are seven different cards. *)
Lemma hands_valid drawn :
  Z.of_nat (length drawn) = sample_size -> NoDup drawn ->
  (forall c, c ∈ drawn -> c ∈ available hole board) ->
  valid_hand (hole ++ board ++ drop 2 drawn) /\
  valid_hand (take 2 drawn ++ board ++ drop 2 drawn).
Proof.
  intros Hlen Hnd Hsub. unfold sample_size in Hlen.
  assert (Hout : forall c, c ∈ drawn -> c ∉ hole ++ board).
  { intros c Hc. apply Hsub, elem_of_available in Hc. tauto. }
  assert (Hrange : forall c, c ∈ drawn -> 0 <= c < 52).
  { intros c Hc. apply Hsub, elem_of_available in Hc. tauto. }
  assert (Hdrop : forall c, c ∈ drop 2 drawn -> c ∈ drawn).
  { intros c Hc. exact (subseteq_drop 2 drawn c Hc). }
  assert (Htake : forall c, c ∈ take 2 drawn -> c ∈ drawn).
  { intros c Hc. exact (subseteq_take 2 drawn c Hc). }
  apply NoDup_app in distinct as Hd. destruct Hd as (Hnh & Hhb & Hnb).
  apply Forall_app in in_deck as Hr. destruct Hr as [Hrh Hrb].
  split; (split; [|split]).
  - rewrite !length_app, length_drop, hole_pair. lia.
  - rewrite app_assoc. apply NoDup_app. split; [exact distinct|]. split.
    + intros x Hx Hx'. exact (Hout x (Hdrop x Hx') Hx).
    + pose proof Hnd as Hnd'. rewrite <- (take_drop 2 drawn) in Hnd'.
      apply NoDup_app in Hnd'. tauto.
  - rewrite !Forall_app. split; [exact Hrh|]. split; [exact Hrb|].
    apply Forall_forall. intros c Hc. exact (Hrange c (Hdrop c Hc)).
  - rewrite !length_app, length_drop, length_take. lia.
  - rewrite Permutation_app_swap_app, take_drop.
    apply NoDup_app. split; [exact Hnb|]. split; [|exact Hnd].
    intros x Hx Hx'. apply (Hout x Hx'). apply elem_of_app. now right.
  - rewrite !Forall_app. split; [|split; [exact Hrb|]]; apply Forall_forall;
      intros c Hc; apply Hrange; auto.
Qed.

Lemma scores_ok t :
  valid_choice (length (available hole board)) sample_size (choices t) ->
  exists s, scores choices hole board t = Ok s.
Proof.
  intros Hv. destruct (drawn_ok t Hv) as (drawn & Hd & Hlen & Hnd & Hsub).
  destruct (hands_valid drawn Hlen Hnd Hsub) as [H1 H2].
  apply MainFacts.evaluate_hand_standard in H1, H2.
  destruct H1 as [H1 _], H2 as [H2 _].
  unfold scores. fold sample_size. rewrite Hd. cbn [rbind].
  rewrite H1, H2. cbn [rbind]. eauto.
Qed.

Lemma tally_step p t n :
  tally choices hole board p t (S n)
  = (match scores choices hole board t with
     | Ok s => if p (fst s) (snd s) then 1 else 0
     | Raise _ => 0
     end) + tally choices hole board p (S t) n.
Proof.
  unfold tally. cbn [seq List.filter].
  destruct (scores choices hole board t) as [s|]; [|lia].
  destruct (p (fst s) (snd s)); cbn [length]; lia.
Qed.

Lemma tally_bounds : forall n t,
  0 <= tally choices hole board is_win t n /\
  0 <= tally choices hole board is_split t n /\
  tally choices hole board is_win t n + tally choices hole board is_split t n
    <= Z.of_nat n.
Proof.
  induction n as [|n IH]; intros t.
  - unfold tally. cbn. lia.
  - rewrite !tally_step. specialize (IH (S t)).
    set (W := tally choices hole board is_win (S t) n) in *.
    set (T := tally choices hole board is_split (S t) n) in *.
    destruct (scores choices hole board t) as [s|]; [|lia].
    unfold is_win, is_split.
    destruct (Z.ltb_spec (snd s) (fst s)), (Z.eqb_spec (fst s) (snd s)); lia.
Qed.

(** The loop counts the iterations won and the iterations split. *)
Lemma trials_tally : forall n t wins splits,
  (forall t', (t <= t' < t + n)%nat ->
     valid_choice (length (available hole board)) sample_size (choices t')) ->
  trials choices hole board t n wins splits
  = Ok (wins + tally choices hole board is_win t n,
        splits + tally choices hole board is_split t n).
Proof.
  induction n as [|n IH]; intros t wins splits Hv.
  - unfold tally. cbn. now rewrite !Z.add_0_r.
  - cbn [trials]. rewrite !tally_step.
    destruct (scores_ok t) as [s Hs]; [apply Hv; lia|].
    rewrite Hs. cbn [rbind]. unfold is_win, is_split.
    assert (Hv' : forall t', (S t <= t' < S t + n)%nat ->
      valid_choice (length (available hole board)) sample_size (choices t'))
      by (intros t' Ht'; apply Hv; lia).
    destruct (Z.ltb_spec (snd s) (fst s)).
    + rewrite (IH _ _ _ Hv'). destruct (Z.eqb_spec (fst s) (snd s)); [lia|].
      fold is_win is_split. do 2 f_equal; lia.
    + destruct (Z.eqb_spec (fst s) (snd s)); rewrite (IH _ _ _ Hv');
        fold is_win is_split; do 2 f_equal; lia.
Qed.

End Estimate.

Lemma equity_of_bounds wins splits n :
  0 <= wins -> 0 <= splits -> wins + splits <= n -> 1 <= n ->
  (0 <= equity_of wins splits n /\ equity_of wins splits n <= 1)%Q.
Proof.
  intros Hw Hs Hws Hn. unfold equity_of.
  assert (Qw : (inject_Z 0 <= inject_Z wins)%Q) by (now rewrite <- Zle_Qle).
  assert (Qs : (inject_Z 0 <= inject_Z splits)%Q) by (now rewrite <- Zle_Qle).
  assert (Qn : (inject_Z 1 <= inject_Z n)%Q) by (now rewrite <- Zle_Qle).
  assert (Qws : (inject_Z wins + inject_Z splits <= inject_Z n)%Q).
  { rewrite <- inject_Z_plus. now rewrite <- Zle_Qle. }
  change (inject_Z 0) with 0%Q in Qw, Qs. change (inject_Z 1) with 1%Q in Qn.
  assert (Hh : (0 <= inject_Z splits / 2 /\ inject_Z splits / 2 <= inject_Z splits)%Q).
  { split; [apply Qle_shift_div_l; lra | apply Qle_shift_div_r; lra]. }
  destruct Hh as [Hh1 Hh2]. set (h := (inject_Z splits / 2)%Q) in *.
  split.
  - apply Qle_shift_div_l; lra.
  - apply Qle_shift_div_r; lra.
Qed.

End EquityFacts.

Module EquityProps.
Import Codec Evaluator Poker Equity EquityFacts.
Local Open Scope Z_scope.

(** [calculate_equity], for a hero pair and a board of at most five cards,
    all different and in the deck, at least one iteration, and a generator
    that chooses distinct positions in the pool: the call returns
    (wins + ties / 2) / n, where wins and ties count the iterations in which
    the hero's score is the greater and those in which the scores are equal,
    and the value lies between 0 and 1. *)
Theorem calculate_equity_in_unit_interval :
  forall choices hole_in board_in hole board n,
    as_ints hole_in = Ok hole -> as_ints board_in = Ok board ->
    length hole = 2%nat -> (length board <= 5)%nat ->
    NoDup (hole ++ board) -> Forall (fun c => 0 <= c < 52) (hole ++ board) ->
    1 <= n ->
    (forall t, (t < Z.to_nat n)%nat ->
       valid_choice (length (available hole board))
                    (2 + (5 - Z.of_nat (length board))) (choices t)) ->
    calculate_equity choices hole_in board_in n
      = Ok (equity_of (tally choices hole board is_win 0 (Z.to_nat n))
                      (tally choices hole board is_split 0 (Z.to_nat n)) n) /\
    0 <= tally choices hole board is_win 0 (Z.to_nat n) /\
    0 <= tally choices hole board is_split 0 (Z.to_nat n) /\
    tally choices hole board is_win 0 (Z.to_nat n)
      + tally choices hole board is_split 0 (Z.to_nat n) <= n /\
    (0 <= equity_of (tally choices hole board is_win 0 (Z.to_nat n))
                    (tally choices hole board is_split 0 (Z.to_nat n)) n)%Q /\
    (equity_of (tally choices hole board is_win 0 (Z.to_nat n))
               (tally choices hole board is_split 0 (Z.to_nat n)) n <= 1)%Q.
Proof.
  intros choices hole_in board_in hole board n Hh Hb Hl2 Hl5 Hnd Hr Hn Hv.
  destruct (tally_bounds choices hole board Hl2 Hl5 (Z.to_nat n) 0) as (Hw & Hs & Hws).
  rewrite Z2Nat.id in Hws by lia.
  destruct (equity_of_bounds _ _ n Hw Hs Hws Hn) as [H0 H1].
  split; [|auto].
  unfold calculate_equity. rewrite Hh, Hb. cbn [rbind].
  rewrite (trials_tally choices hole board Hl2 Hl5 Hnd Hr (Z.to_nat n) 0 0 0)
    by (intros t' Ht'; apply Hv; lia).
  cbn [rbind fst snd]. destruct (Z.eqb_spec n 0); [lia|]. reflexivity.
Qed.

Lemma calculate_equity_in_unit_interval_witness :
  exists q, calculate_equity two_choices aces (IntCards []) 2 = Ok q /\
            (0 <= q)%Q /\ (q <= 1)%Q.
Proof.
  assert (Hh : as_ints aces = Ok [12; 25]) by reflexivity.
  assert (Hb : as_ints (IntCards []) = Ok []) by reflexivity.
  assert (Hl2 : length [12; 25] = 2%nat) by reflexivity.
  assert (Hl5 : (length (@nil Z) <= 5)%nat) by (simpl; lia).
  assert (Hnd : NoDup ([12; 25] ++ [])).
  { apply (bool_decide_unpack _). vm_compute. exact I. }
  assert (Hr : Forall (fun c => 0 <= c < 52) ([12; 25] ++ [])).
  { simpl. repeat constructor; lia. }
  assert (Hn : 1 <= 2) by lia.
  assert (Hv : forall t, (t < Z.to_nat 2)%nat ->
            valid_choice (length (available [12; 25] []))
                         (2 + (5 - Z.of_nat (length (@nil Z)))) (two_choices t)).
  { intros t Ht. change (Z.to_nat 2) with 2%nat in Ht.
    assert (Ht' : t = 0%nat \/ t = 1%nat) by lia.
    destruct Ht' as [-> | ->]; (split; [reflexivity|]; split;
      [apply (bool_decide_unpack _); vm_compute; exact I|]);
      apply (bool_decide_unpack _); vm_compute; exact I. }
  destruct (calculate_equity_in_unit_interval two_choices aces (IntCards [])
              [12; 25] [] 2 Hh Hb Hl2 Hl5 Hnd Hr Hn Hv)
    as (He & _ & _ & _ & H0 & H1).
  eexists. split; [exact He|]. split; [exact H0|exact H1].
Defined.



(** With no iteration [calculate_equity] divides by zero; with a negative
    number of iterations it samples nothing and returns zero. *)
Theorem calculate_equity_without_iterations :
  forall choices hole_in board_in hole board n,
    as_ints hole_in = Ok hole -> as_ints board_in = Ok board ->
    n <= 0 ->
    (n = 0 -> calculate_equity choices hole_in board_in n = Raise ZeroDivisionError) /\
    (n < 0 -> exists q, calculate_equity choices hole_in board_in n = Ok q /\
                        (q == 0)%Q).
Proof.
  intros choices hole_in board_in hole board n Hh Hb Hn.
  unfold calculate_equity. rewrite Hh, Hb. cbn [rbind].
  replace (Z.to_nat n) with 0%nat by lia. cbn [trials rbind fst snd].
  split.
  - intros ->. reflexivity.
  - intros Hlt. destruct (Z.eqb_spec n 0); [lia|].
    eexists. split; [reflexivity|]. unfold equity_of.
    change (inject_Z 0) with 0%Q. 
    assert (Hq : ~ (inject_Z n == 0)%Q).
    { intros E. unfold Qeq in E. cbn [Qnum Qden inject_Z] in E. lia. }
    field. exact Hq.
Qed.

Lemma calculate_equity_without_iterations_witness :
  (0 = 0 -> calculate_equity two_choices aces (IntCards []) 0 = Raise ZeroDivisionError) /\
  (0 < 0 -> exists q, calculate_equity two_choices aces (IntCards []) 0 = Ok q /\
                      (q == 0)%Q).
Proof.
  apply (calculate_equity_without_iterations two_choices aces (IntCards [])
           [12; 25] [] 0); [reflexivity|reflexivity|lia].
Defined.

End EquityProps.

(** ** Card strings *)

Module CodecProps.
Import Codec Equity CodecChecks.
Local Open Scope Z_scope.

Lemma round_trips_checked : forallb round_trip_ok (seqZ (-52) 104) = true.
Proof. vm_compute. reflexivity. Qed.

Lemma py_get_rank_ok c : exists r, py_get INT_TO_RANK (c mod 13) = Ok r.
Proof.
  apply ContractFacts.py_get_ok. change (Z.of_nat (length INT_TO_RANK)) with 13.
  apply Z.mod_pos_bound. lia.
Qed.

Lemma py_get_suit_out c :
  c < -52 \/ 52 <= c -> py_get INT_TO_SUIT (c / 13) = Raise IndexError.
Proof.
  intros H. unfold py_get, py_index. cbv zeta.
  change (Z.of_nat (length INT_TO_SUIT)) with 4.
  assert (Hq : c / 13 < -4 \/ 4 <= c / 13).
  { destruct H as [H | H].
    - left. apply Z.div_lt_upper_bound; lia.
    - right. apply Z.div_le_lower_bound; lia. }
  destruct (Z.leb_spec 0 (c / 13)), (Z.ltb_spec (c / 13) 4),
           (Z.leb_spec (- (4)) (c / 13)), (Z.ltb_spec (c / 13) 0);
    cbn; try reflexivity; lia.
Qed.

Lemma int_to_card_round_trip c :
  -52 <= c < 52 ->
  exists s, int_to_card c = Ok s /\ card_to_int s = Ok (c mod 52).
Proof.
  intros Hc.
  pose proof round_trips_checked as H.
  rewrite forallb_elem_of in H.
  specialize (H c). unfold round_trip_ok in H.
  destruct (int_to_card c) as [s|]; [|discriminate H; apply elem_of_seqZ; lia].
  exists s. split; [reflexivity|].
  destruct (card_to_int s) as [c'|]; [|discriminate H; apply elem_of_seqZ; lia].
  f_equal. apply Z.eqb_eq, H, elem_of_seqZ. lia.
Qed.

(** [int_to_card] accepts the ids from -52 to 51 and no other: a negative
    id is read as the id 52 higher (the suit index wraps), so that
    [card_to_int] of the result is the id modulo 52; everything else is an
    [IndexError]. *)
Theorem int_to_card_domain :
  forall c,
    (-52 <= c < 52 ->
       exists s, int_to_card c = Ok s /\ card_to_int s = Ok (c mod 52)) /\
    (c < -52 \/ 52 <= c -> int_to_card c = Raise IndexError).
Proof.
  intros c. split.
  - apply int_to_card_round_trip.
  - intros Hc. unfold int_to_card.
    destruct (py_get_rank_ok c) as [r ->]. cbn [rbind].
    now rewrite py_get_suit_out.
Qed.

Ltac ascii_cases :=
  repeat match goal with
  | |- context [Ascii.eqb ?x ?y] =>
      destruct (Ascii.eqb_spec x y) as [-> | ?]; cbn
  end.

(** A string [card_to_int] accepts is read back by [int_to_card]: the id is
    between 0 and 51 and [int_to_card] of it is the string's first two
    characters. *)
Theorem card_to_int_inverse :
  forall s c, card_to_int s = Ok c ->
    0 <= c < 52 /\ int_to_card c = Ok (two_chars s).
Proof.
  intros s c. destruct s as [|a [|b rest]]; [discriminate| |].
  - unfold card_to_int. cbn. ascii_cases; intros H; discriminate H.
  - unfold card_to_int. cbn. ascii_cases; intros H; try discriminate H;
      injection H as <-; (split; [lia|reflexivity]).
Qed.

Lemma card_to_int_inverse_witness :
  card_to_int "Td" = Ok 34 /\
  0 <= 34 < 52 /\ int_to_card 34 = Ok (two_chars "Td").
Proof.
  assert (H : card_to_int "Td" = Ok 34) by reflexivity.
  split; [exact H|]. exact (card_to_int_inverse "Td" 34 H).
Defined.

(** The two readers of card strings, [card_to_int] of the engine and
    [card_str_to_int] of the equity calculator, accept the same strings and
    give the same id; on the others the first raises [IndexError] or
    [KeyError] and the second [IndexError] or [ValueError]. *)
Theorem card_readers_agree :
  forall s,
    (forall c, card_str_to_int s = Ok c <-> card_to_int s = Ok c) /\
    (forall e, card_to_int s = Raise e -> e = IndexError \/ e = KeyError) /\
    (forall e, card_str_to_int s = Raise e -> e = IndexError \/ e = ValueError).
Proof.
  intros s. destruct s as [|a [|b rest]].
  - split; [|split].
    + intros c. split; discriminate.
    + intros e H. injection H as <-. now left.
    + intros e H. injection H as <-. now left.
  - split; [|split].
    + intros c. unfold card_to_int, card_str_to_int. cbn.
      ascii_cases; split; intros H; discriminate H.
    + intros e. unfold card_to_int. cbn.
      ascii_cases; intros H; injection H as <-; auto.
    + intros e H. injection H as <-. now left.
  - split; [|split].
    + intros c. unfold card_to_int, card_str_to_int. cbn.
      ascii_cases; split; intros H; try discriminate H; exact H.
    + intros e. unfold card_to_int. cbn.
      ascii_cases; intros H; try discriminate H; injection H as <-; auto.
    + intros e. unfold card_str_to_int. cbn.
      ascii_cases; intros H; try discriminate H; injection H as <-; auto.
Qed.

End CodecProps.

(** ** The lookup tables *)

Module TableFacts.
Import Engine Tables TableSpec.
Local Open Scope Z_scope.

Lemma bytes_eqb_eq a : forall b, bytes_eqb a b = true <-> a = b.
Proof.
  induction a as [|x a IH]; intros [|y b]; cbn [bytes_eqb];
    try (split; [discriminate|congruence]); [tauto|].
  rewrite andb_true_iff, IH. split.
  - intros [H ->]. apply Byte.byte_dec_bl in H. now subst.
  - intros H. injection H as -> ->. split; [now apply Byte.byte_dec_lb|reflexivity].
Qed.

Lemma bytes_eqb_neq a b : a <> b -> bytes_eqb a b = false.
Proof.
  intros H. destruct (bytes_eqb a b) eqn:E; [|reflexivity].
  now apply bytes_eqb_eq in E.
Qed.

Lemma u8_range b : 0 <= u8 b <= 255.
Proof. unfold u8. pose proof (Byte.to_N_bounded b). lia. Qed.

Lemma u16_range a b : 0 <= u16 a b < 65536.
Proof. unfold u16. pose proof (u8_range a). pose proof (u8_range b). lia. Qed.

(** The loop of [GTOBTable._load] reads the complete records, [n] at
    most. *)
Lemma gtob_records_fold : forall n f lut,
  gtob_records n f lut
  = Ok (fold_left gtob_step (take n (map gtob_row (chunks5 f))) lut).
Proof.
  induction n as [|n IH]; intros f lut; [reflexivity|].
  destruct f as [|a [|b [|c [|d [|e rest]]]]]; try reflexivity.
  cbn [gtob_records read fst snd firstn skipn length Nat.ltb Nat.leb
       unpack_HBBB rbind chunks5 map gtob_row fold_left].
  change (take 0 rest) with (@nil Byte.byte). change (drop 0 rest) with rest.
  cbn [rbind]. rewrite !IH.
  change (gtob_step lut (u16 a b, u8 c, u8 d, u8 e))
    with (if u8 c + u8 d + u8 e =? 0 then lut
          else <[u16 a b := weights (inject_Z (u8 c) / 255) (inject_Z (u8 d) / 255)
                                    (inject_Z (u8 e) / 255)]> lut).
  destruct (u8 c + u8 d + u8 e =? 0); reflexivity.
Qed.


Lemma preflop_records_short : forall n f lut,
  (length f < 8 * n)%nat -> preflop_records n f lut = Raise StructError.
Proof.
  induction n as [|n IH]; intros f lut Hlen; [lia|].
  destruct f as [|a0 [|a1 [|b0 [|b1 [|c0 [|c1 [|d0 [|d1 rest]]]]]]]];
    try reflexivity.
  cbn [length] in Hlen.
  cbn [preflop_records read fst snd firstn skipn unpack_HHHH rbind].
  change (take 0 rest) with (@nil Byte.byte). change (drop 0 rest) with rest.
  cbn [rbind].
  destruct (0 <? u16 b0 b1 + u16 c0 c1 + u16 d0 d1); apply IH; lia.
Qed.

(** What a table built from records holds for an id. *)
Lemma gtob_table_lookup rows hid :
  gtob_table rows !! hid = gtob_weights <$> last_with (kept_with_id hid) rows.
Proof.
  unfold gtob_table, last_with.
  induction rows as [|r rows IH] using rev_ind; [reflexivity|].
  rewrite fold_left_app, rev_app_distr. cbn [fold_left rev app List.filter].
  set (m := fold_left gtob_step rows ∅) in *.
  set (l := List.filter (kept_with_id hid) (rev rows)) in *.
  unfold gtob_step, kept_with_id. unfold table in *.
  destruct (row_total r =? 0).
  - rewrite andb_false_r. exact IH.
  - rewrite andb_true_r. destruct (Z.eqb_spec (row_id r) hid) as [<- | Hne].
    + now rewrite lookup_insert_eq.
    + rewrite lookup_insert_ne by exact Hne. exact IH.
Qed.


Lemma last_with_Some p rows r :
  last_with p rows = Some r -> r ∈ rows /\ p r = true.
Proof.
  unfold last_with. intros H.
  assert (Hin : In r (List.filter p (rev rows))).
  { destruct (List.filter p (rev rows)); [discriminate|].
    injection H as ->. now left. }
  apply filter_In in Hin. destruct Hin as [Hin Hp].
  split; [|exact Hp]. apply list_elem_of_In. now apply in_rev.
Qed.


Lemma size_fold_gtob rows : forall lut,
  (size (fold_left gtob_step rows lut) <= size lut + length rows)%nat.
Proof.
  induction rows as [|r rows IH]; intros lut; cbn [fold_left length]; [lia|].
  etransitivity; [apply IH|].
  unfold gtob_step, table in *. destruct (row_total r =? 0); [lia|].
  rewrite map_size_insert. destruct (lut !! row_id r); unfold id; lia.
Qed.

End TableFacts.

Module TableProps.
Import Engine Tables TableSpec TableFacts.
Local Open Scope Z_scope.

Ltac split_header f Hlen :=
  do 12 (destruct f as [|? f]; [cbn [length] in Hlen; lia|]).

(** [GTOBTable] lets three failures of [_load] leave the constructor: no
    file is a [FileNotFoundError], a file of fewer than 12 bytes is a
    [struct.error], and a file whose first four bytes are not GTOB is an
    [AssertionError]. *)
Theorem GTOBTable_load_failures :
  GTOBTable_load None = Raise FileNotFoundError /\
  (forall f, (length f < 12)%nat -> GTOBTable_load (Some f) = Raise StructError) /\
  (forall f, (12 <= length f)%nat -> take 4 f <> GTOB ->
     GTOBTable_load (Some f) = Raise AssertionError).
Proof.
  split; [reflexivity|]. split.
  - intros f Hlen. unfold GTOBTable_load.
    do 12 (destruct f as [|? f]; [reflexivity|]).
    cbn [length] in Hlen. lia.
  - intros f Hlen Hm. split_header f Hlen.
    unfold GTOBTable_load.
    cbn [read fst snd firstn skipn unpack_4sHIH rbind].
    change (take 0 f) with (@nil Byte.byte). cbn [rbind].
    rewrite bytes_eqb_neq by exact Hm. reflexivity.
Qed.

Lemma GTOBTable_load_ok f :
  (12 <= length f)%nat -> take 4 f = GTOB ->
  GTOBTable_load (Some f) = Ok (gtob_table (gtob_rows f)).
Proof.
  intros Hlen Hm. split_header f Hlen.
  cbn [firstn] in Hm. injection Hm as -> -> -> ->.
  unfold GTOBTable_load, gtob_rows, gtob_count, gtob_table.
  cbn [read fst snd firstn skipn unpack_4sHIH rbind].
  change (take 0 f) with (@nil Byte.byte). change (drop 0 f) with f.
  cbn [rbind]. change (bytes_eqb _ GTOB) with true. cbn [negb].
  apply gtob_records_fold.
Qed.

Lemma gtob_row_range data :
  0 <= row_id (gtob_row data) < 65536 /\
  0 <= snd (fst (fst (gtob_row data))) <= 255 /\
  0 <= snd (fst (gtob_row data)) <= 255 /\
  0 <= snd (gtob_row data) <= 255.
Proof.
  unfold gtob_row, row_id.
  destruct data as [|h0 [|h1 [|qf [|qc [|qr [|]]]]]]; cbn [fst snd]; try lia.
  pose proof (u16_range h0 h1). pose proof (u8_range qf).
  pose proof (u8_range qc). pose proof (u8_range qr). lia.
Qed.

Lemma byte_weight q : 0 <= q <= 255 ->
  (0 <= inject_Z q / 255 /\ inject_Z q / 255 <= 1)%Q.
Proof.
  intros [H0 H1].
  assert (Q0 : (inject_Z 0 <= inject_Z q)%Q) by (now rewrite <- Zle_Qle).
  assert (Q1 : (inject_Z q <= inject_Z 255)%Q) by (now rewrite <- Zle_Qle).
  change (inject_Z 0) with 0%Q in Q0. change (inject_Z 255) with 255%Q in Q1.
  split; [apply Qle_shift_div_l; lra | apply Qle_shift_div_r; lra].
Qed.

(** [GTOBTable._load] on a file of at least 12 bytes that starts with GTOB
    never fails: the table is built from the complete five-byte records
    after the header, the header's count of them at most; a record cut short
    by the end of the file is dropped and those before it are kept.  For an
    id the table holds the weights of the last of these records with that
    id whose three bytes are not all zero.  The table has at most as many
    entries as there are such records; every id is below 65536; every weight
    is a byte over 255, between 0 and 1; and the weights of an entry are not
    all zero. *)
Theorem GTOBTable_load_keeps_complete_records :
  forall f, (12 <= length f)%nat -> take 4 f = GTOB ->
    GTOBTable_load (Some f) = Ok (gtob_table (gtob_rows f)) /\
    (forall hid, GTOBTable_get (gtob_table (gtob_rows f)) hid None
                 = gtob_weights <$> last_with (kept_with_id hid) (gtob_rows f)) /\
    (GTOBTable_len (gtob_table (gtob_rows f)) <= length (chunks5 (drop 12 f)))%nat /\
    (Z.of_nat (GTOBTable_len (gtob_table (gtob_rows f))) <= gtob_count f) /\
    (forall hid d, gtob_table (gtob_rows f) !! hid = Some d ->
       0 <= hid < 65536 /\ in_unit d /\ (0 < weights_sum d)%Q).
Proof.
  intros f Hlen Hm. split; [now apply GTOBTable_load_ok|].
  assert (Hsize : (size (gtob_table (gtob_rows f)) <= length (gtob_rows f))%nat).
  { unfold gtob_table. etransitivity; [apply size_fold_gtob|].
    unfold table. rewrite map_size_empty. lia. }
  assert (Hcount : 0 <= gtob_count f).
  { unfold gtob_count. destruct (drop 6 f) as [|c0 [|c1 [|c2 [|c3 ?]]]]; try lia.
    unfold u32. pose proof (u8_range c0). pose proof (u8_range c1).
    pose proof (u8_range c2). pose proof (u8_range c3). lia. }
  split; [|split; [|split]].
  - intros hid. unfold GTOBTable_get. rewrite gtob_table_lookup.
    destruct (last_with (kept_with_id hid) (gtob_rows f)); reflexivity.
  - unfold GTOBTable_len. etransitivity; [exact Hsize|].
    unfold gtob_rows. rewrite length_take, length_map. lia.
  - unfold GTOBTable_len.
    assert ((length (gtob_rows f) <= Z.to_nat (gtob_count f))%nat).
    { unfold gtob_rows. rewrite length_take. lia. }
    lia.
  - intros hid d Hd. rewrite gtob_table_lookup in Hd.
    destruct (last_with (kept_with_id hid) (gtob_rows f)) as [r|] eqn:El;
      [|discriminate].
    cbn in Hd. injection Hd as <-.
    apply last_with_Some in El. destruct El as [Hin Hk].
    unfold kept_with_id in Hk. apply andb_true_iff in Hk. destruct Hk as [Hid Ht].
    apply Z.eqb_eq in Hid. apply negb_true_iff, Z.eqb_neq in Ht.
    assert (Hrow : exists data, r = gtob_row data).
    { unfold gtob_rows in Hin. apply subseteq_take in Hin.
      rewrite map_fmap in Hin. apply list_elem_of_fmap in Hin.
      destruct Hin as (data & -> & _). now exists data. }
    destruct Hrow as [data ->].
    destruct (gtob_row_range data) as (Hr & Hf & Hc & Hrr).
    split; [now rewrite <- Hid|].
    unfold row_total in Ht. unfold gtob_weights.
    destruct (gtob_row data) as [[[h qf] qc] qr]. cbn [fst snd] in *.
    destruct (byte_weight qf Hf) as [F0 F1].
    destruct (byte_weight qc Hc) as [C0 C1].
    destruct (byte_weight qr Hrr) as [R0 R1].
    split.
    + unfold in_unit, weights. repeat constructor; cbn [snd]; assumption.
    + unfold weights_sum, weights. cbn [fold_right snd].
      assert (Hpos : 0 < qf + qc + qr) by lia.
      assert (Qpos : (inject_Z 0 < inject_Z (qf + qc + qr))%Q)
        by (now rewrite <- Zlt_Qlt).
      rewrite !inject_Z_plus in Qpos. change (inject_Z 0) with 0%Q in Qpos.
      assert (E : (inject_Z qf / 255 + (inject_Z qc / 255 + (inject_Z qr / 255 + 0))
                   == (inject_Z qf + inject_Z qc + inject_Z qr) / 255)%Q) by field.
      rewrite E. apply Qlt_shift_div_l; lra.
Qed.

Lemma GTOBTable_load_keeps_complete_records_witness :
  GTOBTable_load (Some gtob_example) = Ok (gtob_table (gtob_rows gtob_example)) /\
  GTOBTable_get (gtob_table (gtob_rows gtob_example)) 7 None
    = Some (weights (51 / 255) (102 / 255) (102 / 255)) /\
  GTOBTable_get (gtob_table (gtob_rows gtob_example)) 8 None = None.
Proof.
  assert (Hlen : (12 <= length gtob_example)%nat) by (vm_compute; lia).
  assert (Hm : take 4 gtob_example = GTOB) by reflexivity.
  destruct (GTOBTable_load_keeps_complete_records gtob_example Hlen Hm)
    as (H1 & H2 & _).
  split; [exact H1|]. split.
  - rewrite (H2 7). reflexivity.
  - rewrite (H2 8). reflexivity.
Defined.

Lemma preflop_try_short f :
  (length f < 9)%nat ->
  preflop_try (Some f) = Ok ∅ \/ preflop_try (Some f) = Raise StructError.
Proof.
  intros Hlen. unfold preflop_try.
  destruct (negb (bytes_eqb (fst (read 4 f)) GTOB)); [now left|]. right.
  do 9 (destruct f as [|? f]; [reflexivity|]).
  cbn [length] in Hlen. lia.
Qed.

Lemma preflop_try_header f :
  (9 <= length f)%nat -> take 4 f = GTOB ->
  preflop_try (Some f)
  = preflop_records (Z.to_nat (preflop_count f)) (drop 9 f) ∅.
Proof.
  intros Hlen Hm.
  do 9 (destruct f as [|? f]; [cbn [length] in Hlen; lia|]).
  cbn [firstn] in Hm. injection Hm as -> -> -> ->.
  reflexivity.
Qed.

(** [_load_gtob_preflop_v1] raises nothing, and the table is empty when
    there is no file, when the file does not start with GTOB, when it has
    fewer than 9 bytes, and when it ends before the last of the records
    its header counts, whatever the records before held. *)
Theorem load_gtob_preflop_v1_empty_on_failure :
  load_gtob_preflop_v1 None = ∅ /\
  (forall f, take 4 f <> GTOB -> load_gtob_preflop_v1 (Some f) = ∅) /\
  (forall f, (length f < 9)%nat -> load_gtob_preflop_v1 (Some f) = ∅) /\
  (forall f, (9 <= length f)%nat ->
     Z.of_nat (length f) < 9 + 8 * preflop_count f ->
     load_gtob_preflop_v1 (Some f) = ∅).
Proof.
  split; [reflexivity|]. split; [|split].
  - intros f Hm. unfold load_gtob_preflop_v1, preflop_try.
    cbn [read fst]. rewrite bytes_eqb_neq by exact Hm. reflexivity.
  - intros f Hlen. unfold load_gtob_preflop_v1.
    destruct (preflop_try_short f Hlen) as [-> | ->]; reflexivity.
  - intros f Hlen Hshort. unfold load_gtob_preflop_v1.
    destruct (bytes_eqb (take 4 f) GTOB) eqn:Em;
      [apply bytes_eqb_eq in Em; rename Em into Hm
      |assert (Hm : take 4 f <> GTOB)
         by (intros E; apply bytes_eqb_eq in E; congruence)].
    + rewrite (preflop_try_header f Hlen Hm).
      rewrite preflop_records_short; [reflexivity|].
      rewrite length_drop. lia.
    + unfold preflop_try. cbn [read fst].
      rewrite bytes_eqb_neq by exact Hm. reflexivity.
Qed.






End TableProps.

(** ** Invariants of a hand *)

Module EngineFacts.
Import Codec Evaluator Engine Chips Bounds SamplingFacts BettingFacts DealingFacts.
Local Open Scope Q_scope.







Lemma active_act st p a : active_player (act st p a) = active_player st.
Proof.
  unfold act, apply_call, apply_raise.
  destruct (String.eqb a "call").
  - destruct (Qeq_bool _ _); [reflexivity|]. destruct (negb _); reflexivity.
  - destruct (String.eqb a "raise"); [|reflexivity].
    destruct (Qle_bool _ _); reflexivity.
Qed.

(** A property of states that every step of a hand keeps is kept by the
    hand. *)
Section Preservation.

Variable players : strategy * strategy.
Variable rnd : nat -> Q.
Variable P : FastState -> Prop.

Hypothesis P_fold : forall st, P st -> P (apply_fold st (active_player st)).
Hypothesis P_act : forall st a,
  P st -> P (set_active (act st (active_player st) a) (opp (active_player st))).
Hypothesis P_showdown : forall st st', P st -> showdown st = Ok st' -> P st'.
Hypothesis P_advance : forall st deck i btn st' i',
  P st -> advance_street st deck i btn = Ok (st', i') -> P st'.



End Preservation.







(** *** The shuffle *)

Lemma swap_Permutation x i j : swap x i j ≡ₚ x.
Proof.
  unfold swap. destruct (x !! i) as [a|] eqn:Ei; [|reflexivity].
  destruct (x !! j) as [b|] eqn:Ej; [|reflexivity].
  now apply Permutation_insert_swap.
Qed.

Lemma shuffle_from_Permutation draws : forall i k x,
  shuffle_from draws k i x ≡ₚ x.
Proof.
  induction i as [|i IH]; intros k x; cbn [shuffle_from]; [reflexivity|].
  rewrite IH. apply swap_Permutation.
Qed.

Lemma shuffle_Permutation draws x : shuffle draws x ≡ₚ x.
Proof. apply shuffle_from_Permutation. Qed.

(** A deck of the 52 cards. *)
Lemma full_deck_facts (d : list Z) :
  d ≡ₚ seqZ 0 52 ->
  length d = 52%nat /\ NoDup d /\ Forall (fun c => (0 <= c < 52)%Z) d.
Proof.
  intros Hp. split; [|split].
  - rewrite Hp. reflexivity.
  - rewrite Hp. apply NoDup_seqZ.
  - rewrite Hp. apply Forall_forall. intros c Hc. apply elem_of_seqZ in Hc. lia.
Qed.

Lemma strs_of_ok cards :
  Forall (fun c => (0 <= c < 52)%Z) cards -> exists l, strs_of cards = Ok l.
Proof.
  induction 1 as [|c cards Hc _ [l Hl]]; cbn [strs_of]; [now eexists|].
  destruct (CodecProps.int_to_card_round_trip c) as (s & -> & _); [lia|].
  rewrite Hl. cbn [rbind]. now eexists.
Qed.

End EngineFacts.

Module EngineProps.
Import Codec Evaluator Engine Chips Bounds Dealing SamplingFacts BettingFacts
       DealingFacts EngineFacts.
Local Open Scope Q_scope.



(** On an engine whose deck holds the 52 cards once each, as a new engine's
    does, [play_hand] leaves such a deck again, and in a hand it completes
    the two hole cards of each player and the board are the first cards of
    the shuffled deck: no card is dealt twice and every card is between 0
    and 51. *)
Theorem play_hand_deals_distinct_cards :
  forall randbelow fuel e players rnd hand_id btn_idx e',
    deck e ≡ₚ seqZ 0 52 ->
    play_hand randbelow fuel e players rnd hand_id btn_idx = Ok e' ->
    deck e' ≡ₚ seqZ 0 52 /\
    length (fst (hole_cards (state e'))) = 2%nat /\
    length (snd (hole_cards (state e'))) = 2%nat /\
    (fst (hole_cards (state e')) ++ snd (hole_cards (state e'))
       ++ board (state e')) `prefix_of` deck e' /\
    NoDup (fst (hole_cards (state e')) ++ snd (hole_cards (state e'))
             ++ board (state e')) /\
    Forall (fun c => (0 <= c < 52)%Z)
           (fst (hole_cards (state e')) ++ snd (hole_cards (state e'))
              ++ board (state e')).
Proof.
  intros randbelow fuel e players rnd hand_id btn_idx e' Hp H.
  destruct (play_hand_deal _ _ _ _ _ _ _ _ H) as (Hd & _ & H0 & H1 & [k Hk]).
  set (d := shuffle (randbelow (base_seed e + hand_id)%Z) (deck e)) in *.
  assert (Hpd : d ≡ₚ seqZ 0 52).
  { unfold d. now rewrite shuffle_Permutation. }
  destruct (full_deck_facts d Hpd) as (Hlen & Hnd & Hr).
  assert (Hpre : (fst (hole_cards (state e')) ++ snd (hole_cards (state e'))
                    ++ board (state e')) `prefix_of` d).
  { exists k. rewrite H0, H1, <- !app_assoc, <- Hk.
    rewrite (app_assoc (slice d 0 2)), (slice_app d 0 2 4) by lia.
    unfold slice. cbn [Nat.sub drop]. apply eq_sym, take_drop. }
  rewrite Hd. split; [exact Hpd|]. split; [|split; [|split; [exact Hpre|]]].
  - rewrite H0. unfold slice. rewrite length_take, length_drop. lia.
  - rewrite H1. unfold slice. rewrite length_take, length_drop. lia.
  - destruct Hpre as [k' Hk']. rewrite Hk' in Hnd, Hr. split.
    + apply NoDup_app in Hnd. tauto.
    + apply Forall_app in Hr. tauto.
Qed.

Lemma play_hand_deals_distinct_cards_witness :
  deck fresh ≡ₚ seqZ 0 52 /\ first_deal = Ok first_deal_result /\
  NoDup (fst (hole_cards (state first_deal_result))
           ++ snd (hole_cards (state first_deal_result))
           ++ board (state first_deal_result)).
Proof.
  assert (Hp : deck fresh ≡ₚ seqZ 0 52) by reflexivity.
  assert (H : first_deal = Ok first_deal_result) by (vm_compute; reflexivity).
  split; [exact Hp|]. split; [exact H|].
  exact (proj1 (proj2 (proj2 (proj2 (proj2
           (play_hand_deals_distinct_cards _ _ fresh _ _ _ _ _ Hp H)))))).
Defined.

Section Unknown.

Variable players : strategy * strategy.
Variable rnd : nat -> Q.

Hypothesis never_known :
  forall p n obs, unknown (select_action (get2 players p n obs) (rnd n)).

(** With wagers that differ and a pot of 400 at most, a betting round in
    which no known action is ever selected does not end. *)
Lemma run_street_unknown fuel : forall st btn_idx first n,
  ~ fst (bets st) == snd (bets st) -> pot st <= 400 ->
  (forall p, exists l, strs_of (get2 (hole_cards st) p) = Ok l) ->
  (exists l, strs_of (board st) = Ok l) ->
  run_street players rnd fuel st btn_idx first n = Raise OutOfFuel.
Proof.
  induction fuel as [|fuel IH]; intros st btn_idx first n Hne Hpot Hh Hb;
    [reflexivity|].
  cbn [run_street].
  replace (Qeq_bool (fst (bets st)) (snd (bets st))) with false
    by (symmetry; apply not_true_is_false; intros E;
        apply Qeq_bool_iff in E; contradiction).
  rewrite andb_false_r.
  unfold observe. destruct (Hh (active_player st)) as [hl ->].
  destruct Hb as [bl Hb]. rewrite Hb. cbn [rbind].
  match goal with |- context [select_action ?d ?r] =>
    destruct (never_known (active_player st) n
                {| obs_hole_cards := hl;
                   obs_community_cards := bl;
                   obs_position :=
                     if (active_player st =? btn_idx)%Z then "BTN"%string
                     else "BB"%string;
                   obs_pot_size := pot st;
                   obs_stack_size := get2 (stacks st) (active_player st);
                   obs_street :=
                     if (street st =? 0)%Z then "preflop"%string
                     else "flop"%string;
                   obs_to_call := to_call_of st (active_player st);
                   obs_valid_actions := ["fold"; "call"; "raise"]%string |})
      as (Hf & Hc & Hr)
  end.
  apply String.eqb_neq in Hf, Hc, Hr. rewrite Hf, Hc, Hr.
  cbn [set_active pot].
  replace (Qle_bool (pot st) 400) with true
    by (symmetry; now apply Qle_bool_iff).
  cbn [negb]. apply IH; cbn [bets pot hole_cards board]; auto.
  now exists bl.
Qed.

End Unknown.

(** A strategy that keeps answering with an action name other than fold,
    call and raise, "check" for one, hangs the engine: with blinds that
    differ, the wagers never become equal before the flop and the betting
    round of [play_hand] never ends, whatever the number of iterations
    allowed. *)
Theorem unknown_action_never_returns :
  forall randbelow fuel e players rnd hand_id btn_idx,
    deck e ≡ₚ seqZ 0 52 ->
    ~ small_blind (game_config e) == big_blind (game_config e) ->
    small_blind (game_config e) + big_blind (game_config e) <= 400 ->
    (forall p n obs, unknown (select_action (get2 players p n obs) (rnd n))) ->
    play_hand randbelow fuel e players rnd hand_id btn_idx = Raise OutOfFuel.
Proof.
  intros randbelow fuel e players rnd hand_id btn_idx Hp Hne Hpot Hun.
  unfold play_hand.
  set (d := shuffle (randbelow (base_seed e + hand_id)%Z) (deck e)).
  assert (Hpd : d ≡ₚ seqZ 0 52).
  { unfold d. now rewrite shuffle_Permutation. }
  destruct (full_deck_facts d Hpd) as (Hlen & _ & Hr).
  assert (Hget : forall k : nat, (k < 4)%nat ->
            exists c, py_get d (Z.of_nat k) = Ok c /\ (0 <= c < 52)%Z).
  { intros k Hk.
    destruct (EvalFacts.py_get_in_range d (Z.of_nat k)) as (c & Hc & ->); [lia|].
    exists c. split; [reflexivity|].
    rewrite Forall_forall in Hr. apply Hr.
    eapply list_elem_of_lookup_2, Hc. }
  destruct (Hget 0%nat) as (c0 & E0 & R0); [lia|].
  destruct (Hget 1%nat) as (c1 & E1 & R1); [lia|].
  destruct (Hget 2%nat) as (c2 & E2 & R2); [lia|].
  destruct (Hget 3%nat) as (c3 & E3 & R3); [lia|].
  change (Z.of_nat 0) with 0%Z in E0. change (Z.of_nat 1) with 1%Z in E1.
  change (Z.of_nat 2) with 2%Z in E2. change (Z.of_nat 3) with 3%Z in E3.
  rewrite E0, E1, E2, E3. cbn [rbind].
  destruct fuel as [|fuel]; [reflexivity|].
  cbn [hand_loop].
  replace (hand_complete _) with false
    by (unfold reset; destruct (btn_idx =? 0)%Z; reflexivity).
  rewrite (run_street_unknown players rnd Hun); [reflexivity| | | |].
  - cbn [bets]. unfold reset. destruct (btn_idx =? 0)%Z; cbn [bets fst snd].
    + exact Hne.
    + intros E. apply Hne. now symmetry.
  - cbn [pot]. unfold reset. destruct (btn_idx =? 0)%Z; cbn [pot]; exact Hpot.
  - intros p. cbn [hole_cards]. unfold get2.
    destruct (p =? 0)%Z; cbn [fst snd]; apply strs_of_ok; repeat constructor; lia.
  - cbn [board]. unfold reset. destruct (btn_idx =? 0)%Z; cbn [board]; now exists [].
Qed.

Lemma unknown_action_never_returns_witness :
  play_hand (fun _ _ => 0%nat) 20 (new_engine default_config)
            (always "check", always "check") (fun _ => 1 # 2) 0 0
  = Raise OutOfFuel.
Proof.
  assert (H1 : deck (new_engine default_config) ≡ₚ seqZ 0 52)
    by apply Permutation_refl.
  assert (H2 : ~ small_blind (game_config (new_engine default_config))
                 == big_blind (game_config (new_engine default_config))).
  { cbn. intros E. discriminate E. }
  assert (H3 : small_blind (game_config (new_engine default_config))
               + big_blind (game_config (new_engine default_config)) <= 400).
  { cbn. intros E. discriminate E. }
  assert (H4 : forall p n obs,
            unknown (select_action
                       (get2 (always "check", always "check") p n obs)
                       ((fun _ : nat => 1 # 2) n))).
  { intros p n obs. unfold get2, always.
    destruct (p =? 0)%Z; cbn [fst snd];
      change (select_action [("check"%string, 1)] (1 # 2)) with "check"%string;
      repeat split; discriminate. }
  exact (unknown_action_never_returns (fun _ _ => 0%nat) 20
           (new_engine default_config) (always "check", always "check")
           (fun _ => 1 # 2) 0%Z 0%Z H1 H2 H3 H4).
Defined.

End EngineProps.
